(** * Persistencia jerárquica NBA: a shallow embedding of SEGUNDOPARCIALHUALPA.py

    The program keeps basketball players in CSV files laid out as
    [data/nba/<conferencia>/<equipo>/players.csv] and offers create,
    recursive read, update, delete and global statistics.

    The embedding follows the Python text function by function:
    - the filesystem is a tree of directories and regular files, threaded
      explicitly through every function that touches it;
    - a regular file is seen through [csv.reader]/[csv.writer]: its content is
      the list of its rows, a row being the list of its cells;
    - a Python [dict] is a [gmap] from keys to dynamically typed values;
    - exceptions are the [Raise] branch of a result type;
    - the Python builtins the program calls but does not define ([float],
      [str.strip], [str.lower], [sum], ...) form the interface [PyBuiltins];
      every definition and theorem is generic in it, and one instance over
      binary64 floats and ASCII text is given for evaluation. *)

From Stdlib Require Import ZArith NArith Ascii String List Lia.
From Stdlib Require Import Floats.PrimFloat Floats.SpecFloat Floats.FloatOps.
From stdpp Require Import base option list strings pretty gmap.

Open Scope string_scope.
Open Scope list_scope.

(** ** Exceptions and results *)

Inductive exn :=
| ValueError (msg : string)
| KeyError (key : string)
| TypeError
| AttributeError
| OverflowError
| ZeroDivisionError
| FileNotFoundError
| FileExistsError
| NotADirectoryError
| IsADirectoryError.

Inductive result (A : Type) :=
| Ok (a : A)
| Raise (e : exn).
Arguments Ok {A} a.
Arguments Raise {A} e.

Global Instance result_ret : MRet result := λ A a, Ok a.
Global Instance result_bind : MBind result := λ A B f r,
  match r with
  | Ok a => f a
  | Raise e => Raise e
  end.

(** [mapM] over a list, left to right, stopping at the first exception: the
    model of a list comprehension whose element expression may raise. *)
Fixpoint result_mapM {A B} (f : A → result B) (l : list A) : result (list B) :=
  match l with
  | [] => Ok []
  | a :: l' => b ← f a; bs ← result_mapM f l'; Ok (b :: bs)
  end.

(** ** Builtins of the Python runtime used by the program *)

Class PyBuiltins := {
  (** the type [float] *)
  float : Type;
  (** [float(s)] for a [str]; [None] is [ValueError] *)
  float_of_str : string → option float;
  (** [float(n)] for an [int]; [None] is [OverflowError] *)
  float_of_int : Z → option float;
  (** [v >= 0] *)
  float_ge0 : float → bool;
  (** [str(v)] *)
  float_str : float → string;
  (** [sum(xs)] for a non-empty list of floats *)
  float_sum : list float → float;
  (** [x / n] for a float [x] and an [int] [n] *)
  float_truediv_int : float → Z → result float;
  (** [s.strip()] *)
  str_strip : string → string;
  (** [s.lower()] *)
  str_lower : string → string;
  (** [str(l)] for a list of [str] *)
  list_str : list string → string;
  (** [float(0)] is [0.0], and [0.0 >= 0] *)
  float_of_int_0_ge0 : ∃ z, float_of_int 0 = Some z ∧ float_ge0 z = true
}.

(** ** A reference instance of the builtins

    Text is ASCII; [float] is IEEE 754 binary64 (the kernel's primitive
    floats), read from and printed to decimal with exact integer arithmetic.
    It serves to run the program on concrete inputs; no theorem about the
    program depends on it. *)

Module Ref.

(** The ASCII characters for which [str.isspace] holds. *)
Definition is_space (c : ascii) : bool :=
  let n := nat_of_ascii c in
  ((9 <=? n)%nat && (n <=? 13)%nat) || ((28 <=? n)%nat && (n <=? 32)%nat).

Fixpoint lstrip (l : list ascii) : list ascii :=
  match l with
  | c :: l' => if is_space c then lstrip l' else l
  | [] => []
  end.

Definition strip (s : string) : string :=
  string_of_list_ascii
    (rev (lstrip (rev (lstrip (list_ascii_of_string s))))).

Definition lower_char (c : ascii) : ascii :=
  let n := nat_of_ascii c in
  if ((65 <=? n)%nat && (n <=? 90)%nat) then ascii_of_nat (n + 32) else c.

Definition lower (s : string) : string :=
  string_of_list_ascii (map lower_char (list_ascii_of_string s)).

(** [repr] of a list of [str] whose elements need no escaping. *)
Definition list_repr (l : list string) : string :=
  "[" +:+ String.concat ", " (map (λ s, "'" +:+ s +:+ "'") l) +:+ "]".

Definition digit_of (c : ascii) : option Z :=
  let n := nat_of_ascii c in
  if ((48 <=? n)%nat && (n <=? 57)%nat) then Some (Z.of_nat (n - 48)) else None.

(** Reads a run of decimal digits: the number read so far, how many digits
    were read, and the rest of the text. *)
Fixpoint read_digits (l : list ascii) (acc : Z) (n : Z) : Z * Z * list ascii :=
  match l with
  | c :: l' =>
      match digit_of c with
      | Some d => read_digits l' (10 * acc + d)%Z (n + 1)%Z
      | None => (acc, n, l)
      end
  | [] => (acc, n, [])
  end.

Definition read_sign (l : list ascii) : bool * list ascii :=
  match l with
  | "-"%char :: l' => (true, l')
  | "+"%char :: l' => (false, l')
  | _ => (false, l)
  end.

(** The correctly rounded binary64 value of [(-1)^neg * m * 10^e], [0 <= m]. *)
Definition decimal_to_float (neg : bool) (m e : Z) : PrimFloat.float :=
  if (m <=? 0)%Z then (if neg then PrimFloat.opp PrimFloat.zero else PrimFloat.zero)
  else if (0 <=? e)%Z then
    SF2Prim (binary_round prec emax neg (Z.to_pos (m * 10 ^ e)) 0)
  else
    let d := (10 ^ (- e))%Z in
    let s := Z.max 0 (Z.log2 d - Z.log2 m + 66) in
    let num := (m * 2 ^ s)%Z in
    let q := (num / d)%Z in
    let sticky := if (num mod d =? 0)%Z then 0%Z else 1%Z in
    SF2Prim (binary_round prec emax neg (Z.to_pos (2 * q + sticky)) (- (s + 1))).

(** The optional exponent part of a decimal literal; [None] when the text does
    not end there. *)
Definition read_exponent (l : list ascii) : option Z :=
  match l with
  | [] => Some 0%Z
  | c :: l' =>
      if bool_decide (c = "e"%char ∨ c = "E"%char) then
        let '(neg, l'') := read_sign l' in
        let '(x, n, rest) := read_digits l'' 0 0 in
        if ((0 <? n)%Z && bool_decide (rest = [])) then Some (if neg then (- x)%Z else x)
        else None
      else None
  end.

(** [float(s)]: surrounding whitespace, a sign, then [inf], [infinity], [nan]
    or a decimal literal with optional fraction and exponent. *)
Definition parse_float (s : string) : option PrimFloat.float :=
  let '(neg, l) := read_sign (list_ascii_of_string (strip s)) in
  let word := lower (string_of_list_ascii l) in
  if bool_decide (word = "inf" ∨ word = "infinity") then
    Some (if neg then PrimFloat.neg_infinity else PrimFloat.infinity)
  else if bool_decide (word = "nan") then Some PrimFloat.nan
  else
    let '(m1, n1, l1) := read_digits l 0 0 in
    let '(m2, n2, l2) :=
      match l1 with
      | "."%char :: l1' => read_digits l1' m1 0
      | _ => (m1, 0%Z, l1)
      end in
    if (n1 + n2 =? 0)%Z then None
    else e ← read_exponent l2; Some (decimal_to_float neg m2 (e - n2)).

(** [float(n)] for an [int]. *)
Definition float_of_Z (n : Z) : option PrimFloat.float :=
  match binary_normalize prec emax n 0 false with
  | S754_infinity _ => None
  | f => Some (SF2Prim f)
  end.

(** [m * 2^e] rounded half-even to [p] significant decimal digits: the digits
    as a number below [10^p], and the position of the decimal point. *)
Definition round_to_digits (m : positive) (e : Z) (p : Z) : Z * Z :=
  let n := if (0 <=? e)%Z then (Z.pos m * 2 ^ e)%Z else Z.pos m in
  let d := if (0 <=? e)%Z then 1%Z else (2 ^ (- e))%Z in
  (* [ge10 j]: [10^j <= n/d] *)
  let ge10 := λ j : Z,
    if (0 <=? j)%Z then (10 ^ j * d <=? n)%Z else (d <=? n * 10 ^ (- j))%Z in
  let k0 := ((Z.log2 (Z.pos m) + e) * 30103 / 100000)%Z in
  let k1 := if ge10 (k0 + 1)%Z then (k0 + 2)%Z
            else if ge10 k0 then (k0 + 1)%Z
            else if ge10 (k0 - 1)%Z then k0 else (k0 - 1)%Z in
  let sh := (p - k1)%Z in
  let num := if (0 <=? sh)%Z then (n * 10 ^ sh)%Z else n in
  let den := if (0 <=? sh)%Z then d else (d * 10 ^ (- sh))%Z in
  let q := (num / den)%Z in
  let r := (num mod den)%Z in
  let up := match (2 * r ?= den)%Z with
            | Lt => false
            | Eq => Z.odd q
            | Gt => true
            end in
  let q' := if up then (q + 1)%Z else q in
  if (q' =? 10 ^ p)%Z then (10 ^ (p - 1), k1 + 1)%Z else (q', k1).

(** The fewest digits, at most 17, that read back as the same float. *)
Fixpoint shortest_digits (fuel : nat) (p : Z) (m : positive) (e : Z) : Z * Z :=
  let '(q, k) := round_to_digits m e p in
  match fuel with
  | O => (q, k)
  | S fuel' =>
      if PrimFloat.eqb (decimal_to_float false q (k - p))
                       (SF2Prim (S754_finite false m e))
      then (q, k)
      else shortest_digits fuel' (p + 1)%Z m e
  end.

Definition zeros (n : Z) : string :=
  string_of_list_ascii (repeat "0"%char (Z.to_nat n)).

Definition str_take (n : Z) (s : string) : string :=
  string_of_list_ascii (take (Z.to_nat n) (list_ascii_of_string s)).
Definition str_drop (n : Z) (s : string) : string :=
  string_of_list_ascii (drop (Z.to_nat n) (list_ascii_of_string s)).

(** Layout of [repr]: exponent form when the decimal point falls outside
    [-4 < k <= 16], plain form otherwise. *)
Definition format_digits (q k : Z) : string :=
  let s : string := pretty q in
  let n := Z.of_nat (String.length s) in
  if ((k <=? -4)%Z || (16 <? k)%Z) then
    let x := (k - 1)%Z in
    let ax : string := pretty (Z.abs x) in
    str_take 1 s +:+ (if (1 <? n)%Z then "." +:+ str_drop 1 s else "")
      +:+ "e" +:+ (if (x <? 0)%Z then "-" else "+")
      +:+ (if (Z.abs x <? 10)%Z then "0" else "") +:+ ax
  else if (k <=? 0)%Z then "0." +:+ zeros (- k) +:+ s
  else if (n <=? k)%Z then s +:+ zeros (k - n) +:+ ".0"
  else str_take k s +:+ "." +:+ str_drop k s.

(** [repr(x)] *)
Definition float_repr (x : PrimFloat.float) : string :=
  match Prim2SF x with
  | S754_nan => "nan"
  | S754_infinity s => if s then "-inf" else "inf"
  | S754_zero s => if s then "-0.0" else "0.0"
  | S754_finite s m e =>
      let '(q, k) := shortest_digits 16 1 m e in
      (if s then "-" else "") +:+ format_digits q k
  end.

(** [sum] adds from the left, starting at [0]. *)
Definition fsum (xs : list PrimFloat.float) : PrimFloat.float :=
  foldl PrimFloat.add PrimFloat.zero xs.

Definition truediv_int (x : PrimFloat.float) (n : Z) : result PrimFloat.float :=
  match float_of_Z n with
  | None => Raise OverflowError
  | Some y => if (n =? 0)%Z then Raise ZeroDivisionError else Ok (PrimFloat.div x y)
  end.

Lemma float_of_Z_0_ge0 :
  ∃ z, float_of_Z 0 = Some z ∧ PrimFloat.leb PrimFloat.zero z = true.
Proof. exists PrimFloat.zero. split; reflexivity. Qed.

#[export] Instance builtins : PyBuiltins := {|
  float := PrimFloat.float;
  float_of_str := parse_float;
  float_of_int := float_of_Z;
  float_ge0 := PrimFloat.leb PrimFloat.zero;
  float_str := float_repr;
  float_sum := fsum;
  float_truediv_int := truediv_int;
  str_strip := strip;
  str_lower := lower;
  list_str := list_repr;
  float_of_int_0_ge0 := float_of_Z_0_ge0
|}.

End Ref.

(** ** Paths *)

(** A path is kept as the list of its components from the root;
    [os.path.join(p, name)] adds one component.  Components are plain names:
    not empty, not [.] or [..], and free of the separator.  The names found in
    a directory are plain by nature; the theorems about [alta_jugador] ask it
    of [conferencia] and [equipo], which come from the caller. *)
Definition path := list string.

Definition path_join (p : path) (name : string) : path := p ++ [name].

(** [os.path.basename] *)
Definition basename (p : path) : string := List.last p "".

Definition path_str (p : path) : string :=
  foldr (λ name s, "/" +:+ name +:+ s) "" p.

Definition plain_name (s : string) : Prop :=
  bool_decide (s ≠ "" ∧ s ≠ "." ∧ s ≠ "..")
  && forallb (λ c, bool_decide (c ≠ "/"%char)) (list_ascii_of_string s) = true.

(** ** Identifiers: [str(uuid.uuid4())] *)

Definition hex_char (n : N) : ascii :=
  nth (N.to_nat n) (list_ascii_of_string "0123456789abcdef") "0"%char.

(** [width] hexadecimal digits of [x], most significant first. *)
Fixpoint hex_digits (width : nat) (x : N) : string :=
  match width with
  | O => ""
  | S w => hex_digits w (x / 16)%N +:+ String (hex_char (x mod 16)%N) ""
  end.

(** [uuid.uuid4()]: sixteen random bytes, read as a big-endian integer, with
    the variant and version bits forced. *)
Definition uuid4 (rnd : N) : N :=
  let x := (rnd mod 2 ^ 128)%N in
  let x := N.ldiff x (N.shiftl 0xc000 48) in
  let x := N.lor x (N.shiftl 0x8000 48) in
  let x := N.ldiff x (N.shiftl 0xf000 64) in
  N.lor x (N.shiftl 4 76).

(** [str(u)] for a UUID: the 8-4-4-4-12 layout of its 32 hexadecimal digits. *)
Definition uuid_str (u : N) : string :=
  let h := hex_digits 32 u in
  substring 0 8 h +:+ "-" +:+ substring 8 4 h +:+ "-" +:+ substring 12 4 h
    +:+ "-" +:+ substring 16 4 h +:+ "-" +:+ substring 20 12 h.

(** The bits of the random bytes that [uuid4] keeps. *)
Definition bit_libre (i : N) : Prop :=
  (i < 128)%N ∧ i ∉ [62; 63; 76; 77; 78; 79]%N.

(** ** The filesystem *)

(** A node is a regular file, given by its rows of cells, or a directory,
    given by its entries in the order [os.listdir] yields them. *)
#[warnings="-register-all"]
Inductive node :=
| File (rows : list (list string))
| Dir (entries : list (string * node)).

Fixpoint entry (name : string) (es : list (string * node)) : option node :=
  match es with
  | [] => None
  | (n, x) :: es' => if decide (n = name) then Some x else entry name es'
  end.

(** Replaces the entry called [name], or adds it at the end. *)
Fixpoint set_entry (name : string) (x : node) (es : list (string * node))
  : list (string * node) :=
  match es with
  | [] => [(name, x)]
  | (n, y) :: es' =>
      if decide (n = name) then (n, x) :: es' else (n, y) :: set_entry name x es'
  end.

Fixpoint fs_lookup (fs : node) (p : path) : option node :=
  match p with
  | [] => Some fs
  | name :: p' =>
      match fs with
      | Dir es => x ← entry name es; fs_lookup x p'
      | File _ => None
      end
  end.

(** [os.path.exists] *)
Definition fs_exists (fs : node) (p : path) : bool :=
  bool_decide (is_Some (fs_lookup fs p)).

(** [os.makedirs(p, exist_ok=True)] *)
Fixpoint fs_makedirs (fs : node) (p : path) : result node :=
  match p with
  | [] =>
      match fs with
      | Dir _ => Ok fs
      | File _ => Raise FileExistsError
      end
  | name :: p' =>
      match fs with
      | File _ => Raise NotADirectoryError
      | Dir es =>
          sub ← fs_makedirs (default (Dir []) (entry name es)) p';
          Ok (Dir (set_entry name sub es))
      end
  end.

(** [open(p, "r")] and reading the whole file through [csv.reader]. *)
Fixpoint fs_read (fs : node) (p : path) : result (list (list string)) :=
  match p with
  | [] =>
      match fs with
      | File rows => Ok rows
      | Dir _ => Raise IsADirectoryError
      end
  | name :: p' =>
      match fs with
      | File _ => Raise NotADirectoryError
      | Dir es =>
          match entry name es with
          | Some x => fs_read x p'
          | None => Raise FileNotFoundError
          end
      end
  end.

(** [open(p, "w")] followed by writing [rows] and closing: the file is created
    or truncated, its directory must exist. *)
Fixpoint fs_write (fs : node) (p : path) (rows : list (list string)) : result node :=
  match p with
  | [] =>
      match fs with
      | File _ => Ok (File rows)
      | Dir _ => Raise IsADirectoryError
      end
  | name :: p' =>
      match fs with
      | File _ => Raise NotADirectoryError
      | Dir es =>
          match entry name es, p' with
          | None, [] => Ok (Dir (set_entry name (File rows) es))
          | None, _ :: _ => Raise FileNotFoundError
          | Some x, _ => x' ← fs_write x p' rows; Ok (Dir (set_entry name x' es))
          end
      end
  end.

(** The rows of the regular file at [p], if there is one. *)
Definition fs_file (fs : node) (p : path) : option (list (list string)) :=
  match fs_lookup fs p with
  | Some (File rows) => Some rows
  | _ => None
  end.

(** [os.path.isdir] *)
Definition fs_isdir (fs : node) (p : path) : bool :=
  match fs_lookup fs p with
  | Some (Dir _) => true
  | _ => false
  end.

(** The entries of a directory have distinct names. *)
#[warnings="-register-all"]
Inductive wf_node : node → Prop :=
| wf_File rows : wf_node (File rows)
| wf_Dir es : NoDup es.*1 → Forall (λ e, wf_node e.2) es → wf_node (Dir es).

Fixpoint wf_nodeb (n : node) : bool :=
  match n with
  | File _ => true
  | Dir es =>
      bool_decide (NoDup es.*1)
      && (fix todos (es : list (string * node)) : bool :=
            match es with
            | [] => true
            | (_, m) :: es' => wf_nodeb m && todos es'
            end) es
  end.

(** Every regular file below [n], with its path, in listing order; [ruta] is
    the path of [n] itself. *)
Fixpoint archivos (ruta : path) (n : node) : list (path * list (list string)) :=
  match n with
  | File rows => [(ruta, rows)]
  | Dir es =>
      (fix bucle (es : list (string * node)) :=
         match es with
         | [] => []
         | (elemento, m) :: es' => archivos (path_join ruta elemento) m ++ bucle es'
         end) es
  end.

(** Computations that read and write the filesystem and may raise. *)
Definition io (A : Type) : Type := node → node * result A.

Global Instance io_ret : MRet io := λ A a fs, (fs, Ok a).
Global Instance io_bind : MBind io := λ A B f m fs,
  match m fs with
  | (fs', Ok a) => f a fs'
  | (fs', Raise e) => (fs', Raise e)
  end.

(** A computation that leaves the filesystem alone. *)
Definition pure {A} (r : result A) : io A := λ fs, (fs, r).
(** A computation that only reads the filesystem. *)
Definition reading {A} (f : node → result A) : io A := λ fs, (fs, f fs).

(** ** Values and dictionaries *)

Section Program.
Context `{PyBuiltins}.
(** [os.getcwd()] when the module is loaded. *)
Variable cwd : path.

(** The dynamically typed values that occur as dictionary values. *)
Inductive value :=
| VStr (s : string)
| VPath (p : path)           (* a [str] that is a path, kept by components *)
| VInt (n : Z)
| VFloat (x : float)
| VNone
| VList (l : list string).   (* the surplus cells [csv.DictReader] stores *)

(** Dictionary keys are [str], or [None] ([csv.DictReader]'s [restkey]). *)
Local Abbreviation key := (option string).
Local Abbreviation dict := (gmap key value).

(** [d[k]] *)
Definition getitem (d : dict) (k : string) : result value :=
  match d !! Some k with
  | Some v => Ok v
  | None => Raise (KeyError k)
  end.

(** [d.get(k, default)] *)
Definition dict_get (d : dict) (k : string) (default : value) : value :=
  match d !! Some k with
  | Some v => v
  | None => default
  end.

(** [dict(pairs)]: a later pair overrides an earlier one with the same key. *)
Definition dict_of_pairs (l : list (key * value)) : dict :=
  foldl (λ d kv, <[kv.1 := kv.2]> d) ∅ l.

(** [str(v)] *)
Definition value_str (v : value) : string :=
  match v with
  | VStr s => s
  | VPath p => path_str p
  | VInt n => pretty n
  | VFloat x => float_str x
  | VNone => "None"
  | VList l => list_str l
  end.

(** [v == s] for a [str] [s] *)
Definition value_eq_str (v : value) (s : string) : bool :=
  match v with
  | VStr s' => bool_decide (s' = s)
  | VPath p => bool_decide (path_str p = s)
  | _ => false
  end.

(** [float(v)] *)
Definition py_float (v : value) : result float :=
  match v with
  | VStr s => from_option Ok (Raise (ValueError "could not convert string to float")) (float_of_str s)
  | VPath p => from_option Ok (Raise (ValueError "could not convert string to float")) (float_of_str (path_str p))
  | VInt n => from_option Ok (Raise OverflowError) (float_of_int n)
  | VFloat x => Ok x
  | VNone | VList _ => Raise TypeError
  end.

(** ** Global configuration *)

Definition BASE_DIR : path := cwd ++ ["data"; "nba"].
Definition CSV_FILENAME : string := "players.csv".
Definition CSV_HEADERS : list string :=
  ["id"; "nombre"; "posicion"; "puntos"; "rebotes"; "asistencias"].

(** ** Validations *)

Definition validar_nombre (nombre : value) : bool :=
  match nombre with
  | VStr s => bool_decide (str_strip s ≠ "")
  | VPath p => bool_decide (str_strip (path_str p) ≠ "")
  | _ => false
  end.

Definition posiciones_validas : list string :=
  ["base"; "escolta"; "alero"; "ala-pivot"; "pivot"].

(** [posicion.lower()] raises [AttributeError] on a value that is no [str]. *)
Definition validar_posicion (posicion : value) : result bool :=
  match posicion with
  | VStr s => Ok (bool_decide (str_lower s ∈ posiciones_validas))
  | VPath p => Ok (bool_decide (str_lower (path_str p) ∈ posiciones_validas))
  | _ => Raise AttributeError
  end.

Definition validar_estadistica (valor : value) : result bool :=
  match py_float valor with
  | Ok v => Ok (float_ge0 v)
  | Raise TypeError | Raise (ValueError _) => Ok false
  | Raise e => Raise e
  end.

(** ** The [csv] module, on rows of cells *)

(** One data row as [csv.DictReader] returns it: cells are paired with the
    field names, surplus cells go under the key [None], and missing cells
    read as [None]. *)
Definition dict_reader_row (fieldnames row : list string) : dict :=
  let d := dict_of_pairs (zip (Some <$> fieldnames) (VStr <$> row)) in
  let lf := length fieldnames in
  let lr := length row in
  if (lf <? lr)%nat then <[None := VList (drop lf row)]> d
  else foldl (λ d k, <[Some k := VNone]> d) d (drop lr fieldnames).

(** [list(csv.DictReader(f))]: the first row gives the field names, blank rows
    are skipped. *)
Definition dict_reader (rows : list (list string)) : list dict :=
  match rows with
  | [] => []
  | fieldnames :: rows' =>
      dict_reader_row fieldnames <$> filter (λ r, r ≠ []) rows'
  end.

(** How [csv.writer] prints one cell. *)
Definition csv_cell (v : value) : string :=
  match v with
  | VNone => ""
  | _ => value_str v
  end.

(** [DictWriter._dict_to_list] with [fieldnames=CSV_HEADERS]: a key outside
    the field names is refused, a missing one is written as the empty cell. *)
Definition dict_to_list (rowdict : dict) : result (list string) :=
  if bool_decide (set_Forall (λ k, k ∈ (Some <$> CSV_HEADERS)) (dom rowdict))
  then Ok ((λ k, csv_cell (dict_get rowdict k (VStr ""))) <$> CSV_HEADERS)
  else Raise (ValueError "dict contains fields not in fieldnames").

(** [writer.writerows(filas)]: the rows that reach the file, and whether the
    call returned or raised on the way. *)
Fixpoint writerows (filas : list dict) : list (list string) * result () :=
  match filas with
  | [] => ([], Ok ())
  | d :: filas' =>
      match dict_to_list d with
      | Raise e => ([], Raise e)
      | Ok r => let '(rs, res) := writerows filas' in (r :: rs, res)
      end
  end.

(** ** Utilities *)

(** Crea directorios si no existen y devuelve la ruta final. *)
Definition asegurar_directorio (partes : list string) : io path := λ fs,
  let ruta := BASE_DIR ++ partes in
  match fs_makedirs fs ruta with
  | Ok fs' => (fs', Ok ruta)
  | Raise e => (fs, Raise e)
  end.

(** Crea el CSV si no existe. *)
Definition inicializar_csv_si_necesario (ruta_dir : path) : io path := λ fs,
  let ruta_csv := path_join ruta_dir CSV_FILENAME in
  if negb (fs_exists fs ruta_csv) then
    match fs_write fs ruta_csv [CSV_HEADERS] with
    | Ok fs' => (fs', Ok ruta_csv)
    | Raise e => (fs, Raise e)
    end
  else (fs, Ok ruta_csv).

Definition leer_csv (fs : node) (ruta_csv : path) : result (list dict) :=
  match fs_read fs ruta_csv with
  | Ok rows => Ok (dict_reader rows)
  | Raise FileNotFoundError => Ok []
  | Raise e => Raise e
  end.

(** The file is truncated when it is opened, the header and the rows printed
    before an exception stay in it. *)
Definition escribir_csv (ruta_csv : path) (filas : list dict) : io () := λ fs,
  let '(rows, res) := writerows filas in
  match fs_write fs ruta_csv (CSV_HEADERS :: rows) with
  | Ok fs' => (fs', res)
  | Raise e => (fs, Raise e)
  end.

(** ** CRUD *)

(** The loop over the three statistics in [alta_jugador]. *)
Fixpoint validar_estadisticas (jugador : dict) (stats : list string) : result () :=
  match stats with
  | [] => Ok ()
  | stat :: stats' =>
      ok ← validar_estadistica (dict_get jugador stat (VInt 0));
      if ok : bool then validar_estadisticas jugador stats'
      else Raise (ValueError ("Valor inválido en " +:+ stat))
  end.

(** [s.strip()] / [s.lower()] on a value already known to be a [str]. *)
Definition py_strip (v : value) : result value :=
  match v with
  | VStr s => Ok (VStr (str_strip s))
  | VPath p => Ok (VStr (str_strip (path_str p)))
  | _ => Raise AttributeError
  end.
Definition py_lower (v : value) : result value :=
  match v with
  | VStr s => Ok (VStr (str_lower s))
  | VPath p => Ok (VStr (str_lower (path_str p)))
  | _ => Raise AttributeError
  end.

(** The dictionary literal [nuevo]; [rnd] is what [os.urandom] hands to
    [uuid.uuid4]. *)
Definition nuevo_jugador (rnd : N) (jugador : dict) : result dict :=
  let id := uuid_str (uuid4 rnd) in
  nombre ← getitem jugador "nombre" ≫= py_strip;
  posicion ← getitem jugador "posicion" ≫= py_lower;
  puntos ← getitem jugador "puntos" ≫= py_float;
  rebotes ← getitem jugador "rebotes" ≫= py_float;
  asistencias ← getitem jugador "asistencias" ≫= py_float;
  Ok (dict_of_pairs
        [(Some "id", VStr id); (Some "nombre", nombre);
         (Some "posicion", posicion); (Some "puntos", VFloat puntos);
         (Some "rebotes", VFloat rebotes);
         (Some "asistencias", VFloat asistencias)]).

(** Crea un nuevo jugador dentro de la jerarquía. *)
Definition alta_jugador (rnd : N) (conferencia equipo : string) (jugador : dict)
  : io dict :=
  if negb (validar_nombre (dict_get jugador "nombre" (VStr ""))) then
    pure (Raise (ValueError "Nombre inválido."))
  else
    ok ← pure (validar_posicion (dict_get jugador "posicion" (VStr "")));
    if negb ok then pure (Raise (ValueError "Posición inválida."))
    else
      pure (validar_estadisticas jugador ["puntos"; "rebotes"; "asistencias"]);;
      dir_path ← asegurar_directorio [conferencia; equipo];
      ruta_csv ← inicializar_csv_si_necesario dir_path;
      nuevo ← pure (nuevo_jugador rnd jugador);
      jugadores ← reading (λ fs, leer_csv fs ruta_csv);
      escribir_csv ruta_csv (jugadores ++ [(VStr ∘ value_str) <$> nuevo]);;
      mret nuevo.

(** What one step of the loop in [leer_todos_los_jugadores] adds for the
    entry at [ruta]: the recursive call on a directory, the tagged rows of a
    file called [CSV_FILENAME], nothing for any other file. *)
Fixpoint visitar (ruta : path) (n : node) : list dict :=
  match n with
  | Dir es =>
      (fix bucle (es : list (string * node)) : list dict :=
         match es with
         | [] => []
         | (elemento, m) :: es' => visitar (path_join ruta elemento) m ++ bucle es'
         end) es
  | File rows =>
      if decide (basename ruta = CSV_FILENAME)
      then (λ f, <[Some "_origen" := VPath ruta]> f) <$> dict_reader rows
      else []
  end.

(** Función RECURSIVA que recorre toda la jerarquía NBA. *)
Definition leer_todos_los_jugadores (base_dir : option path) (fs : node)
  : result (list dict) :=
  let base_dir := default BASE_DIR base_dir in
  match fs_lookup fs base_dir with
  | None => Ok []
  | Some (Dir es) => Ok (visitar base_dir (Dir es))
  | Some (File _) => Raise NotADirectoryError
  end.

(** [ruta = j["_origen"]], as the path that [open] will resolve.  The records
    the traversal returns always hold a path there. *)
Definition origen (j : dict) : result path :=
  v ← getitem j "_origen";
  match v with
  | VPath p => Ok p
  | VStr _ => Raise FileNotFoundError
  | _ => Raise TypeError
  end.

(** The argument of [fila.update] in [actualizar_jugador]. *)
Definition actualizar_fila (cambios fila : dict) : result dict :=
  nombre ← getitem fila "nombre";
  posicion ← getitem fila "posicion";
  puntos ← getitem fila "puntos";
  rebotes ← getitem fila "rebotes";
  asistencias ← getitem fila "asistencias";
  Ok (<[Some "asistencias" := dict_get cambios "asistencias" asistencias]>
      (<[Some "rebotes" := dict_get cambios "rebotes" rebotes]>
      (<[Some "puntos" := dict_get cambios "puntos" puntos]>
      (<[Some "posicion" := dict_get cambios "posicion" posicion]>
      (<[Some "nombre" := dict_get cambios "nombre" nombre]> fila))))).

(** The inner loop of [actualizar_jugador] over the rows of the origin file;
    [previas] are the rows already passed.  [None]: the loop ended without a
    match. *)
Fixpoint actualizar_en_archivo (ruta : path) (jugador_id : string) (cambios : dict)
    (previas resto : list dict) : io (option dict) :=
  match resto with
  | [] => mret None
  | fila :: resto' =>
      v ← pure (getitem fila "id");
      if value_eq_str v jugador_id then
        fila' ← pure (actualizar_fila cambios fila);
        escribir_csv ruta (previas ++ fila' :: resto');;
        mret (Some fila')
      else actualizar_en_archivo ruta jugador_id cambios (previas ++ [fila]) resto'
  end.

(** The outer loop of [actualizar_jugador] over the flattened records. *)
Fixpoint actualizar_bucle (jugador_id : string) (cambios : dict) (todos : list dict)
  : io dict :=
  match todos with
  | [] => pure (Raise (KeyError "Jugador no encontrado."))
  | j :: todos' =>
      v ← pure (getitem j "id");
      if value_eq_str v jugador_id then
        ruta ← pure (origen j);
        jugadores ← reading (λ fs, leer_csv fs ruta);
        r ← actualizar_en_archivo ruta jugador_id cambios [] jugadores;
        match r with
        | Some fila => mret fila
        | None => actualizar_bucle jugador_id cambios todos'
        end
      else actualizar_bucle jugador_id cambios todos'
  end.

(** Actualiza un jugador existente por su ID. *)
Definition actualizar_jugador (jugador_id : string) (cambios : dict) : io dict :=
  todos ← reading (leer_todos_los_jugadores None);
  actualizar_bucle jugador_id cambios todos.

(** [[f for f in jugadores if f["id"] != jugador_id]] *)
Fixpoint filtrar_distintos (jugador_id : string) (jugadores : list dict)
  : result (list dict) :=
  match jugadores with
  | [] => Ok []
  | f :: jugadores' =>
      v ← getitem f "id";
      nuevos ← filtrar_distintos jugador_id jugadores';
      Ok (if value_eq_str v jugador_id then nuevos else f :: nuevos)
  end.

Fixpoint eliminar_bucle (jugador_id : string) (todos : list dict) : io bool :=
  match todos with
  | [] => mret false
  | j :: todos' =>
      v ← pure (getitem j "id");
      if value_eq_str v jugador_id then
        ruta ← pure (origen j);
        jugadores ← reading (λ fs, leer_csv fs ruta);
        nuevos ← pure (filtrar_distintos jugador_id jugadores);
        escribir_csv ruta nuevos;;
        mret true
      else eliminar_bucle jugador_id todos'
  end.

Definition eliminar_jugador (jugador_id : string) : io bool :=
  todos ← reading (leer_todos_los_jugadores None);
  eliminar_bucle jugador_id todos.

(** ** Statistics *)

(** [[float(j[campo]) for j in jugadores]] *)
Definition columna (campo : string) (jugadores : list dict) : result (list float) :=
  result_mapM (λ j, getitem j campo ≫= py_float) jugadores.

Definition estadisticas_globales (jugadores : list dict) : result dict :=
  let total := length jugadores in
  if (total =? 0)%nat then Ok (dict_of_pairs [(Some "total", VInt 0)])
  else
    puntos ← columna "puntos" jugadores;
    rebotes ← columna "rebotes" jugadores;
    asistencias ← columna "asistencias" jugadores;
    promedio_puntos ← float_truediv_int (float_sum puntos) (Z.of_nat total);
    promedio_rebotes ← float_truediv_int (float_sum rebotes) (Z.of_nat total);
    promedio_asistencias ← float_truediv_int (float_sum asistencias) (Z.of_nat total);
    Ok (dict_of_pairs
          [(Some "total_jugadores", VInt (Z.of_nat total));
           (Some "promedio_puntos", VFloat promedio_puntos);
           (Some "promedio_rebotes", VFloat promedio_rebotes);
           (Some "promedio_asistencias", VFloat promedio_asistencias)]).

End Program.

Abbreviation key := (option string).
Abbreviation dict := (gmap key value).

(** * Notions used to state the properties *)

Section Specification.
Context `{PyBuiltins}.
Variable cwd : path.

Local Abbreviation key := (option string).
Local Abbreviation dict := (gmap key value).

(** The regular files at or below [base], with their paths. *)
Definition archivos_bajo (fs : node) (base : path) : list (path * list (list string)) :=
  from_option (archivos base) [] (fs_lookup fs base).

(** The records that one file contributes to the traversal. *)
Definition registros (a : path * list (list string)) : list dict :=
  if decide (basename a.1 = CSV_FILENAME)
  then (λ f, <[Some "_origen" := VPath a.1]> f) <$> dict_reader a.2
  else [].

(** The layout [escribir_csv] gives a file: the header row, then rows of six
    cells. *)
Definition record_file (rows : list (list string)) : Prop :=
  ∃ data, rows = CSV_HEADERS :: data ∧ Forall (λ r, length r = 6%nat) data.

Definition record_fileb (rows : list (list string)) : bool :=
  match rows with
  | [] => false
  | h :: data => bool_decide (h = CSV_HEADERS) && forallb (λ r, (length r =? 6)%nat) data
  end.

(** The hierarchy as the program leaves it: directory entries have distinct
    names, [BASE_DIR] is not a regular file, and every file called
    [CSV_FILENAME] below it has the layout of a record file. *)
Record store_ok (fs : node) : Prop := {
  ok_names : wf_node fs;
  ok_root : fs_file fs (BASE_DIR cwd) = None;
  ok_files : ∀ q rows,
    fs_file fs (BASE_DIR cwd ++ q) = Some rows →
    basename (BASE_DIR cwd ++ q) = CSV_FILENAME → record_file rows
}.

Definition store_okb (fs : node) : bool :=
  wf_nodeb fs
  && bool_decide (fs_file fs (BASE_DIR cwd) = None)
  && forallb (λ a, if decide (basename a.1 = CSV_FILENAME) then record_fileb a.2 else true)
       (archivos_bajo fs (BASE_DIR cwd)).

(** The identifier cell of a row of a record file. *)
Definition id_de (r : list string) : string := default "" (head r).

(** Some record of the hierarchy carries the identifier. *)
Definition presente (fs : node) (jugador_id : string) : Prop :=
  ∃ q data r,
    fs_file fs (BASE_DIR cwd ++ q) = Some (CSV_HEADERS :: data) ∧
    basename (BASE_DIR cwd ++ q) = CSV_FILENAME ∧
    r ∈ data ∧ id_de r = jugador_id.

(** The test [j["id"] == jugador_id] of the loops, on a record that has the
    key. *)
Definition coincide (jugador_id : string) (j : dict) : bool :=
  match j !! Some "id" with
  | Some v => value_eq_str v jugador_id
  | None => false
  end.

(** Whether a file is a record file with a row that carries the identifier. *)
Definition tiene_id (jugador_id : string) (a : path * list (list string)) : bool :=
  bool_decide (basename a.1 = CSV_FILENAME)
  && existsb (λ r, bool_decide (id_de r = jugador_id)) (tail a.2).

(** The fields [actualizar_jugador] may change. *)
Definition campos_editables : list string :=
  ["nombre"; "posicion"; "puntos"; "rebotes"; "asistencias"].

(** A record with its origin attached, as the traversal returns it. *)
Definition etiquetado (p : path) (f : dict) : dict :=
  <[Some "_origen" := VPath p]> f.

Definition presenteb (fs : node) (jugador_id : string) : bool :=
  existsb (tiene_id jugador_id) (archivos_bajo fs (BASE_DIR cwd)).

(** [actualizar_jugador] applies every key of [cambios] to the record it
    returns. *)
Definition aplica_cada_clave (fs : node) (jugador_id : string) (cambios : dict) : Prop :=
  ∃ fs' fila',
    actualizar_jugador cwd jugador_id cambios fs = (fs', Ok fila')
    ∧ ∀ k v, cambios !! Some k = Some v → fila' !! Some k = Some v.

(** The row [csv.DictWriter] prints for a dictionary. *)
Definition celdas (d : dict) : list string :=
  (λ k, csv_cell (dict_get d k (VStr ""))) <$> CSV_HEADERS.

(** The identifier occurs in the record file at [BASE_DIR ++ q]. *)
Definition en_archivo (fs : node) (jugador_id : string) (q : path) : Prop :=
  ∃ data r,
    fs_file fs (BASE_DIR cwd ++ q) = Some (CSV_HEADERS :: data) ∧
    basename (BASE_DIR cwd ++ q) = CSV_FILENAME ∧
    r ∈ data ∧ id_de r = jugador_id.

(** [eliminar_jugador] answers [True] and takes exactly one row out of one
    file, every other file staying as it was. *)
Definition elimina_una_fila (fs : node) (jugador_id : string) : Prop :=
  ∃ fs' p rows rows',
    eliminar_jugador cwd jugador_id fs = (fs', Ok true)
    ∧ fs_file fs p = Some rows
    ∧ fs_file fs' p = Some rows'
    ∧ length rows = S (length rows')
    ∧ ∀ p', p' ≠ p → fs_file fs' p' = fs_file fs p'.


(** The creation raises a [KeyError] after it has changed the filesystem. *)
Definition falla_tras_escribir (fs : node) (rnd : N) (conferencia equipo : string)
    (jugador : dict) : Prop :=
  ∃ falta fs2,
    alta_jugador cwd rnd conferencia equipo jugador fs = (fs2, Raise (KeyError falta))
    ∧ fs2 ≠ fs.

(** A run of creations, one after the other. *)
Fixpoint altas (pedidos : list (N * string * string * dict)) : io (list dict) :=
  match pedidos with
  | [] => mret []
  | (rnd, conferencia, equipo, jugador) :: pedidos' =>
      nuevo ← alta_jugador cwd rnd conferencia equipo jugador;
      nuevos ← altas pedidos';
      mret (nuevo :: nuevos)
  end.

End Specification.

(** * Further notions *)

Section Notions.
Context `{PyBuiltins}.
Variable cwd : path.

Local Abbreviation key := (option string).
Local Abbreviation dict := (gmap key value).

(** The test [csv.DictWriter] makes on a dictionary before printing it: no
    key outside the field names. *)
Definition campos_validos (d : dict) : bool :=
  bool_decide (set_Forall (λ k, k ∈ (Some <$> CSV_HEADERS)) (dom d)).

(** The record carries [ruta] as its origin. *)
Definition viene_de (ruta : path) (j : dict) : bool :=
  match origen j with
  | Ok p => bool_decide (p = ruta)
  | Raise _ => false
  end.

(** The three operations that write, as requests. *)
Inductive operacion :=
| Alta (rnd : N) (conferencia equipo : string) (jugador : dict)
| Actualizar (jugador_id : string) (cambios : dict)
| Eliminar (jugador_id : string).

(** The filesystem a request leaves, whether it returns or raises. *)
Definition ejecutar (fs : node) (op : operacion) : node :=
  match op with
  | Alta rnd conferencia equipo jugador =>
      (alta_jugador cwd rnd conferencia equipo jugador fs).1
  | Actualizar jugador_id cambios => (actualizar_jugador cwd jugador_id cambios fs).1
  | Eliminar jugador_id => (eliminar_jugador cwd jugador_id fs).1
  end.

(** Conference and team are single path components. *)
Definition nombres_simples (op : operacion) : Prop :=
  match op with
  | Alta _ conferencia equipo _ => plain_name conferencia ∧ plain_name equipo
  | _ => True
  end.

End Notions.

(** * The interactive menu *)

Section Interactive.
Context `{PyBuiltins}.
Variable cwd : path.

Local Abbreviation key := (option string).
Local Abbreviation dict := (gmap key value).

(** [s.replace(" ", "_")]; text is held as UTF-8 bytes, where the byte of the
    space occurs in no other character. *)
Definition replace_espacios (s : string) : string :=
  string_of_list_ascii
    ((λ c, if bool_decide (c = " "%char) then "_"%char else c) <$> list_ascii_of_string s).

(** What the program writes on the screen: one constructor for each kind of
    [print], by what is printed rather than by its characters, and the prompt
    of an [input]. *)
Inductive salida :=
| Texto (s : string)            (* [print(s)] of a literal *)
| Pregunta (s : string)         (* the prompt of [input(s)] *)
| Agregado (nuevo : dict)       (* [print("Jugador agregado:", nuevo)] *)
| Actualizado (fila : dict)     (* [print("Jugador actualizado:", actualizado)] *)
| Fallo (e : exn)               (* [print("Error:", e)] *)
| Ficha (nombre posicion puntos rebotes asistencias : value)
                                (* one line of the listing *)
| Promedios (stats : dict).     (* the lines [k: v] of the statistics *)

(** How a session ends. *)
Inductive fin :=
| Salir                         (* option 0: [break] *)
| Excepcion (e : exn)           (* an exception that nothing catches *)
| EOFError.                     (* [input] when the input has ended *)

(** The world of a session: the filesystem, the lines still to be typed,
    what [os.urandom] gives to each creation, and the screen. *)
Record consola := Consola {
  disco : node;
  entrada : list string;
  azar : nat → N;
  creaciones : nat;
  pantalla : list salida
}.

Inductive paso (A : Type) :=
| Sigue (a : A)
| Termina (f : fin).
Global Arguments Sigue {_} _.
Global Arguments Termina {_} _.

Definition sesion (A : Type) : Type := consola → consola * paso A.

Global Instance sesion_ret : MRet sesion := λ A a st, (st, Sigue a).
Global Instance sesion_bind : MBind sesion := λ A B f m st,
  match m st with
  | (st', Sigue a) => f a st'
  | (st', Termina x) => (st', Termina x)
  end.

Definition print (x : salida) : sesion () := λ st,
  (Consola (disco st) (entrada st) (azar st) (creaciones st) (pantalla st ++ [x]),
   Sigue ()).

Definition input (pregunta : string) : sesion string := λ st,
  let visto := pantalla st ++ [Pregunta pregunta] in
  match entrada st with
  | [] => (Consola (disco st) [] (azar st) (creaciones st) visto, Termina EOFError)
  | linea :: resto =>
      (Consola (disco st) resto (azar st) (creaciones st) visto, Sigue linea)
  end.

Definition urandom : sesion N := λ st,
  (Consola (disco st) (entrada st) (azar st) (S (creaciones st)) (pantalla st),
   Sigue (azar st (creaciones st))).

(** A call inside [try: ... except Exception as e]. *)
Definition intentar {A} (m : io A) : sesion (result A) := λ st,
  let '(d, r) := m (disco st) in
  (Consola d (entrada st) (azar st) (creaciones st) (pantalla st), Sigue r).

(** A call outside any [try]. *)
Definition llamar {A} (m : io A) : sesion A := λ st,
  let '(d, r) := m (disco st) in
  (Consola d (entrada st) (azar st) (creaciones st) (pantalla st),
   match r with
   | Ok a => Sigue a
   | Raise e => Termina (Excepcion e)
   end).

(** [break] out of the loop of [menu]. *)
Definition break : sesion () := λ st, (st, Termina Salir).

Definition nl : string := String "010"%char "".

Definition cartel : sesion () :=
  print (Texto (nl +:+ "=== GESTOR NBA ==="));;
  print (Texto "1. Alta de jugador");;
  print (Texto "2. Listar todos (recursivo)");;
  print (Texto "3. Actualizar jugador");;
  print (Texto "4. Eliminar jugador");;
  print (Texto "5. Estadísticas globales");;
  print (Texto "0. Salir").

Definition opcion_1 : sesion () :=
  conferencia ← input "Conferencia (este/oeste): ";
  equipo ← input "Equipo: ";
  nombre ← input "Nombre del jugador: ";
  posicion ← input "Posición (base/escolta/alero/ala-pivot/pivot): ";
  puntos ← input "Puntos por partido: ";
  rebotes ← input "Rebotes por partido: ";
  asistencias ← input "Asistencias por partido: ";
  rnd ← urandom;
  r ← intentar
         (alta_jugador cwd rnd (str_strip (str_lower conferencia))
            (replace_espacios (str_lower equipo))
            (dict_of_pairs
               [(Some "nombre", VStr nombre); (Some "posicion", VStr posicion);
                (Some "puntos", VStr puntos); (Some "rebotes", VStr rebotes);
                (Some "asistencias", VStr asistencias)]));
  match r with
  | Ok nuevo => print (Agregado nuevo)
  | Raise e => print (Fallo e)
  end.

(** The loop that prints the listing. *)
Fixpoint listar (todos : list dict) : sesion () :=
  match todos with
  | [] => mret ()
  | j :: todos' =>
      linea ← llamar (pure (nombre ← getitem j "nombre";
                            posicion ← getitem j "posicion";
                            puntos ← getitem j "puntos";
                            rebotes ← getitem j "rebotes";
                            asistencias ← getitem j "asistencias";
                            Ok (Ficha nombre posicion puntos rebotes asistencias)));
      print linea;;
      listar todos'
  end.

Definition opcion_2 : sesion () :=
  todos ← llamar (reading (leer_todos_los_jugadores cwd None));
  match todos with
  | [] => print (Texto "No hay jugadores cargados.")
  | _ :: _ => print (Texto (nl +:+ "--- LISTA DE JUGADORES ---"));; listar todos
  end.

Definition opcion_3 : sesion () :=
  id_jugador ← input "ID del jugador a actualizar: ";
  campo ← input "Campo a modificar (nombre/posicion/puntos/rebotes/asistencias): ";
  valor ← input "Nuevo valor: ";
  r ← intentar (actualizar_jugador cwd id_jugador {[Some campo := VStr valor]});
  match r with
  | Ok actualizado => print (Actualizado actualizado)
  | Raise e => print (Fallo e)
  end.

Definition opcion_4 : sesion () :=
  id_jugador ← input "ID del jugador a eliminar: ";
  eliminado ← llamar (eliminar_jugador cwd id_jugador);
  if eliminado : bool then print (Texto "Jugador eliminado correctamente.")
  else print (Texto "No se encontró el jugador.").

Definition opcion_5 : sesion () :=
  jugadores ← llamar (reading (leer_todos_los_jugadores cwd None));
  stats ← llamar (pure (estadisticas_globales jugadores));
  print (Texto (nl +:+ "--- ESTADÍSTICAS GLOBALES ---"));;
  print (Promedios stats).

(** The chain of [if op == ...] in the loop of [menu]. *)
Definition opcion (op : string) : sesion () :=
  if bool_decide (op = "1") then opcion_1
  else if bool_decide (op = "2") then opcion_2
  else if bool_decide (op = "3") then opcion_3
  else if bool_decide (op = "4") then opcion_4
  else if bool_decide (op = "5") then opcion_5
  else if bool_decide (op = "0") then print (Texto "Saliendo...");; break
  else print (Texto "Opción no válida.").

(** One round of the loop of [menu]. *)
Definition vuelta : sesion () :=
  cartel;;
  linea ← input "Opción: ";
  opcion (str_strip linea).

(** [menu], for at most [n] rounds; [None] when [n] rounds did not end it. *)
Fixpoint menu (n : nat) (st : consola) : consola * option fin :=
  match n with
  | O => (st, None)
  | S n' =>
      match vuelta st with
      | (st', Sigue _) => menu n' st'
      | (st', Termina f) => (st', Some f)
      end
  end.

(** The names typed for a conference and a team are single path components. *)
Definition linea_simple (linea : string) : Prop :=
  plain_name (str_strip (str_lower linea))
  ∧ plain_name (replace_espacios (str_lower linea)).


(** The line of the listing for a record that holds the five fields. *)
Definition ficha (j : dict) : salida :=
  Ficha (dict_get j "nombre" VNone) (dict_get j "posicion" VNone)
    (dict_get j "puntos" VNone) (dict_get j "rebotes" VNone)
    (dict_get j "asistencias" VNone).

(** [m], started where [P] holds, hands over a state where [Q] holds, or ends
    the session in a state where [E] holds. *)
Definition triple {A} (P : consola → Prop) (m : sesion A)
    (Q : A → consola → Prop) (E : fin → consola → Prop) : Prop :=
  ∀ st, P st →
    match m st with
    | (st', Sigue a) => Q a st'
    | (st', Termina f) => E f st'
    end.

(** The hierarchy has its layout and fewer than [k] lines are left to read. *)
Definition en_orden (k : nat) (st : consola) : Prop :=
  store_ok cwd (disco st) ∧ (length (entrada st) < k)%nat.

(** The hierarchy has its layout at the end of the session, and an exception
    that ended it came out of [estadisticas_globales] on the records of the
    hierarchy. *)
Definition fin_en_orden (f : fin) (st : consola) : Prop :=
  store_ok cwd (disco st)
  ∧ ∀ e, f = Excepcion e →
      ∃ todos, leer_todos_los_jugadores cwd None (disco st) = Ok todos
               ∧ estadisticas_globales todos = Raise e.

End Interactive.

(** * A concrete league, for the examples *)

Module Liga.
Import Ref.

Abbreviation dict := (gmap (option string) value).

Definition cwd : path := ["home"; "u"].

Definition base : path := ["home"; "u"; "data"; "nba"].

Definition bulls : path := base ++ ["este"; "bulls"; "players.csv"].

(** Nothing has been created yet. *)
Definition vacio : node := Dir [("home", Dir [("u", Dir [])])].

(** Two teams in the east, one in the west, and a stray file. *)
Definition liga : node :=
  Dir [("home", Dir [("u", Dir [("data", Dir [("nba", Dir [
    ("este", Dir [
       ("bulls", Dir [("players.csv", File [
          ["id"; "nombre"; "posicion"; "puntos"; "rebotes"; "asistencias"];
          ["a1"; "Ana"; "base"; "10.0"; "5.0"; "3.0"];
          ["b2"; "Beto"; "pivot"; "20.0"; "9.0"; "1.0"]])]);
       ("notas.txt", File [["recordar"; "fichajes"]]);
       ("heat", Dir [("players.csv", File [
          ["id"; "nombre"; "posicion"; "puntos"; "rebotes"; "asistencias"]])])]);
    ("oeste", Dir [
       ("lakers", Dir [("players.csv", File [
          ["id"; "nombre"; "posicion"; "puntos"; "rebotes"; "asistencias"];
          ["c3"; "Caro"; "alero"; "30.0"; "4.0"; "6.0"]])])])])])])])].

(** The same identifier twice in one file. *)
Definition repetida : node :=
  Dir [("home", Dir [("u", Dir [("data", Dir [("nba", Dir [
    ("este", Dir [
       ("bulls", Dir [("players.csv", File [
          ["id"; "nombre"; "posicion"; "puntos"; "rebotes"; "asistencias"];
          ["a1"; "Ana"; "base"; "10.0"; "5.0"; "3.0"];
          ["a1"; "Ana"; "base"; "12.0"; "5.0"; "3.0"]])])])])])])])].

Definition ana : dict :=
  dict_of_pairs
    [(Some "nombre", VStr "  Ana "); (Some "posicion", VStr "Base");
     (Some "puntos", VStr "10"); (Some "rebotes", VInt 5);
     (Some "asistencias", VFloat 3%float)].

Definition beto : dict :=
  dict_of_pairs
    [(Some "nombre", VStr "Beto"); (Some "posicion", VStr "PIVOT");
     (Some "puntos", VStr "20.5"); (Some "rebotes", VStr "9");
     (Some "asistencias", VStr "1")].

Definition caro : dict :=
  dict_of_pairs
    [(Some "nombre", VStr "Caro"); (Some "posicion", VStr "alero");
     (Some "puntos", VFloat 30%float); (Some "rebotes", VStr "4");
     (Some "asistencias", VStr "6e0")].

(** No [rebotes]. *)
Definition incompleto : dict :=
  dict_of_pairs
    [(Some "nombre", VStr "Dani"); (Some "posicion", VStr "escolta");
     (Some "puntos", VStr "7"); (Some "asistencias", VStr "2")].

(** A negative statistic. *)
Definition negativo : dict :=
  dict_of_pairs
    [(Some "nombre", VStr "Eva"); (Some "posicion", VStr "base");
     (Some "puntos", VStr "7"); (Some "rebotes", VStr "-1");
     (Some "asistencias", VStr "2")].


(** The directories of the bulls, and nothing in them. *)
Definition con_bulls : node :=
  Dir [("home", Dir [("u", Dir [("data", Dir [("nba", Dir [
    ("este", Dir [("bulls", Dir [])])])])])])].

(** Changes that name the points and the identifier. *)
Definition cambios : dict :=
  dict_of_pairs [(Some "puntos", VStr "25"); (Some "id", VStr "zz")].

Definition pedidos : list (N * string * string * dict) :=
  [(1%N, "este", "bulls", ana); (2%N, "este", "bulls", beto);
   (3%N, "oeste", "lakers", caro)].

(** Records with points 10, 20 and 30, as read from a file. *)
Definition tres : list dict :=
  dict_reader
    [["id"; "nombre"; "posicion"; "puntos"; "rebotes"; "asistencias"];
     ["a1"; "Ana"; "base"; "10.0"; "5.0"; "3.0"];
     ["b2"; "Beto"; "pivot"; "20.0"; "9.0"; "1.5"];
     ["c3"; "Caro"; "alero"; "30.0"; "4.0"; "6.0"]].

End Liga.

(** * Further cases, for the examples *)

Module Casos.
Import Ref Liga.

(** The file of the bulls with a row of seven cells in the middle. *)
Definition larga : node :=
  Dir [("home", Dir [("u", Dir [("data", Dir [("nba", Dir [
    ("este", Dir [
       ("bulls", Dir [("players.csv", File [
          ["id"; "nombre"; "posicion"; "puntos"; "rebotes"; "asistencias"];
          ["a1"; "Ana"; "base"; "10.0"; "5.0"; "3.0"];
          ["b2"; "Beto"; "pivot"; "20.0"; "9.0"; "1.0"; "lesionado"];
          ["c3"; "Caro"; "alero"; "30.0"; "4.0"; "6.0"]])])])])])])])].

(** A position that is a number, and points beyond the largest float. *)
Definition posicion_entera : dict :=
  dict_of_pairs
    [(Some "nombre", VStr "Fede"); (Some "posicion", VInt 5);
     (Some "puntos", VStr "7"); (Some "rebotes", VStr "1");
     (Some "asistencias", VStr "2")].

Definition puntos_enormes : dict :=
  dict_of_pairs
    [(Some "nombre", VStr "Gabi"); (Some "posicion", VStr "pivot");
     (Some "puntos", VInt (10 ^ 400)); (Some "rebotes", VStr "1");
     (Some "asistencias", VStr "2")].

(** Changes that name no editable field. *)
Definition otro_campo : dict := {[Some "equipo" := VStr "lakers"]}.

(** Points that are no number. *)
Definition puntos_malos : dict := {[Some "puntos" := VStr "abc"]}.

Definition operaciones : list operacion :=
  [Alta 1 "este" "bulls" ana; Alta 2 "oeste" "lakers" negativo;
   Actualizar "00000000-0000-4000-8000-000000000001" puntos_malos;
   Eliminar "00000000-0000-4000-8000-000000000001"; Eliminar "zz"].

(** A session that creates a player, lists, asks for the statistics and
    leaves. *)
Definition visita : consola :=
  Consola vacio
    ["1"; "Este"; "Chicago Bulls"; " Ana "; "Base"; "10"; "5"; "3"; " 2 "; "5"; "9"; "0";
     "1"]
    (λ n, N.of_nat n + 7)%N 0 [].

(** A session on the league that spoils the points of ["b2"]. *)
Definition descuido : consola :=
  Consola liga [" 3"; "b2"; "puntos"; "abc"; "5 "; "0"] (λ _, 0%N) 0 [].

(** A session on the league that names a field the program does not know. *)
Definition errata : consola :=
  Consola liga ["3"; "b2"; "equipo"; "lakers"; "0"] (λ _, 0%N) 0 [].

(** A session on the league with a blank line, a creation, a deletion of an
    identifier nobody carries, a listing and the way out. *)
Definition paseo : consola :=
  Consola liga
    [""; "1"; " Oeste"; "Los Angeles Lakers"; "Gabi"; "pivot"; "12"; "4.5"; "1";
     "4"; "a/b"; " 2"; "0"; "1"]
    (λ _, 0%N) 0 [].

End Casos.

(** * Properties *)

(** ** The filesystem *)

Lemma node_ind' (P : node → Prop) :
  (∀ rows, P (File rows)) →
  (∀ es, Forall (λ e, P e.2) es → P (Dir es)) →
  ∀ n, P n.
Proof.
  intros HF HD. fix IH 1. intros [rows|es]; [apply HF|].
  apply HD. induction es as [|[name m] es IHes]; constructor; [apply IH|apply IHes].
Qed.

Lemma wf_nodeb_correct n : wf_nodeb n = true → wf_node n.
Proof.
  induction n as [rows|es IH] using node_ind'; [constructor|].
  simpl. intros [Hnd Hall]%andb_prop. constructor.
  - by apply bool_decide_eq_true in Hnd.
  - clear Hnd. induction es as [|[name m] es IHes]; [constructor|].
    apply andb_prop in Hall as [Hm Hes]. inversion_clear IH as [|? ? IHm IHrest].
    constructor; [by apply IHm|by apply IHes].
Qed.

Lemma entry_Some name es x : entry name es = Some x → (name, x) ∈ es.
Proof.
  induction es as [|[n y] es IH]; simpl; [done|].
  case_decide; [intros [= ->]; subst; left|intros; right; auto].
Qed.

Lemma entry_NoDup name es x : NoDup es.*1 → (name, x) ∈ es → entry name es = Some x.
Proof.
  induction es as [|[n y] es IH]; simpl; [by intros _ ?%elem_of_nil|].
  intros [Hn Hnd]%NoDup_cons [[= -> ->]|Hin]%elem_of_cons.
  - by rewrite decide_True.
  - case_decide as Heq; [|by apply IH]. subst n. destruct Hn.
    apply list_elem_of_fmap. by exists (name, x).
Qed.

Lemma entry_set_entry name x es n :
  entry n (set_entry name x es) = if decide (n = name) then Some x else entry n es.
Proof.
  induction es as [|[n' y] es IH]; simpl.
  - repeat case_decide; congruence.
  - repeat (case_decide; simpl; subst); try congruence;
      rewrite IH; case_decide; congruence.
Qed.

Lemma set_entry_names_in name x es :
  name ∈ es.*1 → (set_entry name x es).*1 = es.*1.
Proof.
  induction es as [|[n y] es IH]; simpl; [by intros ?%elem_of_nil|].
  intros Hin. destruct (decide (n = name)) as [->|Hne]; simpl; [done|].
  f_equal. apply IH. apply elem_of_cons in Hin as [->|]; done.
Qed.

Lemma set_entry_names_notin name x es :
  name ∉ es.*1 → (set_entry name x es).*1 = es.*1 ++ [name].
Proof.
  induction es as [|[n y] es IH]; simpl; [done|].
  intros [Hne Hin]%not_elem_of_cons.
  destruct (decide (n = name)) as [->|_]; simpl; [done|]. f_equal. by apply IH.
Qed.

Lemma set_entry_NoDup name x es : NoDup es.*1 → NoDup (set_entry name x es).*1.
Proof.
  intros Hnd. destruct (decide (name ∈ es.*1)) as [Hin|Hin].
  - by rewrite set_entry_names_in.
  - rewrite set_entry_names_notin by done.
    apply NoDup_app. split_and!; [done| |apply NoDup_singleton].
    intros y Hy ->%list_elem_of_singleton. done.
Qed.

Lemma set_entry_Forall (P : string * node → Prop) name x es :
  (∀ n, P (n, x)) → Forall P es → Forall P (set_entry name x es).
Proof.
  intros Hx. induction 1 as [|[n y] es Hy Hes IH]; simpl.
  - by constructor.
  - case_decide; constructor; auto.
Qed.

Lemma fs_lookup_app fs a b :
  fs_lookup fs (a ++ b) = fs_lookup fs a ≫= λ n, fs_lookup n b.
Proof.
  revert fs. induction a as [|name a IH]; intros fs; simpl; [done|].
  destruct fs as [rows|es]; [done|].
  destruct (entry name es) as [x|]; simpl; [apply IH|done].
Qed.

Lemma fs_file_Some fs p rows :
  fs_file fs p = Some rows ↔ fs_lookup fs p = Some (File rows).
Proof.
  unfold fs_file. destruct (fs_lookup fs p) as [[r|es]|]; naive_solver.
Qed.

Lemma fs_read_Ok fs p rows : fs_read fs p = Ok rows ↔ fs_file fs p = Some rows.
Proof.
  rewrite fs_file_Some. revert fs. induction p as [|name p IH]; intros fs; simpl.
  - destruct fs; split; intros ?; by simplify_eq.
  - destruct fs as [r|es]; [done|].
    destruct (entry name es) as [x|]; simpl; [apply IH|done].
Qed.

Lemma wf_node_lookup fs p n : wf_node fs → fs_lookup fs p = Some n → wf_node n.
Proof.
  revert fs. induction p as [|name p IH]; intros fs Hwf; simpl.
  - by intros [= <-].
  - destruct fs as [r|es]; [done|].
    destruct (entry name es) as [x|] eqn:Hx; simpl; [|done].
    apply IH. inversion_clear Hwf as [|? _ Hall].
    rewrite Forall_forall in Hall. by apply (Hall (name, x)), entry_Some.
Qed.

Lemma fs_file_cons fs name q :
  fs_file fs (name :: q) =
    match fs with
    | Dir es => entry name es ≫= λ x, fs_file x q
    | File _ => None
    end.
Proof.
  unfold fs_file. simpl. destruct fs as [r|es]; [done|].
  by destruct (entry name es).
Qed.

Lemma fs_file_File rows q :
  fs_file (File rows) q = if decide (q = []) then Some rows else None.
Proof. by destruct q. Qed.

Lemma fs_file_app fs a b n :
  fs_lookup fs a = Some n → fs_file fs (a ++ b) = fs_file n b.
Proof. intros Ha. unfold fs_file. by rewrite fs_lookup_app, Ha. Qed.

Lemma fs_file_app_None fs a b :
  fs_lookup fs a = None → fs_file fs (a ++ b) = None.
Proof. intros Ha. unfold fs_file. by rewrite fs_lookup_app, Ha. Qed.

(** Writing a file changes that file and no other. *)
Lemma fs_write_file fs p rows fs' q :
  fs_write fs p rows = Ok fs' →
  fs_file fs' q = if decide (q = p) then Some rows else fs_file fs q.
Proof.
  revert fs fs' q. induction p as [|name p IH]; intros fs fs' q; simpl.
  - destruct fs as [r|es]; [|done]. intros [= <-].
    rewrite !fs_file_File. by destruct q.
  - destruct fs as [r|es]; [done|].
    destruct (entry name es) as [x|] eqn:Hx.
    + destruct (fs_write x p rows) as [x'|] eqn:Hw; [|done]. simpl. intros [= <-].
      destruct q as [|n q]; [done|]. rewrite !fs_file_cons, entry_set_entry.
      destruct (decide (n = name)) as [->|Hne]; simpl.
      * rewrite Hx. simpl. rewrite (IH _ _ q Hw).
        repeat case_decide; congruence.
      * rewrite decide_False by congruence. done.
    + destruct p as [|n' p]; [|done]. intros [= <-].
      destruct q as [|n q]; [done|]. rewrite !fs_file_cons, entry_set_entry.
      destruct (decide (n = name)) as [->|Hne]; simpl.
      * rewrite Hx. simpl. rewrite fs_file_File.
        repeat case_decide; congruence.
      * rewrite decide_False by congruence. done.
Qed.

(** Writing to an existing regular file succeeds. *)
Lemma fs_write_existing fs p old rows :
  fs_file fs p = Some old → ∃ fs', fs_write fs p rows = Ok fs'.
Proof.
  revert fs. induction p as [|name p IH]; intros fs.
  - destruct fs; [eauto|done].
  - rewrite fs_file_cons. destruct fs as [r|es]; [done|]. simpl.
    destruct (entry name es) as [x|]; [|done]. simpl. intros Hx.
    destruct (IH _ Hx) as [x' ->]. simpl. eauto.
Qed.

(** Writing a new file into an existing directory succeeds. *)
Lemma fs_write_new fs d name rows :
  fs_isdir fs d = true → fs_lookup fs (d ++ [name]) = None →
  ∃ fs', fs_write fs (d ++ [name]) rows = Ok fs'.
Proof.
  unfold fs_isdir. revert fs. induction d as [|n d IH]; intros fs; simpl.
  - destruct fs as [r|es]; [done|]. intros _.
    destruct (entry name es); simpl; [done|eauto].
  - destruct fs as [r|es]; [done|].
    destruct (entry n es) as [x|]; [|done]. simpl. intros Hd Hn.
    destruct (IH _ Hd Hn) as [x' ->]. simpl. eauto.
Qed.

Lemma fs_write_wf fs p rows fs' :
  wf_node fs → fs_write fs p rows = Ok fs' → wf_node fs'.
Proof.
  revert fs fs'. induction p as [|name p IH]; intros fs fs' Hwf; simpl.
  - destruct fs; [|done]. intros [= <-]. constructor.
  - destruct fs as [r|es]; [done|]. inversion_clear Hwf as [|? Hnd Hall].
    destruct (entry name es) as [x|] eqn:Hx.
    + destruct (fs_write x p rows) as [x'|] eqn:Hw; [|done]. simpl. intros [= <-].
      constructor; [by apply set_entry_NoDup|].
      apply set_entry_Forall; [|done]. intros ?; simpl. apply (IH x); [|done].
      rewrite Forall_forall in Hall. by apply (Hall (name, x)), entry_Some.
    + destruct p; [|done]. intros [= <-].
      constructor; [by apply set_entry_NoDup|].
      apply set_entry_Forall; [|done]. intros ?; constructor.
Qed.

(** [os.makedirs] touches no regular file. *)
Lemma fs_makedirs_file fs p fs' q :
  fs_makedirs fs p = Ok fs' → fs_file fs' q = fs_file fs q.
Proof.
  revert fs fs' q. induction p as [|name p IH]; intros fs fs' q; simpl.
  - destruct fs; [done|]. by intros [= <-].
  - destruct fs as [r|es]; [done|].
    destruct (fs_makedirs _ p) as [sub|] eqn:Hm; [|done]. simpl. intros [= <-].
    destruct q as [|n q]; [done|]. rewrite !fs_file_cons, entry_set_entry.
    destruct (decide (n = name)) as [->|Hne]; simpl; [|done].
    rewrite (IH _ _ q Hm). destruct (entry name es); simpl; [done|].
    by destruct q.
Qed.

Lemma fs_makedirs_isdir fs p fs' :
  fs_makedirs fs p = Ok fs' → fs_isdir fs' p = true.
Proof.
  unfold fs_isdir. revert fs fs'. induction p as [|name p IH]; intros fs fs'; simpl.
  - destruct fs; [done|]. by intros [= <-].
  - destruct fs as [r|es]; [done|].
    destruct (fs_makedirs _ p) as [sub|] eqn:Hm; [|done]. simpl. intros [= <-].
    rewrite entry_set_entry, decide_True by done. simpl. by apply (IH _ _ Hm).
Qed.

Lemma set_entry_same name x es : entry name es = Some x → set_entry name x es = es.
Proof.
  induction es as [|[n y] es IH]; simpl; [done|].
  case_decide; [by intros [= ->]|]. intros Hx. by rewrite IH.
Qed.

Lemma fs_makedirs_existing fs p : fs_isdir fs p = true → fs_makedirs fs p = Ok fs.
Proof.
  unfold fs_isdir. revert fs. induction p as [|name p IH]; intros fs; simpl.
  - by destruct fs.
  - destruct fs as [r|es]; [done|].
    destruct (entry name es) as [x|] eqn:Hx; [|done]. simpl. intros Hp.
    rewrite (IH _ Hp). simpl. by rewrite set_entry_same.
Qed.

Lemma fs_makedirs_wf fs p fs' :
  wf_node fs → fs_makedirs fs p = Ok fs' → wf_node fs'.
Proof.
  revert fs fs'. induction p as [|name p IH]; intros fs fs' Hwf; simpl.
  - destruct fs; [done|]. by intros [= <-].
  - destruct fs as [r|es]; [done|]. inversion_clear Hwf as [|? Hnd Hall].
    destruct (fs_makedirs _ p) as [sub|] eqn:Hm; [|done]. simpl. intros [= <-].
    constructor; [by apply set_entry_NoDup|].
    apply set_entry_Forall; [|done]. intros ?; simpl. eapply IH; [|done].
    destruct (entry name es) as [x|] eqn:Hx; simpl.
    + rewrite Forall_forall in Hall. by apply (Hall (name, x)), entry_Some.
    + constructor; constructor.
Qed.

(** ** Identifiers *)

Lemma string_length_app (s1 s2 : string) :
  String.length (s1 +:+ s2) = (String.length s1 + String.length s2)%nat.
Proof. induction s1 as [|c s1 IH]; simpl; [done|]. by rewrite IH. Qed.

Lemma substring_length (n m : nat) (s : string) :
  (n + m ≤ String.length s)%nat → String.length (substring n m s) = m.
Proof.
  revert n m. induction s as [|c s IH]; intros [|n] [|m]; simpl; try lia.
  - intros ?. rewrite (IH 0%nat m) by (simpl; lia). done.
  - intros ?. apply (IH n 0%nat). lia.
  - intros ?. apply (IH n (S m)). lia.
Qed.

Lemma hex_digits_length (w : nat) (x : N) : String.length (hex_digits w x) = w.
Proof.
  revert x. induction w as [|w IH]; intros x; simpl; [done|].
  rewrite string_length_app, IH. simpl. lia.
Qed.

Lemma uuid_str_length (u : N) : String.length (uuid_str u) = 36%nat.
Proof.
  unfold uuid_str. rewrite !string_length_app.
  rewrite !substring_length by (rewrite hex_digits_length; lia). done.
Qed.

Lemma uuid_str_not_empty (u : N) : uuid_str u ≠ "".
Proof. intros Heq. pose proof (uuid_str_length u) as Hlen. by rewrite Heq in Hlen. Qed.

(** ** Identifiers tell their random bytes apart *)

Lemma string_app_inj_last (s1 s2 : string) (a b : ascii) :
  s1 +:+ String a "" = s2 +:+ String b "" → s1 = s2 ∧ a = b.
Proof.
  revert s2. induction s1 as [|c s1 IH]; intros [|d s2]; simpl.
  - by intros [= ->].
  - intros [= -> Hs]. by destruct s2.
  - intros [= -> Hs]. by destruct s1.
  - intros [= -> Hs]. by destruct (IH _ Hs) as [-> ->].
Qed.

Lemma hex_char_inj (n m : N) :
  (n < 16)%N → (m < 16)%N → hex_char n = hex_char m → n = m.
Proof.
  intros Hn Hm. unfold hex_char.
  assert (Hi : (N.to_nat n < 16)%nat) by lia.
  assert (Hj : (N.to_nat m < 16)%nat) by lia.
  intros Heq. apply N2Nat.inj.
  revert Hi Hj Heq. generalize (N.to_nat n) (N.to_nat m). clear. intros i j Hi Hj.
  do 16 (destruct i as [|i];
         [do 16 (destruct j as [|j]; [first [reflexivity|by intros [=]]|]); lia|]).
  lia.
Qed.

(** The digits determine the number up to the width they show. *)
Lemma hex_digits_inj (w : nat) (x y : N) :
  hex_digits w x = hex_digits w y →
  (x mod 16 ^ N.of_nat w = y mod 16 ^ N.of_nat w)%N.
Proof.
  revert x y. induction w as [|w IH]; intros x y; simpl hex_digits.
  - intros _. by rewrite !N.mod_1_r.
  - intros [Hw Hc]%string_app_inj_last.
    apply IH in Hw. apply hex_char_inj in Hc; [|by apply N.mod_lt..].
    rewrite Nat2N.inj_succ, N.pow_succ_r', !N.Div0.mod_mul_r. by rewrite Hw, Hc.
Qed.

(** The 8-4-4-4-12 layout keeps every digit. *)
Lemma uuid_str_digits (u : N) :
  let s := uuid_str u in
  substring 0 8 s +:+ substring 9 4 s +:+ substring 14 4 s +:+ substring 19 4 s
    +:+ substring 24 12 s
  = hex_digits 32 u.
Proof.
  unfold uuid_str. pose proof (hex_digits_length 32 u) as Hlen. revert Hlen.
  generalize (hex_digits 32 u). intros h.
  do 32 (destruct h as [|? h]; [by intros [=]|]).
  destruct h; [reflexivity|by intros [=]].
Qed.

(** Bit by bit: [uuid4] keeps the low 128 bits of what it is given, except
    the two variant bits, forced to [10], and the four version bits, forced
    to [0100]. *)
Lemma uuid4_testbit (rnd i : N) :
  N.testbit (uuid4 rnd) i
  = if decide (i = 63 ∨ i = 78)%N then true
    else if decide (i = 62 ∨ i = 76 ∨ i = 77 ∨ i = 79)%N then false
    else (i <? 128)%N && N.testbit rnd i.
Proof.
  unfold uuid4. cbv zeta.
  assert (Hc1 : N.shiftl 0xc000 48 = N.lor (2 ^ 62) (2 ^ 63)) by (vm_compute; reflexivity).
  assert (Hc2 : N.shiftl 0x8000 48 = (2 ^ 63)%N) by (vm_compute; reflexivity).
  assert (Hc3 : N.shiftl 0xf000 64
                = N.lor (N.lor (2 ^ 76) (2 ^ 77)) (N.lor (2 ^ 78) (2 ^ 79)))
    by (vm_compute; reflexivity).
  assert (Hc4 : N.shiftl 4 76 = (2 ^ 78)%N) by (vm_compute; reflexivity).
  rewrite Hc1, Hc2, Hc3, Hc4.
  repeat rewrite ?N.lor_spec, ?N.ldiff_spec. rewrite !N.pow2_bits_eqb.
  assert (Hmod : N.testbit (rnd mod 2 ^ 128) i = (i <? 128)%N && N.testbit rnd i).
  { destruct (N.ltb_spec i 128).
    - by rewrite N.mod_pow2_bits_low.
    - by rewrite N.mod_pow2_bits_high. }
  rewrite Hmod.
  destruct (N.eqb_spec 62 i), (N.eqb_spec 63 i), (N.eqb_spec 76 i), (N.eqb_spec 77 i),
    (N.eqb_spec 78 i), (N.eqb_spec 79 i); subst; try lia;
    repeat case_decide; try lia; cbn [andb orb negb];
    by rewrite ?andb_true_r, ?andb_false_r, ?orb_false_r.
Qed.

Lemma uuid4_eq (r1 r2 : N) :
  uuid4 r1 = uuid4 r2 ↔ ∀ i, bit_libre i → N.testbit r1 i = N.testbit r2 i.
Proof.
  split.
  - intros Heq i [Hi Hlibre].
    pose proof (f_equal (λ u, N.testbit u i) Heq) as Hb. cbv beta in Hb.
    rewrite !uuid4_testbit in Hb.
    assert (Hk1 : ¬ (i = 63 ∨ i = 78)%N).
    { intros Hk. apply Hlibre. destruct Hk as [-> | ->]; repeat constructor. }
    assert (Hk2 : ¬ (i = 62 ∨ i = 76 ∨ i = 77 ∨ i = 79)%N).
    { intros Hk. apply Hlibre. destruct Hk as [-> | [-> | [-> | ->]]]; repeat constructor. }
    rewrite !decide_False in Hb by done.
    apply N.ltb_lt in Hi. by rewrite Hi in Hb.
  - intros Hbits. apply N.bits_inj. intros i. rewrite !uuid4_testbit.
    repeat case_decide; try done.
    destruct (N.ltb_spec i 128) as [Hi|Hi]; [|done]. cbn [andb].
    apply Hbits. split; [done|].
    intros Hk. repeat (apply elem_of_cons in Hk as [->|Hk]; [tauto|]).
    by apply elem_of_nil in Hk.
Qed.

Lemma uuid4_mod (rnd : N) : (uuid4 rnd mod 2 ^ 128 = uuid4 rnd)%N.
Proof.
  apply N.bits_inj. intros i. destruct (N.ltb_spec i 128) as [Hi|Hi].
  - by rewrite N.mod_pow2_bits_low.
  - rewrite N.mod_pow2_bits_high by done. rewrite uuid4_testbit.
    rewrite !decide_False by lia. apply N.ltb_ge in Hi. by rewrite Hi.
Qed.

Lemma uuid_str_uuid4_inj (r1 r2 : N) :
  uuid_str (uuid4 r1) = uuid_str (uuid4 r2) → uuid4 r1 = uuid4 r2.
Proof.
  intros Heq.
  pose proof (uuid_str_digits (uuid4 r1)) as H1.
  pose proof (uuid_str_digits (uuid4 r2)) as H2. cbv zeta in H1, H2.
  rewrite Heq, H2 in H1. apply hex_digits_inj in H1.
  change (16 ^ N.of_nat 32)%N with (2 ^ 128)%N in H1.
  by rewrite !uuid4_mod in H1.
Qed.

(** ** The files under a node *)

Lemma archivos_Dir ruta es :
  archivos ruta (Dir es) = es ≫= λ e, archivos (path_join ruta e.1) e.2.
Proof.
  simpl. induction es as [|[name m] es IH]; [done|]. simpl. by rewrite IH.
Qed.

(** [archivos] lists the regular files that path lookup finds, ... *)
Lemma archivos_spec ruta n p rows :
  wf_node n →
  (p, rows) ∈ archivos ruta n ↔ ∃ q, p = ruta ++ q ∧ fs_file n q = Some rows.
Proof.
  revert ruta. induction n as [r|es IH] using node_ind'; intros ruta Hwf.
  - simpl. rewrite list_elem_of_singleton. split.
    + intros [= -> ->]. exists []. by rewrite app_nil_r.
    + intros (q & -> & Hq). rewrite fs_file_File in Hq.
      case_decide; simplify_eq. by rewrite app_nil_r.
  - inversion_clear Hwf as [|? Hnd Hall].
    rewrite archivos_Dir, list_elem_of_bind. split.
    + intros ([name m] & Hin & Hm). simpl in *.
      rewrite Forall_forall in IH, Hall.
      apply (IH _ Hm) in Hin as (q & -> & Hq); [|by apply (Hall _ Hm)].
      exists (name :: q). unfold path_join. rewrite <-app_assoc. split; [done|].
      rewrite fs_file_cons, (entry_NoDup _ _ _ Hnd Hm). done.
    + intros (q & -> & Hq). destruct q as [|name q]; [done|].
      rewrite fs_file_cons in Hq.
      destruct (entry name es) as [m|] eqn:Hm; [|done]. simpl in Hq.
      apply entry_Some in Hm. exists (name, m). split; [|done]. simpl.
      rewrite Forall_forall in IH, Hall.
      apply (IH _ Hm); [by apply (Hall _ Hm)|].
      exists q. unfold path_join. by rewrite <-app_assoc.
Qed.

Lemma archivos_prefix ruta n p rows :
  (p, rows) ∈ archivos ruta n → ∃ q, p = ruta ++ q.
Proof.
  revert ruta. induction n as [r|es IH] using node_ind'; intros ruta.
  - simpl. intros [= -> ->]%list_elem_of_singleton. exists []. by rewrite app_nil_r.
  - rewrite archivos_Dir, list_elem_of_bind. intros ([name m] & Hin & Hm).
    rewrite Forall_forall in IH. apply (IH _ Hm) in Hin as [q ->].
    exists (name :: q). unfold path_join. by rewrite <-app_assoc.
Qed.

(** ... each of them once. *)
Lemma archivos_NoDup ruta n : wf_node n → NoDup (archivos ruta n).*1.
Proof.
  revert ruta. induction n as [r|es IH] using node_ind'; intros ruta Hwf.
  - simpl. apply NoDup_singleton.
  - inversion_clear Hwf as [|? Hnd Hall]. rewrite archivos_Dir.
    induction es as [|[name m] es IHes]; [constructor|].
    simpl in *. apply NoDup_cons in Hnd as [Hname Hnd].
    inversion_clear IH as [|? ? IHm IHrest]. inversion_clear Hall as [|? ? Hm Hrest].
    rewrite fmap_app. apply NoDup_app. split_and!.
    + by apply IHm.
    + intros p [[p' r1] [-> Hin1]]%list_elem_of_fmap [[p'' r2] [Heq Hin2]]%list_elem_of_fmap.
      simpl in *. subst p''.
      apply archivos_prefix in Hin1 as [q1 ->].
      apply list_elem_of_bind in Hin2 as ([name2 m2] & Hin2 & Hm2). simpl in *.
      apply archivos_prefix in Hin2 as [q2 Heq]. unfold path_join in Heq.
      rewrite <-!app_assoc in Heq. apply app_inv_head in Heq. simpl in Heq.
      injection Heq as -> _. destruct Hname.
      apply list_elem_of_fmap. by exists (name2, m2).
    + by apply IHes.
Qed.

(** ** The [csv] module *)

Section Properties.
Context `{PyBuiltins}.
Variable cwd : path.

Local Abbreviation key := (option string).
Local Abbreviation dict := (gmap key value).
Local Abbreviation BASE := (BASE_DIR cwd).
Local Abbreviation fila_de := (dict_reader_row CSV_HEADERS).

Lemma visitar_archivos ruta n : visitar ruta n = archivos ruta n ≫= registros.
Proof.
  revert ruta. induction n as [r|es IH] using node_ind'; intros ruta.
  - simpl. unfold registros. simpl. case_decide; by rewrite ?app_nil_r.
  - rewrite archivos_Dir. simpl.
    induction es as [|[name m] es IHes]; [done|].
    inversion_clear IH as [|? ? IHm IHrest]. simpl in *.
    rewrite bind_app, IHm, IHes by done. done.
Qed.

Lemma archivos_bajo_spec fs base p rows :
  wf_node fs →
  (p, rows) ∈ archivos_bajo fs base ↔ ∃ q, p = base ++ q ∧ fs_file fs p = Some rows.
Proof.
  intros Hwf. unfold archivos_bajo.
  destruct (fs_lookup fs base) as [n|] eqn:Hn; simpl.
  - rewrite archivos_spec by eauto using wf_node_lookup.
    split; intros (q & -> & Hq); exists q; (split; [done|]);
      by rewrite (fs_file_app _ _ _ _ Hn) in *.
  - split; [by intros ?%elem_of_nil|]. intros (q & -> & Hq).
    by rewrite fs_file_app_None in Hq.
Qed.

Lemma archivos_bajo_NoDup fs base : wf_node fs → NoDup (archivos_bajo fs base).*1.
Proof.
  intros Hwf. unfold archivos_bajo.
  destruct (fs_lookup fs base) as [n|] eqn:Hn; simpl; [|constructor].
  eauto using archivos_NoDup, wf_node_lookup.
Qed.

Lemma leer_todos_archivos fs base :
  fs_file fs base = None →
  leer_todos_los_jugadores cwd (Some base) fs = Ok (archivos_bajo fs base ≫= registros).
Proof.
  unfold leer_todos_los_jugadores, archivos_bajo, fs_file.
  change (default (BASE_DIR cwd) (Some base)) with base.
  destruct (fs_lookup fs base) as [[r|es]|]; [done| |done].
  intros _. cbn [from_option]. by rewrite visitar_archivos.
Qed.

(** Rows of six cells, as dictionaries. *)
Lemma seis (r : list string) :
  length r = 6%nat → ∃ a b c d e f, r = [a; b; c; d; e; f].
Proof.
  destruct r as [|a [|b [|c [|d [|e [|f [|g r]]]]]]]; try done. eauto 10.
Qed.

Lemma fila_de_id r : length r = 6%nat → getitem (fila_de r) "id" = Ok (VStr (id_de r)).
Proof. intros (a&b&c&d&e&f&->)%seis. reflexivity. Qed.

Lemma dict_to_list_fila_de r : length r = 6%nat → dict_to_list (fila_de r) = Ok r.
Proof. intros (a&b&c&d&e&f&->)%seis. reflexivity. Qed.

Lemma dict_to_list_length d r : dict_to_list d = Ok r → length r = 6%nat.
Proof. unfold dict_to_list. case_bool_decide; [|done]. by intros [= <-]. Qed.

Lemma dict_reader_record data :
  Forall (λ r, length r = 6%nat) data →
  dict_reader (CSV_HEADERS :: data) = fila_de <$> data.
Proof.
  intros Hdata. simpl. f_equal. induction Hdata as [|r data Hr _ IH]; [done|].
  rewrite filter_cons_True; [by rewrite IH|]. by destruct r.
Qed.

Lemma writerows_cons d filas :
  writerows (d :: filas) =
    match dict_to_list d with
    | Raise e => ([], Raise e)
    | Ok r => let '(rs, res) := writerows filas in (r :: rs, res)
    end.
Proof. done. Qed.

Lemma writerows_filas data :
  Forall (λ r, length r = 6%nat) data → writerows (fila_de <$> data) = (data, Ok ()).
Proof.
  induction 1 as [|r data Hr _ IH]; [done|].
  rewrite fmap_cons, writerows_cons, dict_to_list_fila_de by done. by rewrite IH.
Qed.

Lemma writerows_app l1 l2 :
  writerows (l1 ++ l2) =
    match writerows l1 with
    | (r1, Ok _) => let '(r2, res) := writerows l2 in (r1 ++ r2, res)
    | (r1, Raise e) => (r1, Raise e)
    end.
Proof.
  induction l1 as [|d l1 IH].
  - simpl. by destruct (writerows l2).
  - rewrite <-app_comm_cons, !writerows_cons.
    destruct (dict_to_list d); [|done]. rewrite IH.
    destruct (writerows l1) as [r1 [[]|e]]; [|done]. by destruct (writerows l2).
Qed.

Lemma writerows_Ok filas rows :
  writerows filas = (rows, Ok ()) →
  length rows = length filas ∧ Forall (λ r, length r = 6%nat) rows.
Proof.
  revert rows. induction filas as [|d filas IH]; intros rows.
  - by intros [= <-].
  - rewrite writerows_cons. destruct (dict_to_list d) as [r|] eqn:Hd; [|done].
    destruct (writerows filas) as [rs res]. intros [= <- ->].
    destruct (IH _ eq_refl) as [Hlen ?]. split; [by rewrite !length_cons, Hlen|].
    constructor; eauto using dict_to_list_length.
Qed.

(** ** Reading and writing one file *)

Lemma leer_csv_file fs p rows :
  fs_file fs p = Some rows → leer_csv fs p = Ok (dict_reader rows).
Proof. intros Hp%fs_read_Ok. unfold leer_csv. by rewrite Hp. Qed.

Lemma escribir_csv_existing fs p old filas rows res :
  fs_file fs p = Some old → writerows filas = (rows, res) →
  ∃ fs', escribir_csv p filas fs = (fs', res)
         ∧ fs_write fs p (CSV_HEADERS :: rows) = Ok fs'.
Proof.
  intros Hp Hw. unfold escribir_csv. rewrite Hw.
  destruct (fs_write_existing _ _ _ (CSV_HEADERS :: rows) Hp) as [fs' ->]. eauto.
Qed.

(** ** The loops over the flattened records *)

Lemma Forall_filtered {A} (P Q : A → Prop) `{!∀ x, Decision (Q x)} (l : list A) :
  Forall P l → Forall P (filter Q l).
Proof.
  rewrite !Forall_forall. intros Hl x [_ Hx]%list_elem_of_filter. auto.
Qed.

Lemma primero {A} (P : A → bool) (l : list A) :
  (∃ x, x ∈ l ∧ P x = true) →
  ∃ l1 x l2, l = l1 ++ x :: l2 ∧ Forall (λ y, P y = false) l1 ∧ P x = true.
Proof.
  induction l as [|y l IH]; intros (x & Hin & Hx); [by apply elem_of_nil in Hin|].
  destruct (P y) eqn:Hy.
  - exists [], y, l. by repeat split.
  - destruct IH as (l1 & z & l2 & -> & Hl1 & Hz).
    { exists x. split; [|done]. apply elem_of_cons in Hin as [->|]; [congruence|done]. }
    exists (y :: l1), z, l2. repeat split; [|done]. by constructor.
Qed.

Lemma coincide_getitem jugador_id j :
  is_Some (j !! Some "id") →
  ∃ v, getitem j "id" = Ok v ∧ value_eq_str v jugador_id = coincide jugador_id j.
Proof. intros [v Hv]. exists v. unfold getitem, coincide. by rewrite Hv. Qed.

Lemma coincide_origen (jugador_id : string) (p : path) (f : dict) :
  coincide jugador_id (<[Some "_origen" := VPath p]> f) = coincide jugador_id f.
Proof. unfold coincide. by rewrite lookup_insert_ne. Qed.

Lemma coincide_fila_de jugador_id r :
  length r = 6%nat → coincide jugador_id (fila_de r) = bool_decide (id_de r = jugador_id).
Proof. intros (a&b&c&d&e&f&->)%seis. reflexivity. Qed.

Lemma fila_de_con_id r : length r = 6%nat → is_Some (fila_de r !! Some "id").
Proof. intros (a&b&c&d&e&f&->)%seis. by eexists. Qed.

Lemma origen_etiquetado (p : path) (f : dict) :
  origen (<[Some "_origen" := VPath p]> f) = Ok p.
Proof. unfold origen, getitem. by rewrite lookup_insert_eq. Qed.

Lemma eliminar_bucle_cons jugador_id j todos fs :
  eliminar_bucle jugador_id (j :: todos) fs =
    match getitem j "id" with
    | Raise e => (fs, Raise e)
    | Ok v =>
        if value_eq_str v jugador_id then
          match origen j with
          | Raise e => (fs, Raise e)
          | Ok ruta =>
              match leer_csv fs ruta with
              | Raise e => (fs, Raise e)
              | Ok jugadores =>
                  match filtrar_distintos jugador_id jugadores with
                  | Raise e => (fs, Raise e)
                  | Ok nuevos =>
                      match escribir_csv ruta nuevos fs with
                      | (fs', Ok _) => (fs', Ok true)
                      | (fs', Raise e) => (fs', Raise e)
                      end
                  end
              end
          end
        else eliminar_bucle jugador_id todos fs
    end.
Proof.
  cbn [eliminar_bucle]. unfold mbind, io_bind, pure, reading.
  destruct (getitem j "id") as [v|]; [|done].
  destruct (value_eq_str v jugador_id); [|done].
  destruct (origen j) as [ruta|]; [|done].
  destruct (leer_csv fs ruta) as [jugadores|]; [|done].
  by destruct (filtrar_distintos jugador_id jugadores).
Qed.

Lemma eliminar_bucle_app jugador_id l1 l2 fs :
  Forall (λ j : dict, is_Some (j !! Some "id") ∧ coincide jugador_id j = false) l1 →
  eliminar_bucle jugador_id (l1 ++ l2) fs = eliminar_bucle jugador_id l2 fs.
Proof.
  induction 1 as [|j l1 [Hid Hj] _ IH]; [done|].
  rewrite <-app_comm_cons, eliminar_bucle_cons.
  destruct (coincide_getitem jugador_id j Hid) as (v & -> & ->). by rewrite Hj.
Qed.

Lemma filtrar_distintos_filas jugador_id data :
  Forall (λ r, length r = 6%nat) data →
  filtrar_distintos jugador_id (fila_de <$> data)
  = Ok (fila_de <$> filter (λ r, id_de r ≠ jugador_id) data).
Proof.
  induction 1 as [|r data Hr _ IH]; [done|].
  rewrite fmap_cons. cbn [filtrar_distintos]. rewrite fila_de_id, IH by done. simpl.
  destruct (decide (id_de r = jugador_id)) as [Heq|Hne].
  - rewrite bool_decide_eq_true_2, filter_cons_False by (by try intros []). done.
  - rewrite bool_decide_eq_false_2, filter_cons_True by done. done.
Qed.

Lemma actualizar_bucle_cons jugador_id cambios j todos fs :
  actualizar_bucle jugador_id cambios (j :: todos) fs =
    match getitem j "id" with
    | Raise e => (fs, Raise e)
    | Ok v =>
        if value_eq_str v jugador_id then
          match origen j with
          | Raise e => (fs, Raise e)
          | Ok ruta =>
              match leer_csv fs ruta with
              | Raise e => (fs, Raise e)
              | Ok jugadores =>
                  match actualizar_en_archivo ruta jugador_id cambios [] jugadores fs with
                  | (fs', Ok (Some fila)) => (fs', Ok fila)
                  | (fs', Ok None) => actualizar_bucle jugador_id cambios todos fs'
                  | (fs', Raise e) => (fs', Raise e)
                  end
              end
          end
        else actualizar_bucle jugador_id cambios todos fs
    end.
Proof.
  cbn [actualizar_bucle]. unfold mbind, io_bind, pure, reading.
  destruct (getitem j "id") as [v|]; [|done].
  destruct (value_eq_str v jugador_id); [|done].
  destruct (origen j) as [ruta|]; [|done].
  destruct (leer_csv fs ruta) as [jugadores|]; [|done].
  by destruct (actualizar_en_archivo _ _ _ _ _ _) as [fs' [[fila|]|]].
Qed.

Lemma actualizar_bucle_app jugador_id cambios l1 l2 fs :
  Forall (λ j : dict, is_Some (j !! Some "id") ∧ coincide jugador_id j = false) l1 →
  actualizar_bucle jugador_id cambios (l1 ++ l2) fs
  = actualizar_bucle jugador_id cambios l2 fs.
Proof.
  induction 1 as [|j l1 [Hid Hj] _ IH]; [done|].
  rewrite <-app_comm_cons, actualizar_bucle_cons.
  destruct (coincide_getitem jugador_id j Hid) as (v & -> & ->). by rewrite Hj.
Qed.

Lemma actualizar_en_archivo_cons ruta jugador_id cambios previas fila resto fs :
  actualizar_en_archivo ruta jugador_id cambios previas (fila :: resto) fs =
    match getitem fila "id" with
    | Raise e => (fs, Raise e)
    | Ok v =>
        if value_eq_str v jugador_id then
          match actualizar_fila cambios fila with
          | Raise e => (fs, Raise e)
          | Ok fila' =>
              match escribir_csv ruta (previas ++ fila' :: resto) fs with
              | (fs', Ok _) => (fs', Ok (Some fila'))
              | (fs', Raise e) => (fs', Raise e)
              end
          end
        else actualizar_en_archivo ruta jugador_id cambios (previas ++ [fila]) resto fs
    end.
Proof.
  cbn [actualizar_en_archivo]. unfold mbind, io_bind, pure.
  destruct (getitem fila "id") as [v|]; [|done].
  destruct (value_eq_str v jugador_id); [|done].
  by destruct (actualizar_fila cambios fila).
Qed.

Lemma actualizar_en_archivo_app ruta jugador_id cambios previas l1 resto fs :
  Forall (λ j : dict, is_Some (j !! Some "id") ∧ coincide jugador_id j = false) l1 →
  actualizar_en_archivo ruta jugador_id cambios previas (l1 ++ resto) fs
  = actualizar_en_archivo ruta jugador_id cambios (previas ++ l1) resto fs.
Proof.
  intros Hl1. revert previas.
  induction Hl1 as [|j l1 [Hid Hj] _ IH]; intros previas; [by rewrite app_nil_r|].
  rewrite <-app_comm_cons, actualizar_en_archivo_cons.
  destruct (coincide_getitem jugador_id j Hid) as (v & -> & ->). rewrite Hj.
  by rewrite IH, <-app_assoc.
Qed.

(** ** The records of a well-formed hierarchy *)

Lemma store_ok_archivos fs a :
  store_ok cwd fs → a ∈ archivos_bajo fs BASE →
  ∃ q, a.1 = BASE ++ q ∧ fs_file fs a.1 = Some a.2
       ∧ (basename a.1 = CSV_FILENAME → record_file a.2).
Proof.
  intros [Hwf _ Hfiles] Hin. destruct a as [p rows].
  apply archivos_bajo_spec in Hin as (q & -> & Hq); [|done].
  exists q. split_and!; [done..|]. intros Hb. by apply (Hfiles q).
Qed.

Lemma store_ok_bloque fs a :
  store_ok cwd fs → a ∈ archivos_bajo fs BASE →
  basename a.1 = CSV_FILENAME → record_file a.2.
Proof. intros Hok Hin. by destruct (store_ok_archivos _ _ Hok Hin) as (q & _ & _ & ?). Qed.

Lemma registros_record (p : path) data :
  basename p = CSV_FILENAME → Forall (λ r, length r = 6%nat) data →
  registros (p, CSV_HEADERS :: data)
  = (λ r, <[Some "_origen" := VPath p]> (fila_de r)) <$> data.
Proof.
  intros Hb Hdata. unfold registros. cbn [fst snd].
  rewrite decide_True, dict_reader_record by done. by rewrite <-list_fmap_compose.
Qed.

Lemma tiene_id_false jugador_id (p : path) data :
  basename p = CSV_FILENAME →
  tiene_id jugador_id (p, CSV_HEADERS :: data) = false →
  Forall (λ r, id_de r ≠ jugador_id) data.
Proof.
  unfold tiene_id. cbn [fst snd tail]. intros Hb.
  rewrite bool_decide_eq_true_2 by done. cbn [andb].
  induction data as [|r data IH]; [by constructor|]. cbn [existsb].
  intros [Hr Hdata]%orb_false_elim. constructor; [|by apply IH].
  by apply bool_decide_eq_false in Hr.
Qed.

Lemma tiene_id_true jugador_id (a : path * list (list string)) :
  tiene_id jugador_id a = true →
  basename a.1 = CSV_FILENAME ∧ ∃ r, r ∈ tail a.2 ∧ id_de r = jugador_id.
Proof.
  unfold tiene_id. intros [Hb Hex]%andb_prop. split; [by apply bool_decide_eq_true in Hb|].
  apply existsb_exists in Hex as (r & Hin & Hr).
  exists r. split; [by apply list_elem_of_In|by apply bool_decide_eq_true in Hr].
Qed.

Lemma filas_sin_id jugador_id (p : path) data :
  Forall (λ r, length r = 6%nat) data → Forall (λ r, id_de r ≠ jugador_id) data →
  Forall (λ j : dict, is_Some (j !! Some "id") ∧ coincide jugador_id j = false)
    ((λ r, <[Some "_origen" := VPath p]> (fila_de r)) <$> data).
Proof.
  intros Hlen Hid. apply Forall_fmap, Forall_forall. intros r Hr.
  rewrite Forall_forall in Hlen, Hid. simpl. split.
  - rewrite lookup_insert_ne by done. by apply fila_de_con_id, Hlen.
  - rewrite coincide_origen, coincide_fila_de by by apply Hlen.
    apply bool_decide_eq_false. by apply Hid.
Qed.

Lemma filas_en_archivo_sin_id jugador_id data :
  Forall (λ r, length r = 6%nat) data → Forall (λ r, id_de r ≠ jugador_id) data →
  Forall (λ j : dict, is_Some (j !! Some "id") ∧ coincide jugador_id j = false)
    (fila_de <$> data).
Proof.
  intros Hlen Hid. apply Forall_fmap, Forall_forall. intros r Hr.
  rewrite Forall_forall in Hlen, Hid. simpl. split.
  - by apply fila_de_con_id, Hlen.
  - rewrite coincide_fila_de by by apply Hlen.
    apply bool_decide_eq_false. by apply Hid.
Qed.

Lemma registros_sin_id jugador_id (a : path * list (list string)) :
  (basename a.1 = CSV_FILENAME → record_file a.2) →
  tiene_id jugador_id a = false →
  Forall (λ j : dict, is_Some (j !! Some "id") ∧ coincide jugador_id j = false)
    (registros a).
Proof.
  destruct a as [p rows]. cbn [fst snd]. intros Hrec Hno.
  destruct (decide (basename p = CSV_FILENAME)) as [Hb|Hb].
  - destruct (Hrec Hb) as (data & -> & Hlen). rewrite registros_record by done.
    apply filas_sin_id; [done|]. by apply (tiene_id_false _ p).
  - unfold registros. cbn [fst]. by rewrite decide_False.
Qed.

Lemma todos_sin_id jugador_id (A : list (path * list (list string))) :
  Forall (λ a, basename a.1 = CSV_FILENAME → record_file a.2) A →
  Forall (λ a, tiene_id jugador_id a = false) A →
  Forall (λ j : dict, is_Some (j !! Some "id") ∧ coincide jugador_id j = false)
    (A ≫= registros).
Proof.
  induction 1 as [|a A Ha _ IH]; intros Hno; [constructor|].
  inversion_clear Hno. rewrite bind_cons. apply Forall_app.
  split; [by apply registros_sin_id|by apply IH].
Qed.

Lemma presente_tiene_id fs jugador_id :
  store_ok cwd fs →
  presente cwd fs jugador_id ↔
  ∃ a, a ∈ archivos_bajo fs BASE ∧ tiene_id jugador_id a = true.
Proof.
  intros Hok. split.
  - intros (q & data & r & Hq & Hb & Hr & Hid).
    exists (BASE ++ q, CSV_HEADERS :: data). split.
    + apply archivos_bajo_spec; [by destruct Hok|]. eauto.
    + unfold tiene_id. cbn [fst snd tail]. rewrite bool_decide_eq_true_2 by done.
      apply existsb_exists. exists r.
      split; [by apply list_elem_of_In|by apply bool_decide_eq_true].
  - intros ([p rows] & Hin & Ha).
    destruct (store_ok_archivos _ _ Hok Hin) as (q & Hp & Hfile & Hrec).
    apply tiene_id_true in Ha as (Hb & r & Hr & Hid). cbn [fst snd] in *. subst p.
    destruct (Hrec Hb) as (data & -> & _). exists q, data, r. eauto.
Qed.

Lemma leer_todos_None fs :
  leer_todos_los_jugadores cwd None fs = leer_todos_los_jugadores cwd (Some BASE) fs.
Proof. done. Qed.

Lemma store_ok_leer_todos fs :
  store_ok cwd fs →
  leer_todos_los_jugadores cwd None fs = Ok (archivos_bajo fs BASE ≫= registros).
Proof. intros [_ Hroot _]. by apply (leer_todos_archivos fs BASE). Qed.

(** The first record of the traversal that carries the identifier, the file
    it comes from, and its place in that file. *)
Lemma localizar fs jugador_id :
  store_ok cwd fs → presente cwd fs jugador_id →
  ∃ q d1 r d2 l1 l2,
    basename (BASE ++ q) = CSV_FILENAME
    ∧ fs_file fs (BASE ++ q) = Some (CSV_HEADERS :: d1 ++ r :: d2)
    ∧ Forall (λ r, length r = 6%nat) (d1 ++ r :: d2)
    ∧ Forall (λ r', id_de r' ≠ jugador_id) d1
    ∧ id_de r = jugador_id
    ∧ leer_todos_los_jugadores cwd None fs
      = Ok (l1 ++ etiquetado (BASE ++ q) (fila_de r) :: l2)
    ∧ Forall (λ j : dict, is_Some (j !! Some "id") ∧ coincide jugador_id j = false) l1.
Proof.
  intros Hok Hpres. rewrite presente_tiene_id in Hpres by done.
  apply primero in Hpres as (A1 & [p rows] & A2 & HA & HA1 & Ha).
  assert (Hin : (p, rows) ∈ archivos_bajo fs BASE).
  { rewrite HA. apply elem_of_app. right. left. }
  destruct (store_ok_archivos _ _ Hok Hin) as (q & Hp & Hfile & Hrec).
  cbn [fst snd] in *. subst p.
  pose proof Ha as (Hb & _)%tiene_id_true. cbn [fst] in Hb.
  destruct (Hrec Hb) as (data & -> & Hlen).
  destruct (primero (λ r, bool_decide (id_de r = jugador_id)) data)
    as (d1 & r & d2 & -> & Hd1 & Hr).
  { apply tiene_id_true in Ha as (_ & r & Hr & Hid). exists r.
    split; [done|by apply bool_decide_eq_true]. }
  apply bool_decide_eq_true in Hr.
  assert (Hd1' : Forall (λ r', id_de r' ≠ jugador_id) d1).
  { eapply Forall_impl; [exact Hd1|]. intros r'. apply bool_decide_eq_false. }
  exists q, d1, r, d2.
  exists ((A1 ≫= registros) ++ (etiquetado (BASE ++ q) ∘ fila_de <$> d1)).
  exists ((etiquetado (BASE ++ q) ∘ fila_de <$> d2) ++ (A2 ≫= registros)).
  split_and!; try done.
  - rewrite store_ok_leer_todos, HA, bind_app, bind_cons by done.
    rewrite registros_record, fmap_app, fmap_cons by done.
    by rewrite <-!app_assoc.
  - apply Forall_app. split.
    + apply todos_sin_id; [|done]. apply Forall_forall. intros a Ha1.
      apply (store_ok_bloque fs a Hok). rewrite HA. apply elem_of_app. by left.
    + apply (filas_sin_id jugador_id (BASE ++ q) d1); [|done].
      by apply Forall_app in Hlen as [? _].
Qed.

(** A hierarchy without the identifier: no record of the traversal matches. *)
Lemma ausente_todos fs jugador_id :
  store_ok cwd fs → ¬ presente cwd fs jugador_id →
  ∃ todos, leer_todos_los_jugadores cwd None fs = Ok todos
    ∧ Forall (λ j : dict, is_Some (j !! Some "id") ∧ coincide jugador_id j = false) todos.
Proof.
  intros Hok Habs. eexists. split; [by apply store_ok_leer_todos|].
  apply todos_sin_id.
  - apply Forall_forall. intros a Ha. by apply (store_ok_bloque fs a Hok).
  - apply Forall_forall. intros a Ha. apply not_true_is_false. intros Hid.
    apply Habs, presente_tiene_id; eauto.
Qed.

Lemma basename_BASE : basename BASE = "nba".
Proof. unfold BASE_DIR. change ["data"; "nba"] with (["data"] ++ ["nba"]).
  rewrite app_assoc. apply last_last. Qed.

Lemma store_ok_write fs q rows fs' :
  store_ok cwd fs → fs_write fs (BASE ++ q) rows = Ok fs' →
  basename (BASE ++ q) = CSV_FILENAME → record_file rows →
  store_ok cwd fs'.
Proof.
  intros [Hwf Hroot Hfiles] Hw Hb Hrec.
  assert (Hne : BASE ≠ BASE ++ q).
  { intros Heq. rewrite <-Heq, basename_BASE in Hb. done. }
  split.
  - by eapply fs_write_wf.
  - rewrite (fs_write_file _ _ _ _ _ Hw), decide_False by done. done.
  - intros q' rows'. rewrite (fs_write_file _ _ _ _ _ Hw).
    case_decide as Heq; [by intros [= <-]|]. apply Hfiles.
Qed.

(** ** [eliminar_jugador] *)

Lemma eliminar_ausente fs jugador_id :
  store_ok cwd fs → ¬ presente cwd fs jugador_id →
  eliminar_jugador cwd jugador_id fs = (fs, Ok false).
Proof.
  intros Hok Habs. destruct (ausente_todos _ _ Hok Habs) as (todos & Htodos & Hno).
  unfold eliminar_jugador, mbind, io_bind, reading. rewrite Htodos.
  rewrite <-(app_nil_r todos). by rewrite eliminar_bucle_app.
Qed.

Lemma eliminar_encontrado fs jugador_id :
  store_ok cwd fs → presente cwd fs jugador_id →
  ∃ q data l1 r l2 fs',
    basename (BASE ++ q) = CSV_FILENAME
    ∧ fs_file fs (BASE ++ q) = Some (CSV_HEADERS :: data)
    ∧ Forall (λ r, length r = 6%nat) data
    ∧ r ∈ data ∧ id_de r = jugador_id
    ∧ leer_todos_los_jugadores cwd None fs
      = Ok (l1 ++ etiquetado (BASE ++ q) (fila_de r) :: l2)
    ∧ Forall (λ j : dict, coincide jugador_id j = false) l1
    ∧ eliminar_jugador cwd jugador_id fs = (fs', Ok true)
    ∧ fs_write fs (BASE ++ q)
        (CSV_HEADERS :: filter (λ r, id_de r ≠ jugador_id) data) = Ok fs'.
Proof.
  intros Hok Hpres.
  destruct (localizar _ _ Hok Hpres)
    as (q & d1 & r & d2 & l1 & l2 & Hb & Hfile & Hlen & Hd1 & Hr & Htodos & Hl1).
  assert (Hlen' : Forall (λ r, length r = 6%nat)
                    (filter (λ r, id_de r ≠ jugador_id) (d1 ++ r :: d2))).
  { by apply Forall_filtered. }
  destruct (escribir_csv_existing fs (BASE ++ q) _ _ _ _ Hfile (writerows_filas _ Hlen'))
    as (fs' & Hesc & Hw).
  exists q, (d1 ++ r :: d2), l1, r, l2, fs'. split_and!; try done.
  - apply elem_of_app. right. left.
  - eapply Forall_impl; [exact Hl1|]. by intros j [_ ?].
  - unfold eliminar_jugador, mbind, io_bind, reading. rewrite Htodos.
    rewrite eliminar_bucle_app, eliminar_bucle_cons by done.
    assert (Hr6 : length r = 6%nat).
    { apply Forall_app in Hlen as [_ Hlen]. by inversion Hlen. }
    unfold etiquetado at 1. unfold getitem. rewrite lookup_insert_ne by done.
    pose proof (fila_de_id r Hr6) as Hid. unfold getitem in Hid.
    destruct (fila_de r !! Some "id") as [v|]; [|done]. injection Hid as ->.
    unfold value_eq_str. rewrite bool_decide_eq_true_2 by done.
    unfold etiquetado. rewrite origen_etiquetado, (leer_csv_file _ _ _ Hfile).
    rewrite dict_reader_record, filtrar_distintos_filas by done.
    by rewrite Hesc.
Qed.

(** ** [actualizar_jugador] *)

Lemma actualizar_fila_fila_de cambios r :
  length r = 6%nat →
  ∃ fila',
    actualizar_fila cambios (fila_de r) = Ok fila'
    ∧ dict_to_list fila' = Ok (celdas fila')
    ∧ (∀ k, k ∈ campos_editables →
         fila' !! Some k = Some (dict_get cambios k (default VNone (fila_de r !! Some k))))
    ∧ (∀ k : key, k ∉ Some <$> campos_editables → fila' !! k = fila_de r !! k).
Proof.
  intros (a&b&c&d&e&f&->)%seis. eexists. split; [reflexivity|].
  generalize (dict_get cambios "nombre" (VStr b)) as v1.
  generalize (dict_get cambios "posicion" (VStr c)) as v2.
  generalize (dict_get cambios "puntos" (VStr d)) as v3.
  generalize (dict_get cambios "rebotes" (VStr e)) as v4.
  generalize (dict_get cambios "asistencias" (VStr f)) as v5.
  intros v5 v4 v3 v2 v1. split_and!.
  - reflexivity.
  - intros k Hk. unfold campos_editables in Hk.
    repeat (apply elem_of_cons in Hk as [->|Hk]; [reflexivity|]).
    by apply elem_of_nil in Hk.
  - intros k Hk. unfold campos_editables in Hk. rewrite !fmap_cons in Hk.
    repeat (apply not_elem_of_cons in Hk as [? Hk]).
    by rewrite !lookup_insert_ne by done.
Qed.

Lemma actualizar_ausente fs jugador_id cambios :
  store_ok cwd fs → ¬ presente cwd fs jugador_id →
  actualizar_jugador cwd jugador_id cambios fs
  = (fs, Raise (KeyError "Jugador no encontrado.")).
Proof.
  intros Hok Habs. destruct (ausente_todos _ _ Hok Habs) as (todos & Htodos & Hno).
  unfold actualizar_jugador, mbind, io_bind, reading. rewrite Htodos.
  rewrite <-(app_nil_r todos). by rewrite actualizar_bucle_app.
Qed.

Lemma actualizar_encontrado fs jugador_id cambios :
  store_ok cwd fs → presente cwd fs jugador_id →
  ∃ q d1 r d2 l1 l2 fila' fs',
    basename (BASE ++ q) = CSV_FILENAME
    ∧ fs_file fs (BASE ++ q) = Some (CSV_HEADERS :: d1 ++ r :: d2)
    ∧ Forall (λ r, length r = 6%nat) (d1 ++ r :: d2)
    ∧ Forall (λ r', id_de r' ≠ jugador_id) d1
    ∧ id_de r = jugador_id
    ∧ leer_todos_los_jugadores cwd None fs
      = Ok (l1 ++ etiquetado (BASE ++ q) (fila_de r) :: l2)
    ∧ Forall (λ j : dict, coincide jugador_id j = false) l1
    ∧ actualizar_fila cambios (fila_de r) = Ok fila'
    ∧ actualizar_jugador cwd jugador_id cambios fs = (fs', Ok fila')
    ∧ fs_write fs (BASE ++ q) (CSV_HEADERS :: d1 ++ celdas fila' :: d2) = Ok fs'.
Proof.
  intros Hok Hpres.
  destruct (localizar _ _ Hok Hpres)
    as (q & d1 & r & d2 & l1 & l2 & Hb & Hfile & Hlen & Hd1 & Hr & Htodos & Hl1).
  pose proof Hlen as [Hlen1 Hlen2]%Forall_app.
  inversion Hlen2 as [|? ? Hr6 Hlen3]; subst.
  destruct (actualizar_fila_fila_de cambios r Hr6) as (fila' & Hfila & Hceldas & _).
  assert (Hrows : writerows ((fila_de <$> d1) ++ fila' :: (fila_de <$> d2))
                  = (d1 ++ celdas fila' :: d2, Ok ())).
  { rewrite writerows_app, writerows_filas, writerows_cons, Hceldas by done.
    by rewrite writerows_filas. }
  destruct (escribir_csv_existing fs (BASE ++ q) _ _ _ _ Hfile Hrows) as (fs' & Hesc & Hw).
  exists q, d1, r, d2, l1, l2, fila', fs'. split_and!; try done.
  - eapply Forall_impl; [exact Hl1|]. by intros j [_ ?].
  - unfold actualizar_jugador, mbind, io_bind, reading. rewrite Htodos.
    rewrite actualizar_bucle_app, actualizar_bucle_cons by done.
    unfold etiquetado at 1. unfold getitem at 1. rewrite lookup_insert_ne by done.
    pose proof (fila_de_id r Hr6) as Hid. unfold getitem in Hid.
    destruct (fila_de r !! Some "id") as [v|] eqn:Hv; [|done]. injection Hid as ->.
    unfold value_eq_str. rewrite bool_decide_eq_true_2 by done.
    unfold etiquetado. rewrite origen_etiquetado, (leer_csv_file _ _ _ Hfile).
    rewrite dict_reader_record, fmap_app, fmap_cons by done.
    rewrite actualizar_en_archivo_app by by apply filas_en_archivo_sin_id.
    rewrite actualizar_en_archivo_cons, fila_de_id by done.
    unfold value_eq_str. rewrite bool_decide_eq_true_2 by done.
    rewrite Hfila. cbn [app]. by rewrite Hesc.
Qed.

(** ** [alta_jugador] *)

Lemma alta_jugador_eq rnd conferencia equipo jugador fs :
  alta_jugador cwd rnd conferencia equipo jugador fs =
    if negb (validar_nombre (dict_get jugador "nombre" (VStr ""))) then
      (fs, Raise (ValueError "Nombre inválido."))
    else
      match validar_posicion (dict_get jugador "posicion" (VStr "")) with
      | Raise e => (fs, Raise e)
      | Ok false => (fs, Raise (ValueError "Posición inválida."))
      | Ok true =>
          match validar_estadisticas jugador ["puntos"; "rebotes"; "asistencias"] with
          | Raise e => (fs, Raise e)
          | Ok _ =>
              match asegurar_directorio cwd [conferencia; equipo] fs with
              | (fs1, Raise e) => (fs1, Raise e)
              | (fs1, Ok dir_path) =>
                  match inicializar_csv_si_necesario dir_path fs1 with
                  | (fs2, Raise e) => (fs2, Raise e)
                  | (fs2, Ok ruta_csv) =>
                      match nuevo_jugador rnd jugador with
                      | Raise e => (fs2, Raise e)
                      | Ok nuevo =>
                          match leer_csv fs2 ruta_csv with
                          | Raise e => (fs2, Raise e)
                          | Ok jugadores =>
                              match escribir_csv ruta_csv
                                      (jugadores ++ [(VStr ∘ value_str) <$> nuevo]) fs2 with
                              | (fs3, Raise e) => (fs3, Raise e)
                              | (fs3, Ok _) => (fs3, Ok nuevo)
                              end
                          end
                      end
                  end
              end
          end
      end.
Proof.
  unfold alta_jugador.
  destruct (validar_nombre _); [|done]. cbn [negb].
  unfold mbind, io_bind, pure, reading.
  destruct (validar_posicion _) as [[]|]; [|done..]. cbn [negb].
  destruct (validar_estadisticas _ _); [|done].
  destruct (asegurar_directorio _ _ _) as [fs1 [dir_path|]]; [|done].
  destruct (inicializar_csv_si_necesario _ _) as [fs2 [ruta_csv|]]; [|done].
  destruct (nuevo_jugador _ _) as [nuevo|]; [|done].
  destruct (leer_csv _ _) as [jugadores|]; [|done].
  by destruct (escribir_csv _ _ _) as [fs3 [[]|]].
Qed.

Lemma fs_makedirs_child fs d fs' name :
  fs_makedirs fs d = Ok fs' → fs_lookup fs' (d ++ [name]) = fs_lookup fs (d ++ [name]).
Proof.
  revert fs fs'. induction d as [|n d IH]; intros fs fs'; simpl.
  - destruct fs; [done|]. by intros [= <-].
  - destruct fs as [r|es]; [done|].
    destruct (fs_makedirs _ d) as [sub|] eqn:Hm; [|done]. simpl. intros [= <-].
    rewrite entry_set_entry, decide_True by done. simpl. rewrite (IH _ _ Hm).
    destruct (entry n es); simpl; [done|]. by destruct d.
Qed.

Lemma asegurar_directorio_Ok partes fs fs1 dir_path :
  asegurar_directorio cwd partes fs = (fs1, Ok dir_path) →
  dir_path = BASE ++ partes ∧ fs_makedirs fs dir_path = Ok fs1.
Proof.
  unfold asegurar_directorio. destruct (fs_makedirs _ _) eqn:Hm; [|done].
  by intros [= <- <-].
Qed.

Lemma inicializar_csv_Ok ruta_dir fs1 fs2 ruta_csv :
  inicializar_csv_si_necesario ruta_dir fs1 = (fs2, Ok ruta_csv) →
  ruta_csv = ruta_dir ++ [CSV_FILENAME]
  ∧ ((is_Some (fs_lookup fs1 ruta_csv) ∧ fs2 = fs1)
     ∨ (fs_lookup fs1 ruta_csv = None ∧ fs_write fs1 ruta_csv [CSV_HEADERS] = Ok fs2)).
Proof.
  unfold inicializar_csv_si_necesario, fs_exists, path_join.
  case_bool_decide as Hex; cbn [negb].
  - intros [= <- <-]. split; [done|]. by left.
  - destruct (fs_write _ _ _) eqn:Hw; [|done]. intros [= <- <-]. split; [done|].
    right. split; [|done]. by apply eq_None_not_Some.
Qed.

(** What a successful creation does to the files. *)
Lemma alta_jugador_Ok rnd conferencia equipo jugador fs fs' nuevo :
  alta_jugador cwd rnd conferencia equipo jugador fs = (fs', Ok nuevo) →
  ∃ rows,
    let ruta := BASE ++ [conferencia; equipo; CSV_FILENAME] in
    (∀ q, fs_file fs' q = if decide (q = ruta) then Some (CSV_HEADERS :: rows)
                          else fs_file fs q)
    ∧ Forall (λ r, length r = 6%nat) rows
    ∧ length rows = S (length (from_option dict_reader [] (fs_file fs ruta)))
    ∧ (wf_node fs → wf_node fs').
Proof.
  rewrite alta_jugador_eq.
  destruct (validar_nombre _); [|done]. cbn [negb].
  destruct (validar_posicion _) as [[]|]; [|done..].
  destruct (validar_estadisticas _ _); [|done].
  destruct (asegurar_directorio _ _ _) as [fs1 [dir_path|]] eqn:Hdir; [|done].
  apply asegurar_directorio_Ok in Hdir as [-> Hmk].
  destruct (inicializar_csv_si_necesario _ _) as [fs2 [ruta_csv|]] eqn:Hini; [|done].
  apply inicializar_csv_Ok in Hini as [-> Hini].
  rewrite <-app_assoc in *. cbn [app] in Hini |- *.
  set (ruta := BASE ++ [conferencia; equipo; CSV_FILENAME]) in *.
  destruct (nuevo_jugador _ _) as [nuevo'|]; [|done].
  destruct (leer_csv fs2 ruta) as [jugadores|] eqn:Hleer; [|done].
  unfold escribir_csv.
  destruct (writerows _) as [rows res] eqn:Hrows.
  destruct (fs_write fs2 ruta _) as [fs3|] eqn:Hw; [|done].
  destruct res as [[]|]; [|done]. intros [= <- <-].
  apply writerows_Ok in Hrows as [Hlen Hsix]. rewrite length_app in Hlen. simpl in Hlen.
  assert (Hfs1 : ∀ q, fs_file fs1 q = fs_file fs q).
  { intros q. by apply (fs_makedirs_file _ _ _ _ Hmk). }
  assert (Hruta1 : fs_lookup fs1 ruta = fs_lookup fs ruta).
  { subst ruta. change [conferencia; equipo; CSV_FILENAME]
      with ([conferencia; equipo] ++ [CSV_FILENAME]).
    rewrite app_assoc. by apply fs_makedirs_child. }
  assert (Hfs2 : ∀ q, q ≠ ruta → fs_file fs2 q = fs_file fs q).
  { intros q Hq. destruct Hini as [[_ ->]|[_ Hw2]]; [done|].
    by rewrite (fs_write_file _ _ _ _ _ Hw2), decide_False. }
  assert (Hold : jugadores = from_option dict_reader [] (fs_file fs ruta)).
  { unfold leer_csv in Hleer. destruct Hini as [[[n Hn] ->]|[Hnone Hw2]].
    - rewrite <-Hfs1. unfold fs_file. rewrite Hn.
      destruct n as [old|es].
      + assert (fs_read fs1 ruta = Ok old) as Hr by by apply fs_read_Ok, fs_file_Some.
        rewrite Hr in Hleer. by injection Hleer as <-.
      + destruct (fs_read fs1 ruta) as [old|e] eqn:Hr.
        * apply fs_read_Ok, fs_file_Some in Hr. congruence.
        * exfalso. clear Hw Hfs2. revert Hr Hleer Hn. generalize ruta as p.
          revert e. generalize fs1 as m. clear. intros m e p. revert m.
          induction p as [|n p IH]; intros m; simpl.
          { destruct m; [done|]. by intros [= <-]. }
          destruct m as [|es']; [done|]. destruct (entry n es'); [|done].
          apply IH.
    - assert (fs_read fs2 ruta = Ok [CSV_HEADERS]) as Hr.
      { apply fs_read_Ok. by rewrite (fs_write_file _ _ _ _ _ Hw2), decide_True. }
      rewrite Hr in Hleer. injection Hleer as <-.
      unfold fs_file. rewrite <-Hruta1, Hnone. done. }
  exists rows. split_and!.
  - intros q. rewrite (fs_write_file _ _ _ _ _ Hw). case_decide; [done|]. by apply Hfs2.
  - done.
  - rewrite Hlen, Hold. lia.
  - intros Hwf. eapply fs_write_wf; [|exact Hw].
    destruct Hini as [[_ ->]|[_ Hw2]].
    + by eapply fs_makedirs_wf.
    + eapply fs_write_wf; [|exact Hw2]. by eapply fs_makedirs_wf.
Qed.

(** ** Counting the records *)

Lemma archivos_bajo_split fs base (p : path) :
  wf_node fs → (∃ q, p = base ++ q) →
  archivos_bajo fs base
  ≡ₚ from_option (λ rows, [(p, rows)]) [] (fs_file fs p)
     ++ filter (λ a, a.1 ≠ p) (archivos_bajo fs base).
Proof.
  intros Hwf Hp. pose proof (archivos_bajo_NoDup fs base Hwf) as Hnd.
  apply NoDup_fmap_1 in Hnd. apply NoDup_Permutation; [done| |].
  - apply NoDup_app. split_and!.
    + destruct (fs_file fs p); simpl; [apply NoDup_singleton|constructor].
    + intros [q rows] Hin [Hq _]%list_elem_of_filter.
      destruct (fs_file fs p); simpl in *; [|by apply elem_of_nil in Hin].
      apply list_elem_of_singleton in Hin as [= -> ->]. done.
    + by apply NoDup_filter.
  - intros [q rows]. rewrite elem_of_app, list_elem_of_filter, archivos_bajo_spec by done.
    cbn [fst]. split.
    + intros (q' & -> & Hq). destruct (decide (base ++ q' = p)) as [<-|Hne].
      * left. rewrite Hq. simpl. by apply list_elem_of_singleton.
      * right. eauto.
    + intros [Hin|[_ ?]]; [|done].
      destruct (fs_file fs p) as [old|] eqn:Hold; simpl in Hin;
        [|by apply elem_of_nil in Hin].
      apply list_elem_of_singleton in Hin as [= -> ->].
      destruct Hp as [q' ->]. eauto.
Qed.

Lemma archivos_bajo_resto fs fs' base (p : path) :
  wf_node fs → wf_node fs' →
  (∀ q, q ≠ p → fs_file fs' q = fs_file fs q) →
  filter (λ a, a.1 ≠ p) (archivos_bajo fs' base)
  ≡ₚ filter (λ a, a.1 ≠ p) (archivos_bajo fs base).
Proof.
  intros Hwf Hwf' Hfiles.
  apply NoDup_Permutation.
  - by eapply NoDup_filter, NoDup_fmap_1, archivos_bajo_NoDup.
  - by eapply NoDup_filter, NoDup_fmap_1, archivos_bajo_NoDup.
  - intros [q rows]. rewrite !list_elem_of_filter, !archivos_bajo_spec by done.
    cbn [fst]. split; intros (Hq & q' & -> & Hrows); (split; [done|]);
      exists q'; (split; [done|]).
    + by rewrite <-Hfiles.
    + by rewrite Hfiles.
Qed.

(** Replacing the rows of one record file changes the number of records by
    the difference of the two row counts. *)
Lemma contar_registros fs fs' (q : path) rows :
  wf_node fs → wf_node fs' →
  basename (BASE ++ q) = CSV_FILENAME →
  (∀ p, fs_file fs' p = if decide (p = BASE ++ q) then Some rows else fs_file fs p) →
  length (archivos_bajo fs' BASE ≫= registros)
  + length (from_option dict_reader [] (fs_file fs (BASE ++ q)))
  = length (archivos_bajo fs BASE ≫= registros) + length (dict_reader rows).
Proof.
  intros Hwf Hwf' Hb Hfiles.
  rewrite (archivos_bajo_split fs' BASE (BASE ++ q)) by eauto.
  rewrite (archivos_bajo_split fs BASE (BASE ++ q)) by eauto.
  rewrite (archivos_bajo_resto fs fs' BASE (BASE ++ q)); [|done..|].
  2:{ intros p Hp. by rewrite Hfiles, decide_False. }
  rewrite !bind_app, !length_app.
  rewrite Hfiles, decide_True by done. cbn [from_option].
  rewrite bind_singleton. unfold registros at 1. cbn [fst snd].
  rewrite decide_True, length_fmap by done.
  destruct (fs_file fs (BASE ++ q)) as [old|]; cbn [from_option].
  - rewrite bind_singleton. unfold registros at 2. cbn [fst snd].
    rewrite decide_True, length_fmap by done. lia.
  - simpl. lia.
Qed.

Lemma alta_jugador_cuenta rnd conferencia equipo jugador fs fs' nuevo todos :
  wf_node fs →
  leer_todos_los_jugadores cwd None fs = Ok todos →
  alta_jugador cwd rnd conferencia equipo jugador fs = (fs', Ok nuevo) →
  wf_node fs' ∧
  ∃ todos', leer_todos_los_jugadores cwd None fs' = Ok todos'
            ∧ length todos' = S (length todos).
Proof.
  intros Hwf Htodos Halta.
  destruct (alta_jugador_Ok _ _ _ _ _ _ _ Halta) as (rows & Hfiles & Hsix & Hlen & Hwf').
  specialize (Hwf' Hwf). split; [done|].
  assert (Hroot : fs_file fs BASE = None).
  { unfold leer_todos_los_jugadores in Htodos. unfold fs_file.
    cbn [default from_option] in Htodos. unfold id in Htodos.
    by destruct (fs_lookup fs BASE) as [[]|]. }
  assert (Hb : basename (BASE ++ [conferencia; equipo; CSV_FILENAME]) = CSV_FILENAME).
  { change [conferencia; equipo; CSV_FILENAME]
      with ([conferencia; equipo] ++ [CSV_FILENAME]).
    rewrite app_assoc. apply last_last. }
  assert (Hroot' : fs_file fs' BASE = None).
  { rewrite Hfiles, decide_False; [done|]. intros Heq.
    rewrite <-Heq, basename_BASE in Hb. done. }
  rewrite leer_todos_None, (leer_todos_archivos fs BASE Hroot) in Htodos.
  injection Htodos as <-.
  eexists. split; [rewrite leer_todos_None; by apply leer_todos_archivos|].
  pose proof (contar_registros fs fs' _ _ Hwf Hwf' Hb Hfiles) as Hcount.
  rewrite dict_reader_record, length_fmap in Hcount by done. lia.
Qed.

Lemma altas_cons rnd conferencia equipo jugador pedidos fs :
  altas cwd ((rnd, conferencia, equipo, jugador) :: pedidos) fs =
    match alta_jugador cwd rnd conferencia equipo jugador fs with
    | (fs1, Raise e) => (fs1, Raise e)
    | (fs1, Ok nuevo) =>
        match altas cwd pedidos fs1 with
        | (fs2, Raise e) => (fs2, Raise e)
        | (fs2, Ok nuevos) => (fs2, Ok (nuevo :: nuevos))
        end
    end.
Proof.
  cbn [altas]. unfold mbind, io_bind.
  destruct (alta_jugador _ _ _ _ _ _) as [fs1 [nuevo|]]; [|done].
  by destruct (altas _ _ _) as [fs2 [nuevos|]].
Qed.

Lemma altas_cuenta pedidos fs fs' nuevos todos :
  wf_node fs →
  leer_todos_los_jugadores cwd None fs = Ok todos →
  altas cwd pedidos fs = (fs', Ok nuevos) →
  ∃ todos', leer_todos_los_jugadores cwd None fs' = Ok todos'
            ∧ length todos' = (length todos + length pedidos)%nat.
Proof.
  revert fs nuevos todos.
  induction pedidos as [|[[[rnd conferencia] equipo] jugador] pedidos IH];
    intros fs nuevos todos Hwf Htodos.
  - intros [= <- <-]. exists todos. split; [done|]. simpl. lia.
  - rewrite altas_cons.
    destruct (alta_jugador _ _ _ _ _ _) as [fs1 [nuevo|]] eqn:Halta; [|done].
    destruct (altas _ _ _) as [fs2 [nuevos'|]] eqn:Haltas; [|done].
    intros [= <- <-].
    destruct (alta_jugador_cuenta _ _ _ _ _ _ _ _ Hwf Htodos Halta)
      as (Hwf1 & todos1 & Htodos1 & Hlen1).
    destruct (IH _ _ _ Hwf1 Htodos1 Haltas) as (todos' & Htodos' & Hlen').
    exists todos'. split; [done|]. simpl. lia.
Qed.

Lemma presente_dec fs jugador_id :
  store_ok cwd fs → presente cwd fs jugador_id ∨ ¬ presente cwd fs jugador_id.
Proof.
  intros Hok.
  destruct (decide (Exists (λ a, tiene_id jugador_id a = true) (archivos_bajo fs BASE)))
    as [Hex|Hex].
  - left. apply presente_tiene_id; [done|]. apply Exists_exists in Hex. naive_solver.
  - right. intros Hpres%presente_tiene_id; [|done]. destruct Hex.
    apply Exists_exists. naive_solver.
Qed.

Lemma presente_en_archivo fs jugador_id :
  presente cwd fs jugador_id ↔ ∃ q, en_archivo cwd fs jugador_id q.
Proof. unfold presente, en_archivo. naive_solver. Qed.

Lemma length_filter_split {A} (P : A → Prop) `{!∀ x, Decision (P x)} (l : list A) :
  (length (filter P l) + length (filter (λ x, ¬ P x) l) = length l)%nat.
Proof. by rewrite <-length_app, filter_app_complement. Qed.

Lemma registros_filtrados (A : list (path * list (list string))) :
  A ≫= registros
  = filter (λ a, basename a.1 = CSV_FILENAME) A
      ≫= λ a, etiquetado a.1 <$> dict_reader a.2.
Proof.
  induction A as [|a A IH]; [done|]. rewrite bind_cons, IH, filter_cons.
  unfold registros at 1. case_decide; [by rewrite bind_cons|done].
Qed.

Lemma NoDup_fst_filter {A B} (P : A * B → Prop) `{!∀ x, Decision (P x)} (l : list (A * B)) :
  NoDup l.*1 → NoDup (filter P l).*1.
Proof.
  induction l as [|a l IH]; [done|]. rewrite fmap_cons, filter_cons.
  intros [Hin Hnd]%NoDup_cons. case_decide; [|by apply IH].
  rewrite fmap_cons. apply NoDup_cons. split; [|by apply IH].
  intros (b & Hb & [_ ?]%list_elem_of_filter)%list_elem_of_fmap.
  apply Hin, list_elem_of_fmap. eauto.
Qed.

(** ** The claims *)

(** C1. [leer_todos_los_jugadores] returns nothing when the root does not
    exist; on a directory tree it returns exactly the records of every file
    called [players.csv] at any depth below the root, each file once and each
    record with [_origen] set to the path of its file; and after [N]
    successful creations in a hierarchy without records it returns [N]
    records. *)
Theorem leer_todos_los_jugadores_exacto (fs : node) (base : path) :
  (fs_lookup fs base = None →
   leer_todos_los_jugadores cwd (Some base) fs = Ok [])
  ∧ (wf_node fs → fs_file fs base = None →
     ∃ archivos_csv,
       leer_todos_los_jugadores cwd (Some base) fs
       = Ok (archivos_csv ≫= λ a, etiquetado a.1 <$> dict_reader a.2)
       ∧ NoDup archivos_csv.*1
       ∧ ∀ p rows, (p, rows) ∈ archivos_csv ↔
           (∃ q, p = base ++ q) ∧ fs_file fs p = Some rows
           ∧ basename p = CSV_FILENAME)
  ∧ (∀ pedidos fs' nuevos,
       wf_node fs →
       Forall (λ '(_, conferencia, equipo, _), plain_name conferencia ∧ plain_name equipo)
         pedidos →
       leer_todos_los_jugadores cwd None fs = Ok [] →
       altas cwd pedidos fs = (fs', Ok nuevos) →
       ∃ todos, leer_todos_los_jugadores cwd None fs' = Ok todos
                ∧ length todos = length pedidos).
Proof.
  split_and!.
  - intros Hnone. unfold leer_todos_los_jugadores.
    change (default BASE (Some base)) with base. by rewrite Hnone.
  - intros Hwf Hroot.
    exists (filter (λ a, basename a.1 = CSV_FILENAME) (archivos_bajo fs base)).
    split_and!.
    + by rewrite leer_todos_archivos, registros_filtrados.
    + by apply NoDup_fst_filter, archivos_bajo_NoDup.
    + intros p rows. rewrite list_elem_of_filter, archivos_bajo_spec by done.
      cbn [fst]. split; [intros (Hb & q & -> & Hf)|intros ((q & ->) & Hf & Hb)]; eauto.
  - intros pedidos fs' nuevos Hwf _ Htodos Haltas.
    destruct (altas_cuenta _ _ _ _ _ Hwf Htodos Haltas) as (todos & ? & ?).
    exists todos. by split.
Qed.

(** C5. For an identifier that no record of the hierarchy carries,
    [actualizar_jugador] raises [KeyError("Jugador no encontrado.")] and the
    filesystem is left as it was. *)
Theorem actualizar_jugador_no_encontrado (fs : node) (jugador_id : string) (cambios : dict) :
  store_ok cwd fs → ¬ presente cwd fs jugador_id →
  actualizar_jugador cwd jugador_id cambios fs
  = (fs, Raise (KeyError "Jugador no encontrado.")).
Proof. apply actualizar_ausente. Qed.

(** C6. For an identifier that no record of the hierarchy carries,
    [eliminar_jugador] returns [False], raises nothing and leaves the
    filesystem as it was; after a deletion of an identifier that occurred in
    one file only, deleting it again returns [False] and changes nothing. *)
Theorem eliminar_jugador_no_encontrado (fs : node) (jugador_id : string) :
  store_ok cwd fs →
  (¬ presente cwd fs jugador_id →
   eliminar_jugador cwd jugador_id fs = (fs, Ok false))
  ∧ (∀ fs1,
       (∀ q1 q2, en_archivo cwd fs jugador_id q1 → en_archivo cwd fs jugador_id q2 →
                 q1 = q2) →
       eliminar_jugador cwd jugador_id fs = (fs1, Ok true) →
       eliminar_jugador cwd jugador_id fs1 = (fs1, Ok false)).
Proof.
  intros Hok. split; [by apply eliminar_ausente|].
  intros fs1 Huno Helim.
  destruct (presente_dec fs jugador_id Hok) as [Hpres|Habs].
  2:{ rewrite eliminar_ausente in Helim by done. done. }
  destruct (eliminar_encontrado _ _ Hok Hpres)
    as (q & data & l1 & r & l2 & fs' & Hb & Hfile & Hlen & Hr & Hid & _ & _ & Helim' & Hw).
  rewrite Helim' in Helim. injection Helim as ->.
  assert (Hok1 : store_ok cwd fs1).
  { eapply store_ok_write; [done..|]. eexists. split; [done|]. by apply Forall_filtered. }
  apply eliminar_ausente; [done|].
  intros (q' & data' & r' & Hfile' & Hb' & Hr' & Hid')%presente_en_archivo.
  rewrite (fs_write_file _ _ _ _ _ Hw) in Hfile'. case_decide as Heq.
  - injection Hfile' as <-. by apply list_elem_of_filter in Hr' as [? _].
  - destruct Heq. f_equal. apply Huno; [by exists data', r'|by exists data, r].
Qed.

(** C3, amended. For an identifier present in the hierarchy,
    [eliminar_jugador] returns [True]; it acts on the origin file of the first
    record of the traversal that carries the identifier, rewrites that file
    without every row that carries it (at least one row goes, exactly one
    when the identifier is unique in the file), and leaves every other file as
    it was. *)
Theorem eliminar_jugador_presente (fs : node) (jugador_id : string) :
  store_ok cwd fs → presente cwd fs jugador_id →
  ∃ q data l1 j l2 fs',
    leer_todos_los_jugadores cwd None fs = Ok (l1 ++ j :: l2)
    ∧ Forall (λ j', coincide jugador_id j' = false) l1
    ∧ j !! Some "id" = Some (VStr jugador_id)
    ∧ j !! Some "_origen" = Some (VPath (BASE ++ q))
    ∧ fs_file fs (BASE ++ q) = Some (CSV_HEADERS :: data)
    ∧ eliminar_jugador cwd jugador_id fs = (fs', Ok true)
    ∧ fs_file fs' (BASE ++ q)
      = Some (CSV_HEADERS :: filter (λ r, id_de r ≠ jugador_id) data)
    ∧ (∀ p', p' ≠ BASE ++ q → fs_file fs' p' = fs_file fs p')
    ∧ (length (filter (λ r, id_de r ≠ jugador_id) data)
       + length (filter (λ r, id_de r = jugador_id) data) = length data)%nat
    ∧ (1 ≤ length (filter (λ r, id_de r = jugador_id) data))%nat.
Proof.
  intros Hok Hpres.
  destruct (eliminar_encontrado _ _ Hok Hpres)
    as (q & data & l1 & r & l2 & fs' & Hb & Hfile & Hlen & Hr & Hid & Htodos & Hl1
        & Helim & Hw).
  exists q, data, l1, (etiquetado (BASE ++ q) (fila_de r)), l2, fs'.
  assert (Hr6 : length r = 6%nat) by (rewrite Forall_forall in Hlen; auto).
  split_and!; try done.
  - unfold etiquetado. rewrite lookup_insert_ne by done.
    pose proof (fila_de_id r Hr6) as Hget. unfold getitem in Hget.
    destruct (fila_de r !! Some "id"); [|done]. injection Hget as ->. by rewrite Hid.
  - unfold etiquetado. by rewrite lookup_insert_eq.
  - by rewrite (fs_write_file _ _ _ _ _ Hw), decide_True.
  - intros p' Hp'. by rewrite (fs_write_file _ _ _ _ _ Hw), decide_False.
  - rewrite Nat.add_comm.
    rewrite <-(length_filter_split (λ r, id_de r = jugador_id) data). done.
  - assert (r ∈ filter (λ r, id_de r = jugador_id) data) as Hin
      by by apply list_elem_of_filter.
    apply list_elem_of_lookup in Hin as [i Hi]. apply lookup_lt_Some in Hi. lia.
Qed.

(** C2, amended. For an identifier present in the hierarchy,
    [actualizar_jugador] returns the first row of the origin file that
    carries it, with each editable field taken from [cambios] when the key is
    there and kept otherwise; every other key of the row, the identifier
    among them, is as it was stored, whatever [cambios] holds for it, so the
    returned record and the rewritten row carry the identifier asked for;
    only that row of that file changes, to the printed form of the returned
    record, and every other file stays as it was. *)
Theorem actualizar_jugador_presente (fs : node) (jugador_id : string) (cambios : dict) :
  store_ok cwd fs → presente cwd fs jugador_id →
  ∃ q d1 r d2 fila' fs',
    basename (BASE ++ q) = CSV_FILENAME
    ∧ fs_file fs (BASE ++ q) = Some (CSV_HEADERS :: d1 ++ r :: d2)
    ∧ id_de r = jugador_id
    ∧ Forall (λ r', id_de r' ≠ jugador_id) d1
    ∧ actualizar_jugador cwd jugador_id cambios fs = (fs', Ok fila')
    ∧ (∀ k v, k ∈ campos_editables → cambios !! Some k = Some v →
              fila' !! Some k = Some v)
    ∧ (∀ k, k ∈ campos_editables → cambios !! Some k = None →
            fila' !! Some k = fila_de r !! Some k ∧ is_Some (fila_de r !! Some k))
    ∧ (∀ k : key, k ∉ Some <$> campos_editables → fila' !! k = fila_de r !! k)
    ∧ fila' !! Some "id" = Some (VStr jugador_id)
    ∧ id_de (celdas fila') = jugador_id
    ∧ fs_file fs' (BASE ++ q) = Some (CSV_HEADERS :: d1 ++ celdas fila' :: d2)
    ∧ (∀ p', p' ≠ BASE ++ q → fs_file fs' p' = fs_file fs p').
Proof.
  intros Hok Hpres.
  destruct (actualizar_encontrado _ _ cambios Hok Hpres)
    as (q & d1 & r & d2 & l1 & l2 & fila' & fs' & Hb & Hfile & Hlen & Hd1 & Hid
        & _ & _ & Hfila & Hact & Hw).
  exists q, d1, r, d2, fila', fs'.
  assert (Hr6 : length r = 6%nat).
  { apply Forall_app in Hlen as [_ Hlen]. by inversion Hlen. }
  destruct (actualizar_fila_fila_de cambios r Hr6) as (fila'' & Hfila' & _ & Hedit & Hkeep).
  rewrite Hfila in Hfila'. injection Hfila' as <-.
  assert (Hidk : fila' !! Some "id" = Some (VStr jugador_id)).
  { rewrite Hkeep.
    - pose proof (fila_de_id r Hr6) as Hget. unfold getitem in Hget.
      destruct (fila_de r !! Some "id"); [|done]. injection Hget as ->. by rewrite Hid.
    - unfold campos_editables. rewrite !fmap_cons.
      repeat (apply not_elem_of_cons; split; [done|]). apply not_elem_of_nil. }
  split_and!; try done.
  - intros k v Hk Hc. rewrite (Hedit k Hk). unfold dict_get. by rewrite Hc.
  - intros k Hk Hc. rewrite (Hedit k Hk). unfold dict_get. rewrite Hc.
    apply seis in Hr6 as (a&b&c&d&e&f&->). unfold campos_editables in Hk.
    repeat (apply elem_of_cons in Hk as [->|Hk]; [split; [done|by eexists]|]).
    by apply elem_of_nil in Hk.
  - unfold celdas, id_de, dict_get. cbn [CSV_HEADERS fmap list_fmap head].
    by rewrite Hidk.
  - by rewrite (fs_write_file _ _ _ _ _ Hw), decide_True.
  - intros p' Hp'. by rewrite (fs_write_file _ _ _ _ _ Hw), decide_False.
Qed.

(** C8. The identifier cannot be changed: whatever [cambios] holds, an ["id"]
    key included, the record [actualizar_jugador] returns carries the
    identifier it was asked for, it differs from the stored row in the five
    editable fields at most, and the rewritten row keeps its identifier cell. *)
Theorem actualizar_jugador_conserva_id (fs fs' : node) (jugador_id : string)
    (cambios fila' : dict) :
  store_ok cwd fs →
  actualizar_jugador cwd jugador_id cambios fs = (fs', Ok fila') →
  fila' !! Some "id" = Some (VStr jugador_id)
  ∧ ∃ q d1 r d2,
      fs_file fs (BASE ++ q) = Some (CSV_HEADERS :: d1 ++ r :: d2)
      ∧ fs_file fs' (BASE ++ q) = Some (CSV_HEADERS :: d1 ++ celdas fila' :: d2)
      ∧ id_de r = jugador_id
      ∧ id_de (celdas fila') = jugador_id
      ∧ (∀ k : key, k ∉ Some <$> campos_editables → fila' !! k = fila_de r !! k)
      ∧ (∀ p', p' ≠ BASE ++ q → fs_file fs' p' = fs_file fs p').
Proof.
  intros Hok Hact.
  destruct (presente_dec fs jugador_id Hok) as [Hpres|Habs].
  2:{ rewrite actualizar_ausente in Hact by done. done. }
  destruct (actualizar_encontrado _ _ cambios Hok Hpres)
    as (q & d1 & r & d2 & l1 & l2 & fila'' & fs'' & Hb & Hfile & Hlen & Hd1 & Hid
        & _ & _ & Hfila & Hact' & Hw).
  rewrite Hact' in Hact. injection Hact as -> ->.
  assert (Hr6 : length r = 6%nat).
  { apply Forall_app in Hlen as [_ Hlen]. by inversion Hlen. }
  destruct (actualizar_fila_fila_de cambios r Hr6) as (fila'' & Hfila' & _ & _ & Hkeep).
  rewrite Hfila in Hfila'. injection Hfila' as <-.
  assert (Hidk : fila' !! Some "id" = Some (VStr jugador_id)).
  { rewrite Hkeep.
    - pose proof (fila_de_id r Hr6) as Hget. unfold getitem in Hget.
      destruct (fila_de r !! Some "id"); [|done]. injection Hget as ->. by rewrite Hid.
    - unfold campos_editables. rewrite !fmap_cons.
      repeat (apply not_elem_of_cons; split; [done|]). apply not_elem_of_nil. }
  split; [done|]. exists q, d1, r, d2. split_and!; try done.
  - by rewrite (fs_write_file _ _ _ _ _ Hw), decide_True.
  - unfold celdas, id_de, dict_get. cbn [CSV_HEADERS fmap list_fmap head].
    by rewrite Hidk.
  - intros p' Hp'. by rewrite (fs_write_file _ _ _ _ _ Hw), decide_False.
Qed.

Lemma inicializar_csv_run fs1 (dir : path) data :
  fs_isdir fs1 dir = true →
  (fs_lookup fs1 (dir ++ [CSV_FILENAME]) = None ∧ data = []
   ∨ fs_file fs1 (dir ++ [CSV_FILENAME]) = Some (CSV_HEADERS :: data)) →
  ∃ fs2,
    inicializar_csv_si_necesario dir fs1 = (fs2, Ok (dir ++ [CSV_FILENAME]))
    ∧ fs_file fs2 (dir ++ [CSV_FILENAME]) = Some (CSV_HEADERS :: data)
    ∧ (∀ p, p ≠ dir ++ [CSV_FILENAME] → fs_file fs2 p = fs_file fs1 p)
    ∧ (fs_lookup fs1 (dir ++ [CSV_FILENAME]) = None → fs2 ≠ fs1).
Proof.
  intros Hdir Hprev. unfold inicializar_csv_si_necesario, fs_exists, path_join.
  destruct Hprev as [[Hnone ->]|Hfile].
  - rewrite Hnone, bool_decide_eq_false_2 by by intros [? ?]. cbn [negb].
    destruct (fs_write_new fs1 dir CSV_FILENAME [CSV_HEADERS] Hdir Hnone) as [fs2 Hw].
    rewrite Hw. exists fs2. split_and!; [done| | |].
    + by rewrite (fs_write_file _ _ _ _ _ Hw), decide_True.
    + intros p Hp. by rewrite (fs_write_file _ _ _ _ _ Hw), decide_False.
    + intros _ ->. pose proof (fs_write_file _ _ _ _ (dir ++ [CSV_FILENAME]) Hw) as Hf.
      rewrite decide_True in Hf by done. unfold fs_file in Hf. by rewrite Hnone in Hf.
  - pose proof Hfile as Hl%fs_file_Some.
    rewrite Hl, bool_decide_eq_true_2 by by eexists. cbn [negb].
    exists fs1. split_and!; [done..|]. intros Hnone. by rewrite Hnone in Hl.
Qed.

Lemma validar_estadistica_Ok v x :
  py_float v = Ok x → validar_estadistica v = Ok (float_ge0 x).
Proof. unfold validar_estadistica. by intros ->. Qed.

Lemma nuevo_jugador_Ok (rnd : N) (jugador nuevo : dict) :
  nuevo_jugador rnd jugador = Ok nuevo →
  ∃ nombre posicion xp xr xa,
    nuevo = dict_of_pairs
              [(Some "id", VStr (uuid_str (uuid4 rnd))); (Some "nombre", VStr nombre);
               (Some "posicion", VStr posicion); (Some "puntos", VFloat xp);
               (Some "rebotes", VFloat xr); (Some "asistencias", VFloat xa)].
Proof.
  unfold nuevo_jugador.
  destruct (getitem jugador "nombre" ≫= py_strip) as [vn|] eqn:Hn; [|done].
  destruct (getitem jugador "posicion" ≫= py_lower) as [vp|] eqn:Hp; [|done].
  destruct (getitem jugador "puntos" ≫= py_float) as [xp|]; [|done].
  destruct (getitem jugador "rebotes" ≫= py_float) as [xr|]; [|done].
  destruct (getitem jugador "asistencias" ≫= py_float) as [xa|]; [|done].
  cbn [mbind result_bind]. intros [= <-].
  destruct (getitem jugador "nombre") as [v1|]; [|done].
  destruct (getitem jugador "posicion") as [v2|]; [|done].
  cbn [mbind result_bind] in Hn, Hp.
  assert (∃ nombre, vn = VStr nombre) as [nombre ->].
  { destruct v1; simplify_eq/=; eauto. }
  assert (∃ posicion, vp = VStr posicion) as [posicion ->].
  { destruct v2; simplify_eq/=; eauto. }
  by exists nombre, posicion, xp, xr, xa.
Qed.

Lemma alta_jugador_id (rnd : N) (conferencia equipo : string) (jugador nuevo : dict)
    (fs fs' : node) :
  alta_jugador cwd rnd conferencia equipo jugador fs = (fs', Ok nuevo) →
  nuevo !! Some "id" = Some (VStr (uuid_str (uuid4 rnd))).
Proof.
  rewrite alta_jugador_eq.
  destruct (validar_nombre _); [|done]. cbn [negb].
  destruct (validar_posicion _) as [[]|]; [|done..].
  destruct (validar_estadisticas _ _); [|done].
  destruct (asegurar_directorio _ _ _) as [fs1 [dir_path|]]; [|done].
  destruct (inicializar_csv_si_necesario _ _) as [fs2 [ruta_csv|]]; [|done].
  destruct (nuevo_jugador rnd jugador) as [nuevo'|] eqn:Hnuevo; [|done].
  destruct (leer_csv _ _) as [jugadores|]; [|done].
  destruct (escribir_csv _ _ _) as [fs3 [[]|]]; [|done].
  intros [= _ <-].
  by destruct (nuevo_jugador_Ok _ _ _ Hnuevo) as (?&?&?&?&?&->).
Qed.

(** C7. A valid creation returns a record with a non-empty identifier, the
    name stripped, the position in lower case and the three statistics as
    floats; the team's file then ends with that record, every field printed
    as text, after the rows it held before, and no other file changes.  The
    identifier is freshly generated: it is the text of the version 4 UUID made
    of the sixteen random bytes of this call, and a creation returns the same
    identifier exactly when its random bytes agree with these on every one of
    the 122 bits that [uuid.uuid4] keeps. *)
Theorem alta_jugador_valido (fs fs1 : node) (rnd : N) (conferencia equipo : string)
    (jugador : dict) (nombre posicion : string) (vp vr va : value) (xp xr xa : float)
    (data : list (list string)) :
  let ruta := BASE ++ [conferencia; equipo; CSV_FILENAME] in
  let id := uuid_str (uuid4 rnd) in
  plain_name conferencia → plain_name equipo →
  jugador !! Some "nombre" = Some (VStr nombre) → str_strip nombre ≠ "" →
  jugador !! Some "posicion" = Some (VStr posicion) →
  str_lower posicion ∈ posiciones_validas →
  jugador !! Some "puntos" = Some vp → py_float vp = Ok xp → float_ge0 xp = true →
  jugador !! Some "rebotes" = Some vr → py_float vr = Ok xr → float_ge0 xr = true →
  jugador !! Some "asistencias" = Some va → py_float va = Ok xa → float_ge0 xa = true →
  fs_makedirs fs (BASE ++ [conferencia; equipo]) = Ok fs1 →
  (fs_lookup fs ruta = None ∧ data = []
   ∨ fs_file fs ruta = Some (CSV_HEADERS :: data) ∧ Forall (λ r, length r = 6%nat) data) →
  ∃ fs',
    alta_jugador cwd rnd conferencia equipo jugador fs
    = (fs', Ok (dict_of_pairs
                  [(Some "id", VStr id); (Some "nombre", VStr (str_strip nombre));
                   (Some "posicion", VStr (str_lower posicion));
                   (Some "puntos", VFloat xp); (Some "rebotes", VFloat xr);
                   (Some "asistencias", VFloat xa)]))
    ∧ id ≠ "" ∧ String.length id = 36%nat
    ∧ fs_file fs' ruta
      = Some (CSV_HEADERS :: data
              ++ [[id; str_strip nombre; str_lower posicion;
                   float_str xp; float_str xr; float_str xa]])
    ∧ (∀ p, p ≠ ruta → fs_file fs' p = fs_file fs p)
    ∧ (∀ rnd' conferencia' equipo' jugador' fs0 fs0' otro,
         alta_jugador cwd rnd' conferencia' equipo' jugador' fs0 = (fs0', Ok otro) →
         otro !! Some "id" = Some (VStr id)
         ↔ ∀ i, bit_libre i → N.testbit rnd' i = N.testbit rnd i).
Proof.
  intros ruta id _ _ Hn Hn' Hp Hp' Hvp Hfp Hgp Hvr Hfr Hgr Hva Hfa Hga Hmk Hprev.
  assert (Hruta : ruta = (BASE ++ [conferencia; equipo]) ++ [CSV_FILENAME]).
  { subst ruta. by rewrite <-app_assoc. }
  assert (Hdata : Forall (λ r, length r = 6%nat) data).
  { destruct Hprev as [[_ ->]|[_ ?]]; [constructor|done]. }
  destruct (inicializar_csv_run fs1 (BASE ++ [conferencia; equipo]) data)
    as (fs2 & Hini & Hfile2 & Hfs2 & _).
  { by eapply fs_makedirs_isdir. }
  { rewrite <-Hruta. destruct Hprev as [[Hnone ->]|[Hfile _]].
    - left. split; [|done]. rewrite Hruta. by rewrite (fs_makedirs_child _ _ _ _ Hmk), <-Hruta.
    - right. by rewrite (fs_makedirs_file _ _ _ _ Hmk). }
  rewrite <-Hruta in Hini, Hfile2, Hfs2.
  set (fila := [id; str_strip nombre; str_lower posicion;
                float_str xp; float_str xr; float_str xa]).
  assert (Hrows : writerows ((fila_de <$> data)
      ++ [(VStr ∘ value_str) <$> dict_of_pairs
            [(Some "id", VStr id); (Some "nombre", VStr (str_strip nombre));
             (Some "posicion", VStr (str_lower posicion));
             (Some "puntos", VFloat xp); (Some "rebotes", VFloat xr);
             (Some "asistencias", VFloat xa)]])
    = (data ++ [fila], Ok ())).
  { rewrite writerows_app, writerows_filas by done. reflexivity. }
  destruct (escribir_csv_existing fs2 ruta _ _ _ _ Hfile2 Hrows) as (fs' & Hesc & Hw).
  exists fs'. split_and!.
  - rewrite alta_jugador_eq. unfold dict_get. rewrite Hn, Hp. cbn [validar_nombre].
    rewrite bool_decide_eq_true_2 by done. cbn [negb validar_posicion].
    rewrite bool_decide_eq_true_2 by done.
    cbn [validar_estadisticas]. unfold dict_get. rewrite Hvp, Hvr, Hva.
    rewrite (validar_estadistica_Ok _ _ Hfp), (validar_estadistica_Ok _ _ Hfr),
      (validar_estadistica_Ok _ _ Hfa), Hgp, Hgr, Hga. cbn [mbind result_bind].
    unfold asegurar_directorio. rewrite Hmk, Hini.
    unfold nuevo_jugador, getitem. rewrite Hn, Hp, Hvp, Hvr, Hva.
    cbn [mbind result_bind py_strip py_lower]. rewrite Hfp, Hfr, Hfa.
    cbn [mbind result_bind].
    rewrite (leer_csv_file _ _ _ Hfile2), dict_reader_record by done.
    fold id. by rewrite Hesc.
  - apply uuid_str_not_empty.
  - apply uuid_str_length.
  - by rewrite (fs_write_file _ _ _ _ _ Hw), decide_True.
  - intros p Hne. rewrite (fs_write_file _ _ _ _ _ Hw), decide_False by done.
    rewrite Hfs2 by done. by apply (fs_makedirs_file _ _ _ _ Hmk).
  - intros rnd' conferencia' equipo' jugador' fs0 fs0' otro Halta.
    rewrite (alta_jugador_id _ _ _ _ _ _ _ Halta), <-uuid4_eq. subst id. split.
    + intros Hid. apply uuid_str_uuid4_inj. revert Hid.
      generalize (uuid_str (uuid4 rnd')) (uuid_str (uuid4 rnd)). by intros a b [= ->].
    + by intros ->.
Qed.

Lemma validar_estadisticas_app jugador l1 l2 :
  Forall (λ s, validar_estadistica (dict_get jugador s (VInt 0)) = Ok true) l1 →
  validar_estadisticas jugador (l1 ++ l2) = validar_estadisticas jugador l2.
Proof.
  induction 1 as [|s l1 Hs _ IH]; [done|].
  rewrite <-app_comm_cons. cbn [validar_estadisticas]. by rewrite Hs.
Qed.


Lemma fs_lookup_padre (fs : node) (d : path) (name : string) :
  fs_lookup fs (d ++ [name]) ≠ None → fs_isdir fs d = true.
Proof.
  rewrite fs_lookup_app. unfold fs_isdir.
  by destruct (fs_lookup fs d) as [[rows|es]|].
Qed.

(** C10, amended. With a valid name and position and one of [puntos],
    [rebotes], [asistencias] missing, validation passes (a missing statistic
    counts as [0]) and building the record raises [KeyError] for the first
    missing key; by then the team directory exists.  When the team had no file, a
    file holding only the header row has been created, so the filesystem has
    changed before the error; when the team's file was already there, the
    error leaves the filesystem exactly as it was. *)
Theorem alta_jugador_falta_estadistica (fs fs1 : node) (rnd : N)
    (conferencia equipo : string) (jugador : dict) (nombre posicion : string) :
  let dir := BASE ++ [conferencia; equipo] in
  let ruta := BASE ++ [conferencia; equipo; CSV_FILENAME] in
  let stats := ["puntos"; "rebotes"; "asistencias"] in
  plain_name conferencia → plain_name equipo →
  jugador !! Some "nombre" = Some (VStr nombre) → str_strip nombre ≠ "" →
  jugador !! Some "posicion" = Some (VStr posicion) →
  str_lower posicion ∈ posiciones_validas →
  (∀ s, s ∈ stats →
        jugador !! Some s = None
        ∨ ∃ v x, jugador !! Some s = Some v ∧ py_float v = Ok x ∧ float_ge0 x = true) →
  (∃ s, s ∈ stats ∧ jugador !! Some s = None) →
  fs_makedirs fs dir = Ok fs1 →
  validar_estadisticas jugador stats = Ok ()
  ∧ ∃ falta fs2,
      falta ∈ stats ∧ jugador !! Some falta = None
      ∧ (∀ previas siguientes, stats = previas ++ falta :: siguientes →
           Forall (λ s, is_Some (jugador !! Some s)) previas)
      ∧ alta_jugador cwd rnd conferencia equipo jugador fs = (fs2, Raise (KeyError falta))
      ∧ fs_isdir fs2 dir = true
      ∧ (∀ p, p ≠ ruta → fs_file fs2 p = fs_file fs p)
      ∧ (fs_lookup fs ruta = None → fs_file fs2 ruta = Some [CSV_HEADERS] ∧ fs2 ≠ fs)
      ∧ (fs_lookup fs ruta ≠ None → fs2 = fs).
Proof.
  intros dir ruta stats _ _ Hn Hn' Hp Hp' Hstats Hfalta Hmk.
  assert (Hruta : ruta = dir ++ [CSV_FILENAME]).
  { subst ruta dir. by rewrite <-app_assoc. }
  assert (Hval : ∀ s, s ∈ stats →
            validar_estadistica (dict_get jugador s (VInt 0)) = Ok true).
  { intros s Hs. unfold dict_get.
    destruct (Hstats s Hs) as [->|(v & x & -> & Hx & Hge)]; cbv iota.
    - destruct float_of_int_0_ge0 as (z & Hz & Hge).
      unfold validar_estadistica. cbn [py_float]. rewrite Hz. cbn [from_option].
      by rewrite Hge.
    - by rewrite (validar_estadistica_Ok _ _ Hx), Hge. }
  assert (Hvals : validar_estadisticas jugador stats = Ok ()).
  { subst stats. cbn [validar_estadisticas].
    rewrite !Hval by (repeat constructor). done. }
  split; [done|].
  assert (Hnuevo : ∃ falta, falta ∈ stats ∧ jugador !! Some falta = None
                     ∧ (∀ previas siguientes, stats = previas ++ falta :: siguientes →
                          Forall (λ s, is_Some (jugador !! Some s)) previas)
                     ∧ nuevo_jugador rnd jugador = Raise (KeyError falta)).
  { unfold nuevo_jugador, getitem. rewrite Hn, Hp.
    cbn [mbind result_bind py_strip py_lower].
    destruct (jugador !! Some "puntos") as [v1|] eqn:H1.
    2:{ exists "puntos". split_and!; try done; [repeat constructor|].
        intros [|s1 [|s2 [|s3 [|s4 previas]]]] siguientes [= ]; simplify_eq; constructor. }
    destruct (Hstats "puntos") as [?|(v & x1 & Hv & Hx1 & _)];
      [repeat constructor|congruence|].
    rewrite H1 in Hv. injection Hv as <-.
    cbn [mbind result_bind]. rewrite Hx1. cbn [mbind result_bind].
    destruct (jugador !! Some "rebotes") as [v2|] eqn:H2.
    2:{ exists "rebotes". split_and!; try done; [repeat constructor|].
        intros [|s1 [|s2 [|s3 [|s4 previas]]]] siguientes [= ]; simplify_eq.
        by repeat constructor. }
    destruct (Hstats "rebotes") as [?|(v & x2 & Hv & Hx2 & _)];
      [repeat constructor|congruence|].
    rewrite H2 in Hv. injection Hv as <-.
    cbn [mbind result_bind]. rewrite Hx2. cbn [mbind result_bind].
    destruct (jugador !! Some "asistencias") as [v3|] eqn:H3.
    2:{ exists "asistencias". split_and!; try done; [repeat constructor|].
        intros [|s1 [|s2 [|s3 [|s4 previas]]]] siguientes [= ]; simplify_eq.
        by repeat constructor. }
    exfalso. destruct Hfalta as (s & Hs & Hsn). subst stats.
    repeat (apply elem_of_cons in Hs as [->|Hs]; [congruence|]).
    by apply elem_of_nil in Hs. }
  destruct Hnuevo as (falta & Hin & Hmiss & Hprimera & Hraise).
  assert (Hrun : ∀ fs2, inicializar_csv_si_necesario dir fs1 = (fs2, Ok ruta) →
            alta_jugador cwd rnd conferencia equipo jugador fs
            = (fs2, Raise (KeyError falta))).
  { intros fs2 Hini. rewrite alta_jugador_eq. unfold dict_get at 1 2. rewrite Hn, Hp.
    cbn [validar_nombre]. rewrite bool_decide_eq_true_2 by done.
    cbn [negb validar_posicion]. rewrite bool_decide_eq_true_2 by done.
    fold stats. rewrite Hvals. unfold asegurar_directorio. fold dir.
    by rewrite Hmk, Hini, Hraise. }
  pose proof (fs_makedirs_isdir _ _ _ Hmk) as Hdir1.
  destruct (fs_lookup fs ruta) as [x|] eqn:Hprev.
  - assert (Hfs1 : fs1 = fs).
    { assert (fs_isdir fs dir = true) as Hdir.
      { apply (fs_lookup_padre fs dir CSV_FILENAME). rewrite <-Hruta. by rewrite Hprev. }
      rewrite (fs_makedirs_existing _ _ Hdir) in Hmk. by injection Hmk. }
    subst fs1. exists falta, fs. split_and!; try done.
    apply Hrun. unfold inicializar_csv_si_necesario, fs_exists, path_join.
    rewrite <-Hruta, Hprev. by rewrite bool_decide_eq_true_2 by by eexists.
  - assert (Hnone1 : fs_lookup fs1 ruta = None).
    { rewrite Hruta. by rewrite (fs_makedirs_child _ _ _ _ Hmk), <-Hruta. }
    destruct (inicializar_csv_run fs1 dir []) as (fs2 & Hini & Hfile2 & Hfs2 & Hne);
      [done|left; by rewrite <-Hruta|].
    rewrite <-Hruta in Hini, Hfile2, Hfs2, Hne.
    exists falta, fs2. split_and!; try done.
    + by apply Hrun.
    + unfold fs_isdir. destruct (fs_lookup fs2 dir) as [[r|es]|] eqn:Hl; [|done|].
      * rewrite Hruta in Hfile2. unfold fs_file in Hfile2.
        by rewrite fs_lookup_app, Hl in Hfile2.
      * rewrite Hruta in Hfile2. unfold fs_file in Hfile2.
        by rewrite fs_lookup_app, Hl in Hfile2.
    + intros p Hp0. rewrite Hfs2 by done. by apply (fs_makedirs_file _ _ _ _ Hmk).
    + intros _. split; [done|]. intros ->. unfold fs_file in Hfile2.
      by rewrite Hprev in Hfile2.
Qed.

Lemma columna_texto (campo : string) (jugadores : list dict) (xs : list float) :
  Forall2 (λ (j : dict) x, ∃ texto, j !! Some campo = Some (VStr texto)
                                    ∧ float_of_str texto = Some x) jugadores xs →
  columna campo jugadores = Ok xs.
Proof.
  unfold columna. induction 1 as [|j x js xs (texto & Hj & Hx) _ IH]; [done|].
  cbn [result_mapM]. rewrite IH. unfold getitem. rewrite Hj.
  cbn [mbind result_bind py_float]. by rewrite Hx.
Qed.

(** C9. [estadisticas_globales] of no records is [{"total": 0}] and nothing
    else; of [n > 0] records it is the count [n] and, for points, rebounds
    and assists, the sum of the floats read from the stored text divided by
    [n]. *)
Theorem estadisticas_globales_promedios (jugadores : list dict)
    (puntos rebotes asistencias : list float) (mp mr ma : float) :
  let texto := λ campo : string, Forall2 (λ (j : dict) x,
    ∃ t, j !! Some campo = Some (VStr t) ∧ float_of_str t = Some x) jugadores in
  let n := Z.of_nat (length jugadores) in
  estadisticas_globales [] = Ok {[Some "total" := VInt 0]}
  ∧ (jugadores ≠ [] →
     texto "puntos" puntos → texto "rebotes" rebotes → texto "asistencias" asistencias →
     float_truediv_int (float_sum puntos) n = Ok mp →
     float_truediv_int (float_sum rebotes) n = Ok mr →
     float_truediv_int (float_sum asistencias) n = Ok ma →
     estadisticas_globales jugadores
     = Ok (dict_of_pairs
             [(Some "total_jugadores", VInt n);
              (Some "promedio_puntos", VFloat mp);
              (Some "promedio_rebotes", VFloat mr);
              (Some "promedio_asistencias", VFloat ma)])).
Proof.
  intros texto n. split; [reflexivity|].
  intros Hne Hp Hr Ha Hmp Hmr Hma. unfold estadisticas_globales.
  destruct jugadores as [|j js]; [done|].
  change (length (j :: js) =? 0)%nat with false. cbn iota.
  rewrite (columna_texto _ _ _ Hp), (columna_texto _ _ _ Hr), (columna_texto _ _ _ Ha).
  cbn [mbind result_bind]. fold n. rewrite Hmp, Hmr, Hma. done.
Qed.

(** ** The layout is kept by every operation *)

Lemma writerows_seis filas : Forall (λ r, length r = 6%nat) (writerows filas).1.
Proof.
  induction filas as [|d filas IH]; [constructor|]. rewrite writerows_cons.
  destruct (dict_to_list d) as [r|] eqn:Hd; [|constructor].
  destruct (writerows filas) as [rs res]. constructor; [|done].
  by eapply dict_to_list_length.
Qed.

Lemma store_ok_sin_base fs :
  wf_node fs → fs_lookup fs BASE = None → store_ok cwd fs.
Proof.
  intros Hwf Hnone. split; [done| |].
  - unfold fs_file. by rewrite Hnone.
  - intros q rows. by rewrite fs_file_app_None.
Qed.

Lemma store_ok_makedirs fs p fs' :
  store_ok cwd fs → fs_makedirs fs p = Ok fs' → store_ok cwd fs'.
Proof.
  intros [Hwf Hroot Hfiles] Hmk. split.
  - by eapply fs_makedirs_wf.
  - by rewrite (fs_makedirs_file _ _ _ _ Hmk).
  - intros q rows. rewrite (fs_makedirs_file _ _ _ _ Hmk). apply Hfiles.
Qed.

Lemma escribir_csv_store_ok fs (q : path) filas :
  store_ok cwd fs → basename (BASE ++ q) = CSV_FILENAME →
  store_ok cwd (escribir_csv (BASE ++ q) filas fs).1.
Proof.
  intros Hok Hb. unfold escribir_csv.
  pose proof (writerows_seis filas) as Hsix.
  destruct (writerows filas) as [rows res].
  destruct (fs_write _ _ _) as [fs'|] eqn:Hw; [|done].
  eapply store_ok_write; [done..|]. by exists rows.
Qed.

Lemma alta_jugador_store_ok rnd conferencia equipo jugador fs :
  store_ok cwd fs → store_ok cwd (alta_jugador cwd rnd conferencia equipo jugador fs).1.
Proof.
  intros Hok. rewrite alta_jugador_eq.
  destruct (validar_nombre _); [|done]. cbn [negb].
  destruct (validar_posicion _) as [[]|]; [|done..].
  destruct (validar_estadisticas _ _); [|done].
  unfold asegurar_directorio.
  destruct (fs_makedirs _ _) as [fs1|] eqn:Hmk; [|done].
  pose proof (store_ok_makedirs _ _ _ Hok Hmk) as Hok1.
  assert (Hb : basename (BASE ++ [conferencia; equipo; CSV_FILENAME]) = CSV_FILENAME).
  { change [conferencia; equipo; CSV_FILENAME]
      with ([conferencia; equipo] ++ [CSV_FILENAME]).
    rewrite app_assoc. apply last_last. }
  assert (Hok2 : store_ok cwd
            (inicializar_csv_si_necesario (BASE ++ [conferencia; equipo]) fs1).1
          ∧ ∀ ruta, (inicializar_csv_si_necesario (BASE ++ [conferencia; equipo]) fs1).2
                    = Ok ruta → ruta = BASE ++ [conferencia; equipo; CSV_FILENAME]).
  { unfold inicializar_csv_si_necesario, path_join. rewrite <-app_assoc. cbn [app].
    destruct (negb _); [|by split; [|intros ? [= <-]]].
    destruct (fs_write _ _ _) as [fs2|] eqn:Hw; [|done].
    split; [|by intros ? [= <-]].
    eapply store_ok_write; [done..|]. exists []. by split. }
  destruct Hok2 as [Hok2 Hruta].
  destruct (inicializar_csv_si_necesario _ _) as [fs2 [ruta|]]; [|done].
  rewrite (Hruta ruta eq_refl). cbn [fst] in Hok2.
  destruct (nuevo_jugador _ _) as [nuevo|]; [|done].
  destruct (leer_csv _ _) as [jugadores|]; [|done].
  pose proof (escribir_csv_store_ok fs2 [conferencia; equipo; CSV_FILENAME]
                (jugadores ++ [(VStr ∘ value_str) <$> nuevo]) Hok2 Hb) as Hok3.
  by destruct (escribir_csv _ _ _) as [fs3 [[]|]].
Qed.

Lemma actualizar_jugador_store_ok jugador_id cambios fs :
  store_ok cwd fs → store_ok cwd (actualizar_jugador cwd jugador_id cambios fs).1.
Proof.
  intros Hok. destruct (presente_dec fs jugador_id Hok) as [Hpres|Habs].
  - destruct (actualizar_encontrado _ _ cambios Hok Hpres)
      as (q & d1 & r & d2 & l1 & l2 & fila' & fs' & Hb & Hfile & Hlen & _ & _
          & _ & _ & _ & -> & Hw).
    eapply store_ok_write; [done..|]. eexists. split; [done|].
    apply Forall_app in Hlen as [? Hlen]. inversion_clear Hlen.
    apply Forall_app. split; [done|]. by constructor.
  - by rewrite actualizar_ausente.
Qed.

Lemma eliminar_jugador_store_ok jugador_id fs :
  store_ok cwd fs → store_ok cwd (eliminar_jugador cwd jugador_id fs).1.
Proof.
  intros Hok. destruct (presente_dec fs jugador_id Hok) as [Hpres|Habs].
  - destruct (eliminar_encontrado _ _ Hok Hpres)
      as (q & data & l1 & r & l2 & fs' & Hb & Hfile & Hlen & _ & _ & _ & _ & -> & Hw).
    eapply store_ok_write; [done..|]. eexists. split; [done|]. by apply Forall_filtered.
  - by rewrite eliminar_ausente.
Qed.

(** ** Checking a concrete hierarchy *)

Lemma record_fileb_correct rows : record_fileb rows = true → record_file rows.
Proof.
  destruct rows as [|h data]; [done|]. simpl.
  intros [Hh Hdata]%andb_prop. apply bool_decide_eq_true in Hh as ->.
  exists data. split; [done|]. apply Forall_forall. intros r Hr%list_elem_of_In.
  rewrite forallb_forall in Hdata. by apply Nat.eqb_eq, Hdata.
Qed.

Lemma store_okb_correct fs : store_okb cwd fs = true → store_ok cwd fs.
Proof.
  unfold store_okb. intros [[Hwf Hroot]%andb_prop Hfiles]%andb_prop.
  apply wf_nodeb_correct in Hwf. apply bool_decide_eq_true in Hroot.
  split; [done..|]. intros q rows Hq Hb.
  rewrite forallb_forall in Hfiles.
  specialize (Hfiles (BASE ++ q, rows)). cbn [fst snd] in Hfiles.
  rewrite decide_True in Hfiles by done. apply record_fileb_correct, Hfiles.
  apply list_elem_of_In, archivos_bajo_spec; eauto.
Qed.

Lemma presenteb_correct fs jugador_id :
  store_ok cwd fs →
  presente cwd fs jugador_id ↔ presenteb cwd fs jugador_id = true.
Proof.
  intros Hok. rewrite presente_tiene_id by done. unfold presenteb.
  rewrite existsb_exists. setoid_rewrite list_elem_of_In. done.
Qed.

Lemma ausente_correct fs jugador_id :
  store_okb cwd fs = true → presenteb cwd fs jugador_id = false →
  ¬ presente cwd fs jugador_id.
Proof.
  intros Hok%store_okb_correct Hno Hpres%presenteb_correct; [|done]. congruence.
Qed.

End Properties.

(** * Further properties of the utilities *)

Lemma fs_write_same fs p rows : fs_file fs p = Some rows → fs_write fs p rows = Ok fs.
Proof.
  revert fs. induction p as [|name p IH]; intros fs.
  - destruct fs; [|done]. by intros [= ->].
  - rewrite fs_file_cons. destruct fs as [r|es]; [done|]. simpl.
    destruct (entry name es) as [x|] eqn:Hx; [|done]. simpl. intros Hp.
    rewrite (IH _ Hp). simpl. by rewrite set_entry_same.
Qed.

Lemma fs_makedirs_Ok fs p :
  (∀ q, q `prefix_of` p → fs_file fs q = None) → ∃ fs', fs_makedirs fs p = Ok fs'.
Proof.
  revert fs. induction p as [|name p IH]; intros fs Hfree; simpl.
  - destruct fs as [r|es]; [|eauto]. by specialize (Hfree [] (prefix_nil _)).
  - destruct fs as [r|es].
    { by specialize (Hfree [] (prefix_nil _)). }
    destruct (IH (default (Dir []) (entry name es))) as [sub ->]; [|simpl; eauto].
    intros q Hq. specialize (Hfree (name :: q) (prefix_cons _ _ _ Hq)).
    rewrite fs_file_cons in Hfree.
    destruct (entry name es); simpl in *; [done|]. by destruct q.
Qed.

Lemma fs_makedirs_Raise fs p q rows :
  q `prefix_of` p → fs_file fs q = Some rows →
  fs_makedirs fs p
  = Raise (if decide (q = p) then FileExistsError else NotADirectoryError).
Proof.
  revert fs q. induction p as [|name p IH]; intros fs q Hq Hfile.
  - apply prefix_nil_inv in Hq as ->. by destruct fs.
  - destruct q as [|n q].
    + by destruct fs.
    + pose proof (prefix_cons_inv_1 _ _ _ _ Hq) as ->.
      apply prefix_cons_inv_2 in Hq. rewrite fs_file_cons in Hfile. simpl.
      destruct fs as [r|es]; [done|].
      destruct (entry name es) as [x|]; [|done]. simpl in *.
      rewrite (IH _ _ Hq Hfile). simpl.
      repeat case_decide; congruence.
Qed.

(** What [open(p, "r")] does when [p] is no regular file. *)
Lemma fs_read_dir fs p :
  fs_isdir fs p = true → fs_read fs p = Raise IsADirectoryError.
Proof.
  unfold fs_isdir. revert fs. induction p as [|name p IH]; intros fs; simpl.
  - by destruct fs.
  - destruct fs as [r|es]; [done|]. destruct (entry name es); simpl; [apply IH|done].
Qed.

Lemma fs_read_missing fs p :
  fs_lookup fs p = None → (∀ q, q `prefix_of` p → fs_file fs q = None) →
  fs_read fs p = Raise FileNotFoundError.
Proof.
  revert fs. induction p as [|name p IH]; intros fs; simpl; [done|].
  destruct fs as [r|es].
  { intros _ Hfree. by specialize (Hfree [] (prefix_nil _)). }
  destruct (entry name es) as [x|] eqn:Hx; simpl; [|done].
  intros Hnone Hfree. apply IH; [done|]. intros q Hq.
  specialize (Hfree (name :: q) (prefix_cons _ _ _ Hq)).
  by rewrite fs_file_cons, Hx in Hfree.
Qed.

Lemma fs_read_below_file fs p q rows :
  q `prefix_of` p → q ≠ p → fs_file fs q = Some rows →
  fs_read fs p = Raise NotADirectoryError.
Proof.
  revert fs q. induction p as [|name p IH]; intros fs q Hq Hne Hfile.
  - by apply prefix_nil_inv in Hq.
  - destruct q as [|n q].
    + by destruct fs.
    + pose proof (prefix_cons_inv_1 _ _ _ _ Hq) as ->.
      apply prefix_cons_inv_2 in Hq. rewrite fs_file_cons in Hfile. simpl.
      destruct fs as [r|es]; [done|].
      destruct (entry name es) as [x|]; [|done]. simpl in *.
      apply (IH _ q); [done| |done]. congruence.
Qed.

Section Utilities.
Context `{PyBuiltins}.
Variable cwd : path.

Local Abbreviation key := (option string).
Local Abbreviation dict := (gmap key value).
Local Abbreviation BASE := (BASE_DIR cwd).
Local Abbreviation fila_de := (dict_reader_row CSV_HEADERS).

(** X1. For parts that are single path components, [asegurar_directorio]
    succeeds exactly when no component of the path is a regular file; it then
    yields a directory, changes no file, and running it again changes nothing.
    When a component is a regular file it raises [FileExistsError] (the last
    component) or [NotADirectoryError] (an earlier one) and the filesystem
    stays as it was. *)
Theorem asegurar_directorio_spec (fs : node) (partes : list string) :
  let ruta := BASE ++ partes in
  Forall plain_name partes →
  ((∀ q, q `prefix_of` ruta → fs_file fs q = None) →
   ∃ fs',
     asegurar_directorio cwd partes fs = (fs', Ok ruta)
     ∧ fs_isdir fs' ruta = true
     ∧ (∀ p, fs_file fs' p = fs_file fs p)
     ∧ asegurar_directorio cwd partes fs' = (fs', Ok ruta))
  ∧ (∀ q rows, q `prefix_of` ruta → fs_file fs q = Some rows →
       asegurar_directorio cwd partes fs
       = (fs, Raise (if decide (q = ruta) then FileExistsError
                     else NotADirectoryError))).
Proof.
  intros ruta _. split.
  - intros Hfree. destruct (fs_makedirs_Ok fs ruta Hfree) as [fs' Hmk].
    exists fs'. unfold asegurar_directorio. fold ruta. rewrite Hmk.
    pose proof (fs_makedirs_isdir _ _ _ Hmk) as Hdir.
    split_and!; [done..| |].
    + intros p. by apply (fs_makedirs_file _ _ _ _ Hmk).
    + by rewrite (fs_makedirs_existing _ _ Hdir).
  - intros q rows Hq Hfile. unfold asegurar_directorio. fold ruta.
    by rewrite (fs_makedirs_Raise _ _ _ _ Hq Hfile).
Qed.

(** X2. [inicializar_csv_si_necesario] leaves an existing entry alone, writes
    a header-only file into an existing directory that has none (which then
    reads as no records), and is idempotent. *)
Theorem inicializar_csv_si_necesario_spec (fs : node) (ruta_dir : path) :
  let ruta_csv := ruta_dir ++ [CSV_FILENAME] in
  (is_Some (fs_lookup fs ruta_csv) →
   inicializar_csv_si_necesario ruta_dir fs = (fs, Ok ruta_csv))
  ∧ (fs_isdir fs ruta_dir = true → fs_lookup fs ruta_csv = None →
     ∃ fs',
       inicializar_csv_si_necesario ruta_dir fs = (fs', Ok ruta_csv)
       ∧ fs_file fs' ruta_csv = Some [CSV_HEADERS]
       ∧ leer_csv fs' ruta_csv = Ok []
       ∧ (∀ p, p ≠ ruta_csv → fs_file fs' p = fs_file fs p))
  ∧ (∀ fs' r, inicializar_csv_si_necesario ruta_dir fs = (fs', Ok r) →
       inicializar_csv_si_necesario ruta_dir fs' = (fs', Ok r)).
Proof.
  intros ruta_csv. split_and!.
  - intros Hex. unfold inicializar_csv_si_necesario, fs_exists, path_join.
    fold ruta_csv. by rewrite bool_decide_eq_true_2.
  - intros Hdir Hnone.
    destruct (inicializar_csv_run fs ruta_dir [] Hdir) as (fs' & Hini & Hfile & Hotros & _).
    { by left. }
    exists fs'. split_and!; [done..| |done].
    by rewrite (leer_csv_file _ _ _ Hfile).
  - intros fs' r Hini. apply inicializar_csv_Ok in Hini as [-> [[Hex ->]|[_ Hw]]].
    + unfold inicializar_csv_si_necesario, fs_exists, path_join.
      by rewrite bool_decide_eq_true_2.
    + unfold inicializar_csv_si_necesario, fs_exists, path_join.
      rewrite bool_decide_eq_true_2; [done|].
      pose proof (fs_write_file _ _ _ _ (ruta_dir ++ [CSV_FILENAME]) Hw) as Hf.
      rewrite decide_True in Hf by done. apply fs_file_Some in Hf. by rewrite Hf.
Qed.

(** X3. [leer_csv] returns the records of a regular file; a path that does
    not exist, below directories only, reads as no records; a directory raises
    [IsADirectoryError] and a path below a regular file [NotADirectoryError]. *)
Theorem leer_csv_spec (fs : node) (ruta_csv : path) :
  (∀ rows, fs_file fs ruta_csv = Some rows →
     leer_csv fs ruta_csv = Ok (dict_reader rows))
  ∧ (fs_lookup fs ruta_csv = None →
     (∀ q, q `prefix_of` ruta_csv → fs_file fs q = None) →
     leer_csv fs ruta_csv = Ok [])
  ∧ (fs_isdir fs ruta_csv = true → leer_csv fs ruta_csv = Raise IsADirectoryError)
  ∧ (∀ q rows, q `prefix_of` ruta_csv → q ≠ ruta_csv → fs_file fs q = Some rows →
       leer_csv fs ruta_csv = Raise NotADirectoryError).
Proof.
  split_and!.
  - intros rows. apply leer_csv_file.
  - intros Hnone Hfree. unfold leer_csv. by rewrite fs_read_missing.
  - intros Hdir. unfold leer_csv. by rewrite fs_read_dir.
  - intros q rows Hq Hne Hfile. unfold leer_csv.
    by rewrite (fs_read_below_file _ _ _ _ Hq Hne Hfile).
Qed.

Lemma dict_to_list_celdas (d : dict) :
  dict_to_list d
  = if campos_validos d then Ok (celdas d)
    else Raise (ValueError "dict contains fields not in fieldnames").
Proof. done. Qed.

Lemma celdas_length (d : dict) : length (celdas d) = 6%nat.
Proof. done. Qed.

Lemma writerows_validos (filas : list dict) :
  Forall (λ d, campos_validos d = true) filas →
  writerows filas = (celdas <$> filas, Ok ()).
Proof.
  induction 1 as [|d filas Hd _ IH]; [done|].
  by rewrite writerows_cons, dict_to_list_celdas, Hd, IH.
Qed.

Lemma celdas_fila_de r : length r = 6%nat → celdas (fila_de r) = r.
Proof. intros (a&b&c&d&e&f&->)%seis. reflexivity. Qed.

Lemma fila_de_validos r : length r = 6%nat → campos_validos (fila_de r) = true.
Proof. intros (a&b&c&d&e&f&->)%seis. reflexivity. Qed.

Lemma escribir_csv_write (fs fs' : node) (p : path) filas rows res :
  writerows filas = (rows, res) → fs_write fs p (CSV_HEADERS :: rows) = Ok fs' →
  escribir_csv p filas fs = (fs', res).
Proof. intros Hrows Hw. unfold escribir_csv. by rewrite Hrows, Hw. Qed.

Lemma fs_write_Ok (fs : node) (p : path) rows :
  is_Some (fs_file fs p)
  ∨ (∃ d name, p = d ++ [name] ∧ fs_isdir fs d = true ∧ fs_lookup fs p = None) →
  ∃ fs', fs_write fs p rows = Ok fs'.
Proof.
  intros [[old Hold]|(d & name & -> & Hd & Hnone)].
  - by eapply fs_write_existing.
  - by apply fs_write_new.
Qed.

(** X4. Writing records whose keys are all field names, to a file that exists
    or into a directory that does, and reading the file back returns each
    record with every field as the text that was printed, a missing field as
    the empty text; no other file changes. *)
Theorem escribir_csv_leer_csv (fs : node) (ruta_csv : path) (filas : list dict) :
  Forall (λ d, campos_validos d = true) filas →
  is_Some (fs_file fs ruta_csv)
  ∨ (∃ d name, ruta_csv = d ++ [name] ∧ fs_isdir fs d = true
               ∧ fs_lookup fs ruta_csv = None) →
  ∃ fs',
    escribir_csv ruta_csv filas fs = (fs', Ok ())
    ∧ fs_file fs' ruta_csv = Some (CSV_HEADERS :: (celdas <$> filas))
    ∧ leer_csv fs' ruta_csv = Ok (fila_de ∘ celdas <$> filas)
    ∧ (∀ (d : dict) k, k ∈ CSV_HEADERS →
         fila_de (celdas d) !! Some k = Some (VStr (csv_cell (dict_get d k (VStr "")))))
    ∧ (∀ p, p ≠ ruta_csv → fs_file fs' p = fs_file fs p).
Proof.
  intros Hfilas Hruta.
  destruct (fs_write_Ok fs ruta_csv (CSV_HEADERS :: (celdas <$> filas)) Hruta) as [fs' Hw].
  pose proof (fs_write_file _ _ _ _ ruta_csv Hw) as Hfile.
  rewrite decide_True in Hfile by done.
  exists fs'. split_and!.
  - by apply (escribir_csv_write _ _ _ _ _ _ (writerows_validos _ Hfilas)).
  - done.
  - rewrite (leer_csv_file _ _ _ Hfile), dict_reader_record.
    + by rewrite list_fmap_compose.
    + apply Forall_fmap, Forall_true. intros d. apply celdas_length.
  - intros d k Hk. repeat (apply elem_of_cons in Hk as [->|Hk]); try reflexivity.
    by apply elem_of_nil in Hk.
  - intros p Hp. by rewrite (fs_write_file _ _ _ _ _ Hw), decide_False.
Qed.

(** X5. Writing back what [leer_csv] returned for a record file leaves the
    filesystem exactly as it was. *)
Theorem leer_csv_escribir_csv (fs : node) (ruta_csv : path) (rows : list (list string)) :
  fs_file fs ruta_csv = Some rows → record_file rows →
  ∃ filas,
    leer_csv fs ruta_csv = Ok filas
    ∧ length filas = pred (length rows)
    ∧ escribir_csv ruta_csv filas fs = (fs, Ok ()).
Proof.
  intros Hfile (data & -> & Hdata). exists (fila_de <$> data). split_and!.
  - by rewrite (leer_csv_file _ _ _ Hfile), dict_reader_record.
  - by rewrite length_fmap.
  - apply (escribir_csv_write _ _ _ _ data (Ok ())); [by apply writerows_filas|].
    by apply fs_write_same.
Qed.

(** X6. [escribir_csv] is not atomic: on the first dictionary with a key
    outside the field names it raises [ValueError], and the file is left with
    the header and the rows before that dictionary only; what the file held
    and the rows that follow are gone.  A record as the traversal returns it,
    with [_origen], is such a dictionary. *)
Theorem escribir_csv_parcial (fs : node) (ruta_csv : path) (old : list (list string))
    (previas : list dict) (d : dict) (resto : list dict) :
  fs_file fs ruta_csv = Some old →
  Forall (λ d, campos_validos d = true) previas → campos_validos d = false →
  (∃ fs' msg,
     escribir_csv ruta_csv (previas ++ d :: resto) fs = (fs', Raise (ValueError msg))
     ∧ fs_file fs' ruta_csv = Some (CSV_HEADERS :: (celdas <$> previas))
     ∧ leer_csv fs' ruta_csv = Ok (fila_de ∘ celdas <$> previas)
     ∧ (∀ p, p ≠ ruta_csv → fs_file fs' p = fs_file fs p))
  ∧ (∀ (p : path) (f : dict), campos_validos (etiquetado p f) = false).
Proof.
  intros Hold Hprevias Hd. split.
  - destruct (fs_write_existing fs ruta_csv old (CSV_HEADERS :: (celdas <$> previas)) Hold)
      as [fs' Hw].
    pose proof (fs_write_file _ _ _ _ ruta_csv Hw) as Hfile.
    rewrite decide_True in Hfile by done.
    exists fs', "dict contains fields not in fieldnames". split_and!.
    + apply (escribir_csv_write _ _ _ _ (celdas <$> previas)); [|done].
      rewrite writerows_app, (writerows_validos _ Hprevias), writerows_cons.
      rewrite dict_to_list_celdas, Hd. by rewrite app_nil_r.
    + done.
    + rewrite (leer_csv_file _ _ _ Hfile), dict_reader_record.
      * by rewrite list_fmap_compose.
      * apply Forall_fmap, Forall_true. intros ?. apply celdas_length.
    + intros p Hp. by rewrite (fs_write_file _ _ _ _ _ Hw), decide_False.
  - intros p f. apply bool_decide_eq_false_2. intros Hall.
    specialize (Hall (Some "_origen")). simpl in Hall.
    assert (Some "_origen" ∈ Some <$> CSV_HEADERS) as Hin.
    { apply Hall, elem_of_dom. unfold etiquetado. rewrite lookup_insert_eq. by eexists. }
    apply list_elem_of_fmap in Hin as (k & [= <-] & Hk).
    repeat (apply elem_of_cons in Hk as [?|Hk]); try done. by apply elem_of_nil in Hk.
Qed.

End Utilities.

(** * Operations one after the other *)

Section Composition.
Context `{PyBuiltins}.
Variable cwd : path.

Local Abbreviation key := (option string).
Local Abbreviation dict := (gmap key value).
Local Abbreviation BASE := (BASE_DIR cwd).
Local Abbreviation fila_de := (dict_reader_row CSV_HEADERS).
Local Abbreviation leer_todos := (leer_todos_los_jugadores cwd None).

Lemma basename_ruta (conferencia equipo : string) :
  basename (BASE ++ [conferencia; equipo; CSV_FILENAME]) = CSV_FILENAME.
Proof.
  change [conferencia; equipo; CSV_FILENAME] with ([conferencia; equipo] ++ [CSV_FILENAME]).
  rewrite app_assoc. apply last_last.
Qed.

(** The team's file once [inicializar_csv_si_necesario] has run, in a
    hierarchy that has the layout. *)
Lemma alta_jugador_archivo (conferencia equipo : string) (fs fs1 fs2 : node)
    (ruta_csv : path) (jugadores : list dict) :
  store_ok cwd fs →
  fs_makedirs fs (BASE ++ [conferencia; equipo]) = Ok fs1 →
  inicializar_csv_si_necesario (BASE ++ [conferencia; equipo]) fs1 = (fs2, Ok ruta_csv) →
  leer_csv fs2 ruta_csv = Ok jugadores →
  ruta_csv = BASE ++ [conferencia; equipo; CSV_FILENAME]
  ∧ ∃ data,
      (fs_file fs ruta_csv = Some (CSV_HEADERS :: data)
       ∨ (fs_file fs ruta_csv = None ∧ data = []))
      ∧ Forall (λ r, length r = 6%nat) data
      ∧ fs_file fs2 ruta_csv = Some (CSV_HEADERS :: data)
      ∧ jugadores = fila_de <$> data
      ∧ (∀ p, p ≠ ruta_csv → fs_file fs2 p = fs_file fs p)
      ∧ wf_node fs2.
Proof.
  intros Hok Hmk Hini Hleer.
  apply inicializar_csv_Ok in Hini as [-> Hini].
  rewrite <-app_assoc in *. cbn [app] in Hini, Hleer |- *. split; [done|].
  set (ruta := BASE ++ [conferencia; equipo; CSV_FILENAME]) in *.
  assert (Hfs1 : ∀ q, fs_file fs1 q = fs_file fs q).
  { intros q. by apply (fs_makedirs_file _ _ _ _ Hmk). }
  pose proof (store_ok_makedirs cwd _ _ _ Hok Hmk) as Hok1.
  assert (Hb : basename ruta = CSV_FILENAME) by apply basename_ruta.
  destruct Hini as [[[n Hn] ->]|[Hnone Hw2]].
  - destruct n as [old|es].
    + apply fs_file_Some in Hn.
      destruct (ok_files cwd _ Hok1 [conferencia; equipo; CSV_FILENAME] old Hn Hb)
        as (data & -> & Hdata).
      exists data. split_and!; [left; by rewrite <-Hfs1|done..| | |apply Hok1].
      * rewrite (leer_csv_file _ _ _ Hn), dict_reader_record in Hleer by done.
        by injection Hleer as <-.
      * intros p _. apply Hfs1.
    + unfold leer_csv in Hleer. rewrite fs_read_dir in Hleer; [done|].
      unfold fs_isdir. by rewrite Hn.
  - pose proof (fs_write_file _ _ _ _ ruta Hw2) as Hf2.
    rewrite decide_True in Hf2 by done.
    exists []. split_and!.
    + right. split; [|done]. rewrite <-Hfs1. unfold fs_file. by rewrite Hnone.
    + constructor.
    + done.
    + rewrite (leer_csv_file _ _ _ Hf2) in Hleer. by injection Hleer as <-.
    + intros p Hp. rewrite (fs_write_file _ _ _ _ _ Hw2), decide_False by done. apply Hfs1.
    + eapply fs_write_wf; [|exact Hw2]. apply Hok1.
Qed.

(** Appending the new record to a record file. *)
Lemma escribir_csv_nuevo (fs2 : node) (ruta : path) (data : list (list string))
    (rnd : N) (jugador nuevo : dict) :
  fs_file fs2 ruta = Some (CSV_HEADERS :: data) →
  Forall (λ r, length r = 6%nat) data →
  nuevo_jugador rnd jugador = Ok nuevo →
  ∃ fila fs3,
    length fila = 6%nat
    ∧ id_de fila = uuid_str (uuid4 rnd)
    ∧ (VStr ∘ value_str) <$> nuevo = fila_de fila
    ∧ escribir_csv ruta ((fila_de <$> data) ++ [(VStr ∘ value_str) <$> nuevo]) fs2
      = (fs3, Ok ())
    ∧ fs_write fs2 ruta (CSV_HEADERS :: data ++ [fila]) = Ok fs3.
Proof.
  intros Hfile2 Hdata Hnuevo.
  destruct (nuevo_jugador_Ok _ _ _ Hnuevo) as (nombre & posicion & xp & xr & xa & ->).
  set (fila := [uuid_str (uuid4 rnd); nombre; posicion;
                float_str xp; float_str xr; float_str xa]).
  assert (Hrows : writerows ((fila_de <$> data)
      ++ [(VStr ∘ value_str) <$> dict_of_pairs
            [(Some "id", VStr (uuid_str (uuid4 rnd))); (Some "nombre", VStr nombre);
             (Some "posicion", VStr posicion); (Some "puntos", VFloat xp);
             (Some "rebotes", VFloat xr); (Some "asistencias", VFloat xa)]])
    = (data ++ [fila], Ok ())).
  { rewrite writerows_app, writerows_filas by done. reflexivity. }
  destruct (escribir_csv_existing fs2 ruta _ _ _ _ Hfile2 Hrows) as (fs3 & Hesc & Hw).
  exists fila, fs3. split_and!; [done..|reflexivity|done|done].
Qed.

(** What a successful creation wrote, in a hierarchy that has the layout. *)
Lemma alta_jugador_inv (rnd : N) (conferencia equipo : string) (jugador : dict)
    (fs fs' : node) (nuevo : dict) :
  store_ok cwd fs →
  alta_jugador cwd rnd conferencia equipo jugador fs = (fs', Ok nuevo) →
  ∃ data fila,
    (fs_file fs (BASE ++ [conferencia; equipo; CSV_FILENAME]) = Some (CSV_HEADERS :: data)
     ∨ (fs_file fs (BASE ++ [conferencia; equipo; CSV_FILENAME]) = None ∧ data = []))
    ∧ Forall (λ r, length r = 6%nat) data
    ∧ length fila = 6%nat
    ∧ id_de fila = uuid_str (uuid4 rnd)
    ∧ (VStr ∘ value_str) <$> nuevo = fila_de fila
    ∧ (∀ p, fs_file fs' p
            = if decide (p = BASE ++ [conferencia; equipo; CSV_FILENAME])
              then Some (CSV_HEADERS :: data ++ [fila]) else fs_file fs p)
    ∧ wf_node fs'.
Proof.
  intros Hok. rewrite alta_jugador_eq.
  destruct (validar_nombre _); [|done]. cbn [negb].
  destruct (validar_posicion _) as [[]|]; [|done..].
  destruct (validar_estadisticas _ _); [|done].
  destruct (asegurar_directorio _ _ _) as [fs1 [dir_path|]] eqn:Hdir; [|done].
  apply asegurar_directorio_Ok in Hdir as [-> Hmk].
  destruct (inicializar_csv_si_necesario _ _) as [fs2 [ruta_csv|]] eqn:Hini; [|done].
  destruct (nuevo_jugador _ _) as [nuevo'|] eqn:Hnuevo; [|done].
  destruct (leer_csv fs2 ruta_csv) as [jugadores|] eqn:Hleer; [|done].
  destruct (alta_jugador_archivo _ _ _ _ _ _ _ Hok Hmk Hini Hleer)
    as (-> & data & Hprev & Hdata & Hfile2 & -> & Hfs2 & Hwf2).
  destruct (escribir_csv_nuevo _ _ _ _ _ _ Hfile2 Hdata Hnuevo)
    as (fila & fs3 & Hfila & Hid & Htexto & Hesc & Hw).
  rewrite Hesc. intros [= <- <-].
  exists data, fila. split_and!; [done..| |].
  - intros p. rewrite (fs_write_file _ _ _ _ _ Hw). case_decide; [done|]. by apply Hfs2.
  - by eapply fs_write_wf.
Qed.

(** The records of two hierarchies that differ in one file. *)
Lemma registros_reemplazo (fs fs' : node) (q : path) (rows' : list (list string)) :
  wf_node fs → wf_node fs' →
  (∀ p, fs_file fs' p = if decide (p = BASE ++ q) then Some rows' else fs_file fs p) →
  ∃ otros,
    archivos_bajo fs BASE ≫= registros
    ≡ₚ from_option (λ rows, registros (BASE ++ q, rows)) [] (fs_file fs (BASE ++ q))
       ++ otros
    ∧ archivos_bajo fs' BASE ≫= registros ≡ₚ registros (BASE ++ q, rows') ++ otros
    ∧ Forall (λ j, viene_de (BASE ++ q) j = false) otros.
Proof.
  intros Hwf Hwf' Hfiles.
  exists (filter (λ a, a.1 ≠ BASE ++ q) (archivos_bajo fs BASE) ≫= registros).
  split_and!.
  - rewrite (archivos_bajo_split fs BASE (BASE ++ q)) at 1 by eauto.
    rewrite bind_app. apply Permutation_app; [|done].
    destruct (fs_file fs (BASE ++ q)); simpl; [by rewrite app_nil_r|done].
  - rewrite (archivos_bajo_split fs' BASE (BASE ++ q)) at 1 by eauto.
    rewrite bind_app. apply Permutation_app.
    + rewrite Hfiles, decide_True by done. simpl. by rewrite app_nil_r.
    + apply bind_Permutation, archivos_bajo_resto; [done..|].
      intros p Hp. by rewrite Hfiles, decide_False.
  - apply Forall_forall. intros j ([p rows] & Hj & [Hp _]%list_elem_of_filter)%list_elem_of_bind.
    unfold registros in Hj. cbn [fst snd] in *. case_decide; [|by apply elem_of_nil in Hj].
    apply list_elem_of_fmap in Hj as (f & -> & _).
    unfold viene_de. rewrite origen_etiquetado. by apply bool_decide_eq_false_2.
Qed.

Lemma fila_de_celdas (d : dict) (k : string) :
  k ∈ CSV_HEADERS →
  fila_de (celdas d) !! Some k = Some (VStr (csv_cell (dict_get d k (VStr "")))).
Proof.
  intros Hk. repeat (apply elem_of_cons in Hk as [->|Hk]); try reflexivity.
  by apply elem_of_nil in Hk.
Qed.

Lemma registros_filas (p : path) (data : list (list string)) :
  basename p = CSV_FILENAME → Forall (λ r, length r = 6%nat) data →
  registros (p, CSV_HEADERS :: data) = (etiquetado p ∘ fila_de) <$> data.
Proof. intros Hb Hdata. by rewrite registros_record. Qed.

Lemma viene_de_etiquetado (p q : path) (f : dict) :
  viene_de q (etiquetado p f) = bool_decide (p = q).
Proof. unfold viene_de, etiquetado. by rewrite origen_etiquetado. Qed.

Lemma coincide_etiquetado (jugador_id : string) (p : path) (r : list string) :
  length r = 6%nat →
  coincide jugador_id (etiquetado p (fila_de r)) = bool_decide (id_de r = jugador_id).
Proof. intros Hr. unfold etiquetado. by rewrite coincide_origen, coincide_fila_de. Qed.

(** The records a hierarchy with the layout yields are stored rows of six
    cells, tagged. *)
Lemma store_ok_registros (fs : node) :
  store_ok cwd fs →
  ∃ todos, leer_todos fs = Ok todos
    ∧ Forall (λ j, ∃ (p : path) r,
                j = etiquetado p (fila_de r) ∧ length r = 6%nat
                ∧ basename p = CSV_FILENAME ∧ is_Some (fs_file fs p)) todos.
Proof.
  intros Hok. eexists. split; [by apply store_ok_leer_todos|].
  apply Forall_forall. intros j (a & Hj & Ha)%list_elem_of_bind.
  unfold registros in Hj. case_decide as Hb; [|by apply elem_of_nil in Hj].
  destruct (store_ok_bloque cwd fs a Hok Ha Hb) as (data & Hdata & Hsix).
  destruct (store_ok_archivos cwd fs a Hok Ha) as (q & _ & Hfile & _).
  rewrite Hdata, dict_reader_record in Hj by done.
  apply list_elem_of_fmap in Hj as (f & -> & (r & -> & Hr)%list_elem_of_fmap).
  exists a.1, r. split_and!; [done| |done|by eexists]. rewrite Forall_forall in Hsix. auto.
Qed.

Lemma fila_de_texto (r : list string) (k : string) :
  length r = 6%nat → k ∈ CSV_HEADERS → ∃ t, fila_de r !! Some k = Some (VStr t).
Proof.
  intros (a&b&c&d&e&f&->)%seis Hk.
  repeat (apply elem_of_cons in Hk as [->|Hk]; [by eexists|]).
  by apply elem_of_nil in Hk.
Qed.

Lemma etiquetado_campo (p : path) (f : dict) (k : string) :
  k ∈ CSV_HEADERS → etiquetado p f !! Some k = f !! Some k.
Proof.
  intros Hk. unfold etiquetado. apply lookup_insert_ne. intros [= <-].
  repeat (apply elem_of_cons in Hk as [?|Hk]); try done. by apply elem_of_nil in Hk.
Qed.

(** Reading again after a creation. *)
Lemma alta_jugador_releer (rnd : N) (conferencia equipo : string) (jugador : dict)
    (fs fs' : node) (nuevo : dict) :
  store_ok cwd fs →
  alta_jugador cwd rnd conferencia equipo jugador fs = (fs', Ok nuevo) →
  store_ok cwd fs'
  ∧ ∃ todos todos',
      leer_todos fs = Ok todos ∧ leer_todos fs' = Ok todos'
      ∧ todos' ≡ₚ todos ++ [etiquetado (BASE ++ [conferencia; equipo; CSV_FILENAME])
                             ((VStr ∘ value_str) <$> nuevo)].
Proof.
  intros Hok Halta.
  assert (Hok' : store_ok cwd fs').
  { pose proof (alta_jugador_store_ok cwd rnd conferencia equipo jugador fs Hok) as Hok'.
    by rewrite Halta in Hok'. }
  split; [done|].
  destruct (alta_jugador_inv _ _ _ _ _ _ _ Hok Halta)
    as (data & fila & Hprev & Hdata & Hfila & _ & -> & Hfiles & Hwf').
  pose proof (basename_ruta conferencia equipo) as Hb.
  destruct (registros_reemplazo fs fs' [conferencia; equipo; CSV_FILENAME] _
              (ok_names cwd _ Hok) Hwf' Hfiles) as (otros & Hantes & Hdespues & _).
  exists (archivos_bajo fs BASE ≫= registros), (archivos_bajo fs' BASE ≫= registros).
  split_and!; [by apply store_ok_leer_todos..|].
  rewrite Hdespues, Hantes, registros_filas; [|done|].
  2:{ apply Forall_app. split; [done|]. by constructor. }
  rewrite fmap_app. cbn [fmap list_fmap compose].
  assert (from_option (λ rows, registros (BASE ++ [conferencia; equipo; CSV_FILENAME], rows))
            [] (fs_file fs (BASE ++ [conferencia; equipo; CSV_FILENAME]))
          = (etiquetado (BASE ++ [conferencia; equipo; CSV_FILENAME]) ∘ fila_de) <$> data)
    as ->.
  { destruct Hprev as [->|[-> ->]]; [|done]. simpl. by rewrite registros_filas. }
  rewrite <-!app_assoc. apply Permutation_app; [done|]. apply Permutation_app_comm.
Qed.

(** Reading again after a deletion. *)
Lemma eliminar_jugador_releer (jugador_id : string) (fs fs' : node) :
  store_ok cwd fs →
  eliminar_jugador cwd jugador_id fs = (fs', Ok true) →
  ∃ q l1 r l2 todos',
    leer_todos fs = Ok (l1 ++ etiquetado (BASE ++ q) (fila_de r) :: l2)
    ∧ Forall (λ j : dict, coincide jugador_id j = false) l1
    ∧ id_de r = jugador_id ∧ length r = 6%nat
    ∧ leer_todos fs' = Ok todos'
    ∧ todos' ≡ₚ filter (λ j, viene_de (BASE ++ q) j && coincide jugador_id j = false)
                  (l1 ++ etiquetado (BASE ++ q) (fila_de r) :: l2).
Proof.
  intros Hok Helim.
  destruct (presente_dec cwd fs jugador_id Hok) as [Hpres|Habs].
  2:{ by rewrite eliminar_ausente in Helim. }
  destruct (eliminar_encontrado cwd _ _ Hok Hpres)
    as (q & data & l1 & r & l2 & fs'' & Hb & Hfile & Hdata & Hr & Hid & Htodos & Hl1
        & Helim' & Hw).
  rewrite Helim' in Helim. injection Helim as ->.
  assert (Hok' : store_ok cwd fs').
  { eapply store_ok_write; [done..|]. eexists. split; [done|]. by apply Forall_filtered. }
  exists q, l1, r, l2, (archivos_bajo fs' BASE ≫= registros).
  split_and!; [done..| |by apply store_ok_leer_todos|].
  { rewrite Forall_forall in Hdata. auto. }
  destruct (registros_reemplazo fs fs' q _ (ok_names cwd _ Hok) (ok_names cwd _ Hok')
              (λ p, fs_write_file _ _ _ _ p Hw)) as (otros & Hantes & Hdespues & Hotros).
  rewrite store_ok_leer_todos in Htodos by done. injection Htodos as <-.
  rewrite Hfile in Hantes. cbn [from_option] in Hantes.
  rewrite registros_filas in Hantes, Hdespues by eauto using Forall_filtered.
  rewrite Hdespues, Hantes, filter_app. apply Permutation_app.
  - clear -Hdata. induction Hdata as [|r data Hr _ IH]; [done|].
    rewrite fmap_cons, !filter_cons. cbn [compose].
    rewrite viene_de_etiquetado, coincide_etiquetado, bool_decide_eq_true_2 by done.
    cbn [andb]. destruct (decide (id_de r = jugador_id)) as [Heq|Hne].
    + rewrite bool_decide_eq_true_2 by done.
      rewrite (decide_False (P:=true = false)) by done.
      by rewrite (decide_False (P:=id_de r ≠ jugador_id)) by (by intros ?).
    + rewrite bool_decide_eq_false_2 by done.
      rewrite (decide_True (P:=false = false)) by done.
      rewrite (decide_True (P:=id_de r ≠ jugador_id)) by done.
      by rewrite fmap_cons, IH.
  - clear -Hotros. induction Hotros as [|j otros Hj _ IH]; [done|].
    rewrite filter_cons_True; [by rewrite <-IH|]. by rewrite Hj.
Qed.

Lemma filter_todos {A} (P : A → Prop) `{!∀ x, Decision (P x)} (l : list A) :
  Forall P l → filter P l = l.
Proof.
  induction 1 as [|x l Hx _ IH]; [done|]. by rewrite filter_cons_True, IH.
Qed.

(** Reading again after an update. *)
Lemma actualizar_jugador_releer (jugador_id : string) (cambios : dict)
    (fs fs' : node) (fila' : dict) :
  store_ok cwd fs →
  actualizar_jugador cwd jugador_id cambios fs = (fs', Ok fila') →
  store_ok cwd fs'
  ∧ ∃ q r otros todos todos',
      leer_todos fs = Ok todos ∧ leer_todos fs' = Ok todos'
      ∧ id_de r = jugador_id ∧ length r = 6%nat
      ∧ actualizar_fila cambios (fila_de r) = Ok fila'
      ∧ todos ≡ₚ etiquetado (BASE ++ q) (fila_de r) :: otros
      ∧ todos' ≡ₚ etiquetado (BASE ++ q) (fila_de (celdas fila')) :: otros.
Proof.
  intros Hok Hact.
  destruct (presente_dec cwd fs jugador_id Hok) as [Hpres|Habs].
  2:{ by rewrite actualizar_ausente in Hact. }
  destruct (actualizar_encontrado cwd _ _ cambios Hok Hpres)
    as (q & d1 & r & d2 & l1 & l2 & fila'' & fs'' & Hb & Hfile & Hlen & _ & Hid
        & _ & _ & Hfila & Hact' & Hw).
  rewrite Hact' in Hact. injection Hact as -> ->.
  pose proof Hlen as [Hlen1 Hlen2]%Forall_app.
  inversion Hlen2 as [|? ? Hr6 Hlen3]; subst.
  assert (Hlen' : Forall (λ r, length r = 6%nat) (d1 ++ celdas fila' :: d2)).
  { apply Forall_app. split; [done|]. by constructor. }
  assert (Hok' : store_ok cwd fs').
  { eapply store_ok_write; [done..|]. by eexists. }
  split; [done|].
  destruct (registros_reemplazo fs fs' q _ (ok_names cwd _ Hok) (ok_names cwd _ Hok')
              (λ p, fs_write_file _ _ _ _ p Hw)) as (otros & Hantes & Hdespues & _).
  rewrite Hfile in Hantes. cbn [from_option] in Hantes.
  rewrite registros_filas in Hantes, Hdespues by done.
  rewrite fmap_app, fmap_cons in Hantes, Hdespues. cbn [compose] in Hantes, Hdespues.
  exists q, r,
    (((etiquetado (BASE ++ q) ∘ fila_de) <$> d1)
     ++ ((etiquetado (BASE ++ q) ∘ fila_de) <$> d2) ++ otros),
    (archivos_bajo fs BASE ≫= registros), (archivos_bajo fs' BASE ≫= registros).
  split_and!; [by apply store_ok_leer_todos..|done|done|done| |].
  - rewrite Hantes, <-app_assoc. cbn [app]. by rewrite <-Permutation_middle.
  - rewrite Hdespues, <-app_assoc. cbn [app]. by rewrite <-Permutation_middle.
Qed.

(** X7. After a successful creation the traversal returns the records it
    returned before and, besides them, the new one: the returned record with
    every value as text, tagged with the file of its team; the loops of
    [actualizar_jugador] and [eliminar_jugador] recognise it by the identifier
    that was returned. *)
Theorem alta_jugador_leer_todos (fs fs' : node) (rnd : N) (conferencia equipo : string)
    (jugador nuevo : dict) :
  let guardado := etiquetado (BASE ++ [conferencia; equipo; CSV_FILENAME])
                    ((VStr ∘ value_str) <$> nuevo) in
  plain_name conferencia → plain_name equipo →
  store_ok cwd fs →
  alta_jugador cwd rnd conferencia equipo jugador fs = (fs', Ok nuevo) →
  ∃ todos todos',
    leer_todos fs = Ok todos ∧ leer_todos fs' = Ok todos'
    ∧ todos' ≡ₚ todos ++ [guardado]
    ∧ nuevo !! Some "id" = Some (VStr (uuid_str (uuid4 rnd)))
    ∧ coincide (uuid_str (uuid4 rnd)) guardado = true.
Proof.
  intros guardado _ _ Hok Halta.
  destruct (alta_jugador_releer _ _ _ _ _ _ _ Hok Halta)
    as (_ & todos & todos' & Htodos & Htodos' & Hperm).
  destruct (alta_jugador_inv _ _ _ _ _ _ _ Hok Halta)
    as (_ & fila & _ & _ & Hfila & Hid & Htexto & _).
  exists todos, todos'. split_and!; [done..| |].
  - rewrite alta_jugador_eq in Halta.
    destruct (validar_nombre _); [|done]. cbn [negb] in Halta.
    destruct (validar_posicion _) as [[]|]; [|done..].
    destruct (validar_estadisticas _ _); [|done].
    destruct (asegurar_directorio _ _ _) as [fs1 [dir_path|]]; [|done].
    destruct (inicializar_csv_si_necesario _ _) as [fs2 [ruta_csv|]]; [|done].
    destruct (nuevo_jugador _ _) as [nuevo'|] eqn:Hnuevo; [|done].
    destruct (leer_csv _ _); [|done].
    destruct (escribir_csv _ _ _) as [fs3 [[]|]]; [|done]. injection Halta as _ <-.
    by destruct (nuevo_jugador_Ok _ _ _ Hnuevo) as (?&?&?&?&?&->).
  - subst guardado. rewrite Htexto, coincide_etiquetado by done.
    by apply bool_decide_eq_true_2.
Qed.

(** X8. After a successful deletion the traversal returns the records it
    returned before, without those that carry the identifier and come from
    the file of the first record that carries it. *)
Theorem eliminar_jugador_leer_todos (fs fs' : node) (jugador_id : string) :
  store_ok cwd fs →
  eliminar_jugador cwd jugador_id fs = (fs', Ok true) →
  ∃ ruta l1 j l2 todos',
    leer_todos fs = Ok (l1 ++ j :: l2)
    ∧ Forall (λ j' : dict, coincide jugador_id j' = false) l1
    ∧ coincide jugador_id j = true ∧ origen j = Ok ruta
    ∧ leer_todos fs' = Ok todos'
    ∧ todos' ≡ₚ filter (λ j', viene_de ruta j' && coincide jugador_id j' = false)
                  (l1 ++ j :: l2).
Proof.
  intros Hok Helim.
  destruct (eliminar_jugador_releer _ _ _ Hok Helim)
    as (q & l1 & r & l2 & todos' & Htodos & Hl1 & Hid & Hr & Htodos' & Hperm).
  exists (BASE ++ q), l1, (etiquetado (BASE ++ q) (fila_de r)), l2, todos'.
  split_and!; [done..| | |done|done].
  - by rewrite coincide_etiquetado, bool_decide_eq_true_2.
  - apply origen_etiquetado.
Qed.

(** X9. After a successful update the traversal returns the records it
    returned before, except that the record that was found now reads as the
    returned one printed: each field holds the text of the value returned. *)
Theorem actualizar_jugador_leer_todos (fs fs' : node) (jugador_id : string)
    (cambios fila' : dict) :
  store_ok cwd fs →
  actualizar_jugador cwd jugador_id cambios fs = (fs', Ok fila') →
  ∃ viejo nuevo otros todos todos',
    leer_todos fs = Ok todos ∧ leer_todos fs' = Ok todos'
    ∧ todos ≡ₚ viejo :: otros ∧ todos' ≡ₚ nuevo :: otros
    ∧ coincide jugador_id viejo = true ∧ coincide jugador_id nuevo = true
    ∧ nuevo !! Some "_origen" = viejo !! Some "_origen"
    ∧ (∀ k v, k ∈ CSV_HEADERS → fila' !! Some k = Some v →
              nuevo !! Some k = Some (VStr (csv_cell v))).
Proof.
  intros Hok Hact.
  destruct (actualizar_jugador_releer _ _ _ _ _ Hok Hact)
    as (_ & q & r & otros & todos & todos' & Htodos & Htodos' & Hid & Hr & Hfila
        & Hperm & Hperm').
  exists (etiquetado (BASE ++ q) (fila_de r)),
    (etiquetado (BASE ++ q) (fila_de (celdas fila'))), otros, todos, todos'.
  split_and!; [done..| | | |].
  - by rewrite coincide_etiquetado, bool_decide_eq_true_2.
  - rewrite coincide_etiquetado by apply celdas_length. apply bool_decide_eq_true_2.
    destruct (actualizar_fila_fila_de cambios r Hr) as (fila'' & Hfila'' & _ & _ & Hresto).
    rewrite Hfila in Hfila''. injection Hfila'' as <-.
    pose proof (Hresto (Some "id")) as Hcell.
    rewrite <-Hid. unfold id_de, celdas. cbn [fmap list_fmap CSV_HEADERS head default].
    unfold dict_get. rewrite Hcell.
    + apply seis in Hr as (a&b&c&d&e&f&->). reflexivity.
    + unfold campos_editables. rewrite !fmap_cons.
      repeat (apply not_elem_of_cons; split; [done|]). apply not_elem_of_nil.
  - unfold etiquetado. by rewrite !lookup_insert_eq.
  - intros k v Hk Hv. unfold etiquetado. rewrite lookup_insert_ne.
    + rewrite fila_de_celdas by done. unfold dict_get. by rewrite Hv.
    + intros [= <-]. repeat (apply elem_of_cons in Hk as [?|Hk]); try done.
      by apply elem_of_nil in Hk.
Qed.

(** X10. Deleting the identifier a creation returned, when no earlier record
    carried it, undoes the creation: the deletion answers [True], the team's
    file holds the rows it held before (the header alone when the creation
    made the file), every other file is as before the creation, and the
    identifier is absent again. *)
Theorem alta_jugador_eliminar_jugador (fs fs' : node) (rnd : N)
    (conferencia equipo : string) (jugador nuevo : dict) :
  let ruta := BASE ++ [conferencia; equipo; CSV_FILENAME] in
  let id := uuid_str (uuid4 rnd) in
  plain_name conferencia → plain_name equipo →
  store_ok cwd fs → ¬ presente cwd fs id →
  alta_jugador cwd rnd conferencia equipo jugador fs = (fs', Ok nuevo) →
  presente cwd fs' id
  ∧ ∃ fs'',
      eliminar_jugador cwd id fs' = (fs'', Ok true)
      ∧ fs_file fs'' ruta = Some (default [CSV_HEADERS] (fs_file fs ruta))
      ∧ (∀ p, p ≠ ruta → fs_file fs'' p = fs_file fs p)
      ∧ ¬ presente cwd fs'' id.
Proof.
  intros ruta id _ _ Hok Habs Halta.
  assert (Hok' : store_ok cwd fs').
  { pose proof (alta_jugador_store_ok cwd rnd conferencia equipo jugador fs Hok) as Hok'.
    by rewrite Halta in Hok'. }
  destruct (alta_jugador_inv _ _ _ _ _ _ _ Hok Halta)
    as (data & fila & Hprev & Hdata & Hfila & Hid & _ & Hfiles & Hwf').
  fold ruta in Hprev, Hfiles. fold id in Hid.
  pose proof (basename_ruta conferencia equipo) as Hb. fold ruta in Hb.
  assert (Hno : Forall (λ r, id_de r ≠ id) data).
  { destruct Hprev as [Hprev|[_ ->]]; [|constructor].
    apply Forall_forall. intros r Hr Heq. apply Habs.
    by exists [conferencia; equipo; CSV_FILENAME], data, r. }
  assert (Hpres : presente cwd fs' id).
  { exists [conferencia; equipo; CSV_FILENAME], (data ++ [fila]), fila.
    split_and!; [by rewrite Hfiles, decide_True|done| |done].
    apply elem_of_app. right. by apply list_elem_of_singleton. }
  split; [done|].
  destruct (eliminar_encontrado cwd _ _ Hok' Hpres)
    as (q & data' & l1 & r & l2 & fs'' & Hb' & Hfile' & Hdata' & Hr & Hidr & _ & _
        & Helim & Hw).
  assert (Hq : BASE ++ q = ruta).
  { destruct (decide (BASE ++ q = ruta)) as [|Hne]; [done|]. destruct Habs.
    rewrite Hfiles, decide_False in Hfile' by done. by exists q, data', r. }
  rewrite Hq in Hfile', Hw. rewrite Hfiles, decide_True in Hfile' by done.
  injection Hfile' as <-.
  rewrite filter_app, (filter_todos _ _ Hno), filter_cons_False, filter_nil, app_nil_r in Hw
    by (by intros ?).
  assert (Hfiles'' : ∀ p, fs_file fs'' p
            = if decide (p = ruta) then Some (CSV_HEADERS :: data) else fs_file fs p).
  { intros p. rewrite (fs_write_file _ _ _ _ _ Hw). case_decide; [done|].
    by rewrite Hfiles, decide_False. }
  exists fs''. split_and!; [done| | |].
  - rewrite Hfiles'', decide_True by done. by destruct Hprev as [->|[-> ->]].
  - intros p Hp. by rewrite Hfiles'', decide_False.
  - intros (q2 & data2 & r2 & Hfile2 & Hb2 & Hr2 & Hid2).
    rewrite Hfiles'' in Hfile2. case_decide.
    + injection Hfile2 as <-. rewrite Forall_forall in Hno. by apply (Hno r2).
    + apply Habs. by exists q2, data2, r2.
Qed.

Lemma actualizar_fila_sin_cambios (cambios : dict) (r : list string) :
  length r = 6%nat → (∀ k, k ∈ campos_editables → cambios !! Some k = None) →
  actualizar_fila cambios (fila_de r) = Ok (fila_de r).
Proof.
  intros Hr Hnada.
  destruct (actualizar_fila_fila_de cambios r Hr) as (fila' & -> & _ & Hedit & Hresto).
  f_equal. apply map_eq. intros k.
  destruct (decide (k ∈ Some <$> campos_editables)) as [Hk|Hk]; [|by apply Hresto].
  apply list_elem_of_fmap in Hk as (c & -> & Hc).
  rewrite (Hedit c Hc). unfold dict_get. rewrite (Hnada c Hc).
  clear -Hr Hc. apply seis in Hr as (a&b&c'&d&e&f&->).
  unfold campos_editables in Hc.
  repeat (apply elem_of_cons in Hc as [->|Hc]; [reflexivity|]).
  by apply elem_of_nil in Hc.
Qed.

(** X11. An update whose changes name none of the five editable fields finds
    the record, returns it as stored and leaves the filesystem exactly as it
    was. *)
Theorem actualizar_jugador_sin_cambios (fs : node) (jugador_id : string) (cambios : dict) :
  store_ok cwd fs → presente cwd fs jugador_id →
  (∀ k, k ∈ campos_editables → cambios !! Some k = None) →
  ∃ q data r,
    fs_file fs (BASE ++ q) = Some (CSV_HEADERS :: data)
    ∧ r ∈ data ∧ id_de r = jugador_id
    ∧ actualizar_jugador cwd jugador_id cambios fs = (fs, Ok (fila_de r)).
Proof.
  intros Hok Hpres Hnada.
  destruct (actualizar_encontrado cwd _ _ cambios Hok Hpres)
    as (q & d1 & r & d2 & l1 & l2 & fila' & fs' & Hb & Hfile & Hlen & _ & Hid
        & _ & _ & Hfila & Hact & Hw).
  pose proof Hlen as [Hlen1 Hlen2]%Forall_app.
  inversion Hlen2 as [|? ? Hr6 Hlen3]; subst.
  rewrite actualizar_fila_sin_cambios in Hfila by done. injection Hfila as <-.
  rewrite celdas_fila_de in Hw by done.
  rewrite (fs_write_same _ _ _ Hfile) in Hw. injection Hw as <-.
  exists q, (d1 ++ r :: d2), r. split_and!; [done| |done|done].
  apply elem_of_app. right. apply elem_of_cons. by left.
Qed.

(** ** Statistics over stored records *)

Lemma estadistica_campo (c : string) :
  c ∈ ["puntos"; "rebotes"; "asistencias"] → c ∈ CSV_HEADERS ∧ c ∈ campos_editables.
Proof.
  intros Hc. repeat (apply elem_of_cons in Hc as [->|Hc]; [split; repeat constructor|]).
  by apply elem_of_nil in Hc.
Qed.

Lemma columna_cons (campo : string) (j : dict) (l : list dict) :
  columna campo (j :: l)
  = x ← getitem j campo ≫= py_float; xs ← columna campo l; Ok (x :: xs).
Proof. done. Qed.

Lemma columna_textos (campo : string) (l : list dict) :
  Forall (λ j : dict, ∃ t, j !! Some campo = Some (VStr t)) l →
  (∃ xs, columna campo l = Ok xs) ∨ (∃ msg, columna campo l = Raise (ValueError msg)).
Proof.
  induction 1 as [|j l [t Ht] _ IH]; [left; by eexists|].
  rewrite columna_cons. unfold getitem. rewrite Ht. cbn [mbind result_bind py_float].
  destruct (float_of_str t) as [x|]; cbn [from_option mbind result_bind]; [|right; by eexists].
  destruct IH as [[xs ->]|[msg ->]]; [left|right]; by eexists.
Qed.

Lemma columna_texto_malo (campo : string) (l : list dict) :
  Forall (λ j : dict, ∃ t, j !! Some campo = Some (VStr t)) l →
  Exists (λ j : dict, ∃ t, j !! Some campo = Some (VStr t) ∧ float_of_str t = None) l →
  ∃ msg, columna campo l = Raise (ValueError msg).
Proof.
  induction 1 as [|j l [t Ht] _ IH]; intros Hex; [by apply Exists_nil in Hex|].
  rewrite columna_cons. unfold getitem. rewrite Ht. cbn [mbind result_bind py_float].
  destruct (float_of_str t) as [x|] eqn:Hx; cbn [from_option mbind result_bind];
    [|by eexists].
  apply Exists_cons in Hex as [(t' & Ht' & Hmalo)|Hex]; [congruence|].
  destruct (IH Hex) as [msg ->]. by eexists.
Qed.

Lemma estadisticas_globales_texto_malo (campo : string) (l : list dict) :
  campo ∈ ["puntos"; "rebotes"; "asistencias"] →
  Forall (λ j : dict, ∀ c, c ∈ ["puntos"; "rebotes"; "asistencias"] →
                           ∃ t, j !! Some c = Some (VStr t)) l →
  Exists (λ j : dict, ∃ t, j !! Some campo = Some (VStr t) ∧ float_of_str t = None) l →
  ∃ msg, estadisticas_globales l = Raise (ValueError msg).
Proof.
  intros Hcampo Hall Hex.
  assert (Hcol : ∀ c, c ∈ ["puntos"; "rebotes"; "asistencias"] →
            Forall (λ j : dict, ∃ t, j !! Some c = Some (VStr t)) l).
  { intros c Hc. eapply Forall_impl; [exact Hall|]. intros j Hj. by apply Hj. }
  pose proof (columna_texto_malo campo l (Hcol _ Hcampo) Hex) as Hmalo.
  unfold estadisticas_globales.
  destruct l as [|j l]; [by apply Exists_nil in Hex|]. cbn [length Nat.eqb].
  destruct (columna_textos "puntos" (j :: l)) as [[xp Hp]|[msg Hp]];
    [apply Hcol; repeat constructor| |rewrite Hp; by eexists].
  destruct (columna_textos "rebotes" (j :: l)) as [[xr Hr]|[msg Hr]];
    [apply Hcol; repeat constructor| |rewrite Hp, Hr; by eexists].
  destruct (columna_textos "asistencias" (j :: l)) as [[xa Ha]|[msg Ha]];
    [apply Hcol; repeat constructor| |rewrite Hp, Hr, Ha; by eexists].
  destruct Hmalo as [msg Hmalo].
  repeat (apply elem_of_cons in Hcampo as [->|Hcampo]; [congruence|]).
  by apply elem_of_nil in Hcampo.
Qed.

Lemma actualizar_fila_campo (cambios fila' : dict) (r : list string) (k : string)
    (v : value) :
  length r = 6%nat → actualizar_fila cambios (fila_de r) = Ok fila' →
  k ∈ campos_editables → cambios !! Some k = Some v → fila' !! Some k = Some v.
Proof.
  intros Hr Hfila Hk Hv.
  destruct (actualizar_fila_fila_de cambios r Hr) as (fila'' & Hfila'' & _ & Hedit & _).
  rewrite Hfila in Hfila''. injection Hfila'' as <-.
  rewrite (Hedit _ Hk). unfold dict_get. by rewrite Hv.
Qed.

(** The statistics after an update that stored a text that is no number. *)
Lemma estadisticas_tras_actualizar (fs fs' : node) (jugador_id campo texto : string)
    (cambios fila' : dict) :
  store_ok cwd fs →
  actualizar_jugador cwd jugador_id cambios fs = (fs', Ok fila') →
  campo ∈ ["puntos"; "rebotes"; "asistencias"] →
  fila' !! Some campo = Some (VStr texto) → float_of_str texto = None →
  ∃ todos' msg,
    leer_todos fs' = Ok todos' ∧ estadisticas_globales todos' = Raise (ValueError msg).
Proof.
  intros Hok Hact Hcampo Hvalor Hmalo.
  destruct (actualizar_jugador_releer _ _ _ _ _ Hok Hact)
    as (Hok' & q & r & otros & todos & todos' & _ & Htodos' & _ & Hr & Hfila & _ & Hperm).
  assert (Hh : campo ∈ CSV_HEADERS) by by apply estadistica_campo.
  destruct (store_ok_registros fs' Hok') as (todos2 & Htodos2 & Hall).
  rewrite Htodos' in Htodos2. injection Htodos2 as <-.
  destruct (estadisticas_globales_texto_malo campo todos' Hcampo) as [msg Hmsg].
  - eapply Forall_impl; [exact Hall|]. intros j (p & r' & -> & Hr' & _) c Hc.
    assert (c ∈ CSV_HEADERS) as Hc' by by apply estadistica_campo.
    rewrite etiquetado_campo by done. by apply fila_de_texto.
  - apply Exists_exists. exists (etiquetado (BASE ++ q) (fila_de (celdas fila'))). split.
    + rewrite Hperm. apply elem_of_cons. by left.
    + exists texto. split; [|done].
      rewrite etiquetado_campo, fila_de_celdas by done. unfold dict_get. by rewrite Hvalor.
  - by exists todos', msg.
Qed.

(** X12. [actualizar_jugador] does not validate: a statistic can be set to a
    text that is no number; the update succeeds and returns it, and from then
    on [estadisticas_globales] of the records of the hierarchy raises
    [ValueError]. *)
Theorem actualizar_jugador_no_valida (fs : node) (jugador_id campo texto : string)
    (cambios : dict) :
  store_ok cwd fs → presente cwd fs jugador_id →
  campo ∈ ["puntos"; "rebotes"; "asistencias"] →
  cambios !! Some campo = Some (VStr texto) → float_of_str texto = None →
  ∃ fs' fila' todos' msg,
    actualizar_jugador cwd jugador_id cambios fs = (fs', Ok fila')
    ∧ fila' !! Some campo = Some (VStr texto)
    ∧ leer_todos fs' = Ok todos'
    ∧ estadisticas_globales todos' = Raise (ValueError msg).
Proof.
  intros Hok Hpres Hcampo Hcambio Hmalo.
  destruct (actualizar_encontrado cwd _ _ cambios Hok Hpres)
    as (q & d1 & r & d2 & l1 & l2 & fila' & fs' & _ & _ & Hlen & _ & _ & _ & _ & Hfila
        & Hact & _).
  apply Forall_app in Hlen as [_ Hlen]. inversion_clear Hlen as [|? ? Hr _].
  assert (Hed : campo ∈ campos_editables) by by apply estadistica_campo.
  pose proof (actualizar_fila_campo _ _ _ _ _ Hr Hfila Hed Hcambio) as Hvalor.
  destruct (estadisticas_tras_actualizar _ _ _ _ _ _ _ Hok Hact Hcampo Hvalor Hmalo)
    as (todos' & msg & Htodos' & Hmsg).
  by exists fs', fila', todos', msg.
Qed.

(** ** The layout is an invariant *)

(** X13. The layout of the hierarchy is an invariant of the program: it holds
    when [BASE_DIR] does not exist yet, every creation, update and deletion
    keeps it whether it returns or raises, and in a hierarchy that has it the
    traversal raises nothing and returns records that hold the six fields as
    text and the path of an existing file called [players.csv]. *)
Theorem store_ok_invariante (fs : node) (ops : list operacion) :
  let fs' := foldl (ejecutar cwd) fs ops in
  (wf_node fs ∧ fs_lookup fs BASE = None) ∨ store_ok cwd fs →
  Forall nombres_simples ops →
  store_ok cwd fs'
  ∧ ∃ todos,
      leer_todos fs' = Ok todos
      ∧ Forall (λ j : dict,
                  (∀ k, k ∈ CSV_HEADERS → ∃ t, j !! Some k = Some (VStr t))
                  ∧ ∃ p, origen j = Ok p ∧ basename p = CSV_FILENAME
                         ∧ is_Some (fs_file fs' p)) todos.
Proof.
  intros fs' Hini _.
  assert (Hok : store_ok cwd fs).
  { destruct Hini as [[Hwf Hnone]|Hok]; [by apply store_ok_sin_base|done]. }
  assert (Hok' : store_ok cwd fs').
  { subst fs'. clear Hini. revert fs Hok.
    induction ops as [|op ops IH]; intros fs Hok; [done|]. cbn [foldl]. apply IH.
    destruct op as [rnd conferencia equipo jugador|jugador_id cambios|jugador_id]; simpl.
    - by apply alta_jugador_store_ok.
    - by apply actualizar_jugador_store_ok.
    - by apply eliminar_jugador_store_ok. }
  split; [done|].
  destruct (store_ok_registros fs' Hok') as (todos & Htodos & Hall).
  exists todos. split; [done|].
  eapply Forall_impl; [exact Hall|]. intros j (p & r & -> & Hr & Hb & Hfile). split.
  - intros k Hk. rewrite etiquetado_campo by done. by apply fila_de_texto.
  - exists p. split_and!; [apply origen_etiquetado|done..].
Qed.

Lemma inicializar_csv_Raise (ruta_dir : path) (fs1 fs2 : node) (e : exn) :
  inicializar_csv_si_necesario ruta_dir fs1 = (fs2, Raise e) → fs2 = fs1.
Proof.
  unfold inicializar_csv_si_necesario. destruct (negb _); [|done].
  destruct (fs_write _ _ _); [done|]. by intros [= <-].
Qed.

(** X14. A creation never touches a file other than the team's, whatever
    its outcome.  When it returns, the team's file holds one more row, at the
    end; when it raises, the team's file is as before, or it did not exist
    and now holds the header row alone. *)
Theorem alta_jugador_conserva (fs fs' : node) (rnd : N) (conferencia equipo : string)
    (jugador : dict) (res : result dict) :
  let ruta := BASE ++ [conferencia; equipo; CSV_FILENAME] in
  plain_name conferencia → plain_name equipo → store_ok cwd fs →
  alta_jugador cwd rnd conferencia equipo jugador fs = (fs', res) →
  (∀ p, p ≠ ruta → fs_file fs' p = fs_file fs p)
  ∧ match res with
    | Ok _ =>
        ∃ fila, length fila = 6%nat
          ∧ fs_file fs' ruta = Some (default [CSV_HEADERS] (fs_file fs ruta) ++ [fila])
    | Raise _ =>
        fs_file fs' ruta = fs_file fs ruta
        ∨ (fs_file fs ruta = None ∧ fs_file fs' ruta = Some [CSV_HEADERS])
    end.
Proof.
  intros ruta _ _ Hok Halta. pose proof Halta as Halta0.
  rewrite alta_jugador_eq in Halta.
  destruct (validar_nombre _); cbn [negb] in Halta.
  2:{ injection Halta as <- <-. by split; [|left]. }
  destruct (validar_posicion _) as [[]|].
  2,3: injection Halta as <- <-; by split; [|left].
  destruct (validar_estadisticas _ _).
  2:{ injection Halta as <- <-. by split; [|left]. }
  destruct (asegurar_directorio _ _ _) as [fs1 [dir_path|]] eqn:Hdir.
  2:{ unfold asegurar_directorio in Hdir. destruct (fs_makedirs _ _); [done|].
      injection Hdir as <- <-. injection Halta as <- <-. by split; [|left]. }
  apply asegurar_directorio_Ok in Hdir as [-> Hmk].
  assert (Hfs1 : ∀ q, fs_file fs1 q = fs_file fs q).
  { intros q. by apply (fs_makedirs_file _ _ _ _ Hmk). }
  destruct (inicializar_csv_si_necesario _ _) as [fs2 [ruta_csv|]] eqn:Hini.
  2:{ apply inicializar_csv_Raise in Hini as ->. injection Halta as <- <-.
      by split; [|left]. }
  assert (Hfs2 : (∀ p, p ≠ ruta → fs_file fs2 p = fs_file fs p)
                 ∧ (fs_file fs2 ruta = fs_file fs ruta
                    ∨ (fs_file fs ruta = None ∧ fs_file fs2 ruta = Some [CSV_HEADERS]))).
  { pose proof Hini as [-> Hcasos]%inicializar_csv_Ok.
    rewrite <-app_assoc in Hcasos. cbn [app] in Hcasos. fold ruta in Hcasos.
    destruct Hcasos as [[_ ->]|[Hnone Hw]]; [by split; [|left]|].
    pose proof (λ p, fs_write_file _ _ _ _ p Hw) as Hf. split.
    - intros p Hp. by rewrite Hf, decide_False.
    - right. rewrite Hf, decide_True by done. split; [|done].
      rewrite <-Hfs1. unfold fs_file. by rewrite Hnone. }
  destruct (nuevo_jugador _ _) as [nuevo|] eqn:Hnuevo.
  2:{ by injection Halta as <- <-. }
  destruct (leer_csv fs2 ruta_csv) as [jugadores|] eqn:Hleer.
  2:{ by injection Halta as <- <-. }
  destruct (alta_jugador_archivo _ _ _ _ _ _ _ Hok Hmk Hini Hleer)
    as (-> & data & Hprev & Hdata & Hfile2 & -> & Hfs2' & Hwf2).
  destruct (escribir_csv_nuevo _ _ _ _ _ _ Hfile2 Hdata Hnuevo)
    as (fila & fs3 & Hfila & Hid & Htexto & Hesc & Hw).
  rewrite Hesc in Halta. injection Halta as <- <-.
  pose proof (λ p, fs_write_file _ _ _ _ p Hw) as Hf. split.
  - intros p Hp. rewrite Hf, decide_False by done. by apply Hfs2'.
  - exists fila. split; [done|]. rewrite Hf, decide_True by done. unfold ruta.
    by destruct Hprev as [->|[-> ->]].
Qed.

Lemma fs_file_isdir (fs : node) (d : path) (name : string) (rows : list (list string)) :
  fs_file fs (d ++ [name]) = Some rows → fs_isdir fs d = true.
Proof.
  unfold fs_isdir. intros Hfile%fs_file_Some. rewrite fs_lookup_app in Hfile.
  destruct (fs_lookup fs d) as [[r|es]|]; done.
Qed.

Lemma fila_larga_invalida (r : list string) :
  (6 < length r)%nat → campos_validos (fila_de r) = false.
Proof.
  intros Hr. apply bool_decide_eq_false_2. intros Hall.
  assert (None ∈ Some <$> CSV_HEADERS) as Hin.
  { apply Hall, elem_of_dom. unfold dict_reader_row.
    replace (length CSV_HEADERS <? length r)%nat with true
      by (symmetry; apply Nat.ltb_lt; simpl; lia).
    rewrite lookup_insert_eq. by eexists. }
  by apply list_elem_of_fmap in Hin as (k & [=] & _).
Qed.

(** X15. Outside the layout a creation can destroy records: when the team's
    file holds a row of more than six cells, a creation that passes every
    validation raises [ValueError] while rewriting the file, which is left with
    the rows before the long one only; that row and all that follow are
    lost, and the new record is not stored. *)
Theorem alta_jugador_fila_larga (fs : node) (rnd : N) (conferencia equipo : string)
    (jugador nuevo : dict) (d1 : list (list string)) (r : list string)
    (d2 : list (list string)) :
  let ruta := BASE ++ [conferencia; equipo; CSV_FILENAME] in
  plain_name conferencia → plain_name equipo →
  fs_file fs ruta = Some (CSV_HEADERS :: d1 ++ r :: d2) →
  Forall (λ r, length r = 6%nat) d1 → (6 < length r)%nat →
  validar_nombre (dict_get jugador "nombre" (VStr "")) = true →
  validar_posicion (dict_get jugador "posicion" (VStr "")) = Ok true →
  validar_estadisticas jugador ["puntos"; "rebotes"; "asistencias"] = Ok () →
  nuevo_jugador rnd jugador = Ok nuevo →
  ∃ fs' msg,
    alta_jugador cwd rnd conferencia equipo jugador fs = (fs', Raise (ValueError msg))
    ∧ fs_file fs' ruta = Some (CSV_HEADERS :: d1)
    ∧ (∀ p, p ≠ ruta → fs_file fs' p = fs_file fs p).
Proof.
  intros ruta _ _ Hfile Hd1 Hr Hnombre Hposicion Hstats Hnuevo.
  assert (Hruta : ruta = (BASE ++ [conferencia; equipo]) ++ [CSV_FILENAME]).
  { subst ruta. by rewrite <-app_assoc. }
  assert (Hdir : fs_isdir fs (BASE ++ [conferencia; equipo]) = true).
  { rewrite Hruta in Hfile. by eapply fs_file_isdir. }
  assert (Hleer : leer_csv fs ruta
            = Ok ((fila_de <$> d1) ++ fila_de r :: (fila_de <$> filter (λ r, r ≠ []) d2))).
  { rewrite (leer_csv_file _ _ _ Hfile). unfold dict_reader.
    rewrite filter_app, filter_cons_True by (intros ->; simpl in Hr; lia).
    rewrite fmap_app, fmap_cons. do 3 f_equal. apply filter_todos.
    eapply Forall_impl; [exact Hd1|]. by intros [|]. }
  assert (Hrows : ∀ resto, writerows ((fila_de <$> d1) ++ fila_de r :: resto)
            = (d1, Raise (ValueError "dict contains fields not in fieldnames"))).
  { intros resto. rewrite writerows_app, writerows_filas, writerows_cons by done.
    rewrite dict_to_list_celdas, fila_larga_invalida by done. by rewrite app_nil_r. }
  destruct (fs_write_existing fs ruta _ (CSV_HEADERS :: d1) Hfile) as [fs' Hw].
  exists fs', "dict contains fields not in fieldnames". split_and!.
  - rewrite alta_jugador_eq, Hnombre, Hposicion, Hstats. cbn [negb].
    unfold asegurar_directorio. rewrite (fs_makedirs_existing _ _ Hdir).
    unfold inicializar_csv_si_necesario, fs_exists, path_join. rewrite <-Hruta.
    pose proof Hfile as Hl%fs_file_Some.
    rewrite bool_decide_eq_true_2 by by rewrite Hl. cbn [negb].
    rewrite Hnuevo, Hleer, <-app_assoc. cbn [app].
    by rewrite (escribir_csv_write _ _ _ _ _ _ (Hrows _) Hw).
  - by rewrite (fs_write_file _ _ _ _ _ Hw), decide_True.
  - intros p Hp. by rewrite (fs_write_file _ _ _ _ _ Hw), decide_False.
Qed.

(** X16. Two invalid inputs escape the [ValueError] of the validations: a
    position that is no text raises [AttributeError], and a statistic given
    as an integer too large for a float raises [OverflowError]; in both cases
    nothing has been written. *)
Theorem alta_jugador_otras_excepciones (fs : node) (rnd : N)
    (conferencia equipo : string) (jugador : dict) :
  validar_nombre (dict_get jugador "nombre" (VStr "")) = true →
  (∀ v, jugador !! Some "posicion" = Some v →
        (∀ s, v ≠ VStr s) → (∀ p, v ≠ VPath p) →
        alta_jugador cwd rnd conferencia equipo jugador fs = (fs, Raise AttributeError))
  ∧ (∀ previas stat siguientes n,
       validar_posicion (dict_get jugador "posicion" (VStr "")) = Ok true →
       ["puntos"; "rebotes"; "asistencias"] = previas ++ stat :: siguientes →
       Forall (λ s, validar_estadistica (dict_get jugador s (VInt 0)) = Ok true) previas →
       jugador !! Some stat = Some (VInt n) → float_of_int n = None →
       alta_jugador cwd rnd conferencia equipo jugador fs = (fs, Raise OverflowError)).
Proof.
  intros Hnombre. split.
  - intros v Hv Hstr Hpath. rewrite alta_jugador_eq, Hnombre. cbn [negb].
    unfold dict_get. rewrite Hv. destruct v; try done; [by destruct (Hstr s)|by destruct (Hpath p)].
  - intros previas stat siguientes n Hposicion Hstats Hprevias Hn Hgrande.
    rewrite alta_jugador_eq, Hnombre, Hposicion, Hstats. cbn [negb].
    rewrite validar_estadisticas_app by done. cbn [validar_estadisticas].
    unfold dict_get at 1. rewrite Hn. unfold validar_estadistica. cbn [py_float].
    by rewrite Hgrande.
Qed.

Lemma columna_ext (campo : string) (l1 l2 : list dict) :
  Forall2 (λ j1 j2 : dict, j1 !! Some campo = j2 !! Some campo) l1 l2 →
  columna campo l1 = columna campo l2.
Proof.
  induction 1 as [|j1 j2 l1 l2 Hj _ IH]; [done|].
  rewrite !columna_cons, IH. unfold getitem. by rewrite Hj.
Qed.

(** X18. [estadisticas_globales] looks at the three statistics of each record
    and at nothing else: two lists of records that agree, place by place, on
    [puntos], [rebotes] and [asistencias] give the same result, be it a
    dictionary or an exception. *)
Theorem estadisticas_globales_solo_estadisticas (l1 l2 : list dict) :
  Forall2 (λ j1 j2 : dict, ∀ c, c ∈ ["puntos"; "rebotes"; "asistencias"] →
                                j1 !! Some c = j2 !! Some c) l1 l2 →
  estadisticas_globales l1 = estadisticas_globales l2.
Proof.
  intros Hall. unfold estadisticas_globales.
  rewrite <-(Forall2_length _ _ _ Hall).
  assert (Hcol : ∀ c, c ∈ ["puntos"; "rebotes"; "asistencias"] →
            columna c l1 = columna c l2).
  { intros c Hc. apply columna_ext. eapply Forall2_impl; [exact Hall|].
    intros j1 j2 Hj. by apply Hj. }
  rewrite !Hcol; [done|repeat constructor..].
Qed.

End Composition.

(** * The menu *)

Section Sessions.
Context `{PyBuiltins}.
Variable cwd : path.

Local Abbreviation key := (option string).
Local Abbreviation dict := (gmap key value).
Local Abbreviation BASE := (BASE_DIR cwd).
Local Abbreviation fila_de := (dict_reader_row CSV_HEADERS).
Local Abbreviation leer_todos := (leer_todos_los_jugadores cwd None).
Local Abbreviation Inv := (en_orden cwd).
Local Abbreviation Err := (fin_en_orden cwd).


Lemma triple_pre {A} (P P' : consola → Prop) (m : sesion A)
    (Q : A → consola → Prop) (E : fin → consola → Prop) :
  (∀ st, P st → P' st) → triple P' m Q E → triple P m Q E.
Proof. intros HP Hm st Hst. by apply Hm, HP. Qed.








Lemma store_ok_campos (fs : node) :
  store_ok cwd fs →
  ∃ todos, leer_todos fs = Ok todos
    ∧ Forall (λ j : dict, ∀ c, c ∈ CSV_HEADERS → is_Some (j !! Some c)) todos.
Proof.
  intros Hok. destruct (store_ok_registros cwd fs Hok) as (todos & Htodos & Hall).
  exists todos. split; [done|]. eapply Forall_impl; [exact Hall|].
  intros j (p & r & -> & Hr & _) c Hc. rewrite etiquetado_campo by done.
  destruct (fila_de_texto r c Hr Hc) as [t ->]. by eexists.
Qed.












Lemma vuelta_linea (st : consola) (linea : string) (resto : list string) :
  entrada st = linea :: resto →
  ∃ visto,
    vuelta cwd st
    = opcion cwd (str_strip linea)
        (Consola (disco st) resto (azar st) (creaciones st) (pantalla st ++ visto)).
Proof.
  intros Hentrada. eexists.
  unfold vuelta, cartel, mbind, sesion_bind, print, input.
  cbn [disco entrada azar creaciones pantalla]. rewrite Hentrada.
  rewrite <-!app_assoc. reflexivity.
Qed.

(** X20. The menu can break its own statistics: option 3 accepts any text
    for a statistic of a stored player and reports the update; the next
    option 5 then ends the whole session with an uncaught [ValueError], and
    the lines that follow are never read. *)
Theorem menu_actualizar_rompe_estadisticas (st : consola)
    (op3 op5 jugador_id campo texto : string) (resto : list string) (n : nat) :
  store_ok cwd (disco st) → presente cwd (disco st) jugador_id →
  campo ∈ ["puntos"; "rebotes"; "asistencias"] → float_of_str texto = None →
  str_strip op3 = "3" → str_strip op5 = "5" →
  entrada st = op3 :: jugador_id :: campo :: texto :: op5 :: resto →
  ∃ st' fila' msg,
    menu cwd (S (S n)) st = (st', Some (Excepcion (ValueError msg)))
    ∧ entrada st' = resto
    ∧ Actualizado fila' ∈ pantalla st'
    ∧ fila' !! Some campo = Some (VStr texto)
    ∧ (actualizar_jugador cwd jugador_id {[Some campo := VStr texto]} (disco st)).1
      = disco st'.
Proof.
  intros Hok Hpres Hcampo Hmalo Hs3 Hs5 Hentrada.
  destruct (actualizar_encontrado cwd _ _ {[Some campo := VStr texto]} Hok Hpres)
    as (q & d1 & r & d2 & l1 & l2 & fila' & fs' & _ & _ & Hlen & _ & _ & _ & _ & Hfila
        & Hact & _).
  apply Forall_app in Hlen as [_ Hlen]. inversion_clear Hlen as [|? ? Hr _].
  assert (Hed : campo ∈ campos_editables) by by apply estadistica_campo.
  pose proof (actualizar_fila_campo _ _ _ _ _ Hr Hfila Hed (lookup_singleton_eq _ _))
    as Hvalor.
  destruct (estadisticas_tras_actualizar _ _ _ _ _ _ _ _ Hok Hact Hcampo Hvalor Hmalo)
    as (todos' & msg & Htodos' & Hmsg).
  destruct (vuelta_linea st _ _ Hentrada) as [visto1 Hv1].
  cbn [menu]. rewrite Hv1, Hs3.
  change (opcion cwd "3") with (opcion_3 cwd).
  unfold opcion_3, mbind, sesion_bind, input, intentar, print.
  cbn [disco entrada azar creaciones pantalla]. rewrite Hact.
  cbn [disco entrada azar creaciones pantalla].
  match goal with |- context [vuelta cwd ?st1] =>
    destruct (vuelta_linea st1 op5 resto eq_refl) as [visto2 Hv2]; rewrite Hv2 end.
  rewrite Hs5. change (opcion cwd "5") with (opcion_5 cwd).
  unfold opcion_5, mbind, sesion_bind, llamar, reading, pure.
  cbn [disco entrada azar creaciones pantalla]. rewrite Htodos'.
  cbn [disco entrada azar creaciones pantalla]. rewrite Hmsg.
  cbv beta iota zeta. eexists _, fila', msg. split_and!; [reflexivity|done| |done|done].
  cbn [pantalla]. apply elem_of_app. left. apply elem_of_app. right.
  by apply list_elem_of_singleton.
Qed.

(** X21. Option 3 does not check the name of the field: for a stored player
    and a field that is none of the five editable ones, the round reports the
    update, showing the record as stored, and the filesystem is exactly as it
    was. *)
Theorem menu_campo_desconocido (st : consola) (op3 jugador_id campo valor : string)
    (resto : list string) :
  store_ok cwd (disco st) → presente cwd (disco st) jugador_id →
  campo ∉ campos_editables → str_strip op3 = "3" →
  entrada st = op3 :: jugador_id :: campo :: valor :: resto →
  ∃ visto r,
    vuelta cwd st
    = (Consola (disco st) resto (azar st) (creaciones st)
         (pantalla st ++ visto ++ [Actualizado (fila_de r)]), Sigue ())
    ∧ id_de r = jugador_id ∧ length r = 6%nat.
Proof.
  intros Hok Hpres Hcampo Hs3 Hentrada.
  assert (Hnada : ∀ k, k ∈ campos_editables →
            ({[Some campo := VStr valor]} : dict) !! Some k = None).
  { intros k Hk. apply lookup_singleton_ne. intros [= ->]. done. }
  destruct (actualizar_encontrado cwd _ _ {[Some campo := VStr valor]} Hok Hpres)
    as (q & d1 & r & d2 & l1 & l2 & fila' & fs' & _ & Hfile & Hlen & _ & Hid & _ & _
        & Hfila & Hact & Hw).
  pose proof Hlen as [_ Hlen2]%Forall_app. inversion_clear Hlen2 as [|? ? Hr _].
  rewrite actualizar_fila_sin_cambios in Hfila by done. injection Hfila as <-.
  rewrite celdas_fila_de in Hw by done.
  rewrite (fs_write_same _ _ _ Hfile) in Hw. injection Hw as <-.
  destruct (vuelta_linea st _ _ Hentrada) as [visto1 Hv1].
  exists (visto1
          ++ [Pregunta "ID del jugador a actualizar: ";
              Pregunta "Campo a modificar (nombre/posicion/puntos/rebotes/asistencias): ";
              Pregunta "Nuevo valor: "]), r.
  split_and!; [|done..].
  rewrite Hv1, Hs3. change (opcion cwd "3") with (opcion_3 cwd).
  unfold opcion_3, mbind, sesion_bind, input, intentar, print.
  cbn [disco entrada azar creaciones pantalla]. rewrite Hact.
  cbn [disco entrada azar creaciones pantalla]. cbv beta iota zeta.
  rewrite <-!app_assoc. cbn [app]. reflexivity.
Qed.

Lemma listar_pantalla (todos : list dict) (st : consola) :
  Forall (λ j : dict, ∀ c, c ∈ CSV_HEADERS → is_Some (j !! Some c)) todos →
  listar todos st
  = (Consola (disco st) (entrada st) (azar st) (creaciones st)
       (pantalla st ++ (ficha <$> todos)), Sigue ()).
Proof.
  intros Hall. revert st. induction Hall as [|j todos Hj _ IH]; intros st.
  { simpl. rewrite app_nil_r. by destruct st. }
  destruct (Hj "nombre") as [v1 H1]; [repeat constructor|].
  destruct (Hj "posicion") as [v2 H2]; [repeat constructor|].
  destruct (Hj "puntos") as [v3 H3]; [repeat constructor|].
  destruct (Hj "rebotes") as [v4 H4]; [repeat constructor|].
  destruct (Hj "asistencias") as [v5 H5]; [repeat constructor|].
  cbn [listar]. unfold mbind at 1 2, sesion_bind, llamar, pure, print, getitem.
  rewrite H1, H2, H3, H4, H5. cbn [mbind result_bind disco entrada azar creaciones pantalla].
  rewrite IH. cbn [disco entrada azar creaciones pantalla fmap list_fmap].
  unfold ficha, dict_get. rewrite H1, H2, H3, H4, H5.
  by rewrite <-app_assoc.
Qed.

(** X22. What option 1 adds, option 2 shows: when the creation of the first
    round succeeds, the second round lists, among the players, the new one
    with its fields as the text stored, the statistics in the notation of a
    float; two rounds have read the nine lines and the session goes on. *)
Theorem menu_alta_y_listado (st : consola)
    (op1 op2 conferencia equipo nombre posicion puntos rebotes asistencias : string)
    (resto : list string) (fs' : node) (nuevo : dict) :
  let ruta := BASE ++ [str_strip (str_lower conferencia);
                       replace_espacios (str_lower equipo); CSV_FILENAME] in
  store_ok cwd (disco st) →
  linea_simple conferencia → linea_simple equipo →
  str_strip op1 = "1" → str_strip op2 = "2" →
  entrada st = op1 :: conferencia :: equipo :: nombre :: posicion :: puntos :: rebotes
                   :: asistencias :: op2 :: resto →
  alta_jugador cwd (azar st (creaciones st)) (str_strip (str_lower conferencia))
    (replace_espacios (str_lower equipo))
    (dict_of_pairs
       [(Some "nombre", VStr nombre); (Some "posicion", VStr posicion);
        (Some "puntos", VStr puntos); (Some "rebotes", VStr rebotes);
        (Some "asistencias", VStr asistencias)]) (disco st)
  = (fs', Ok nuevo) →
  ∃ st',
    menu cwd 2 st = (st', None)
    ∧ disco st' = fs' ∧ entrada st' = resto ∧ creaciones st' = S (creaciones st)
    ∧ Agregado nuevo ∈ pantalla st'
    ∧ ficha (etiquetado ruta ((VStr ∘ value_str) <$> nuevo)) ∈ pantalla st'.
Proof.
  intros ruta Hok _ _ Hs1 Hs2 Hentrada Halta.
  destruct (alta_jugador_releer cwd _ _ _ _ _ _ _ Hok Halta)
    as (Hok' & todos & todos' & _ & Htodos' & Hperm).
  destruct (store_ok_campos fs' Hok') as (todos2 & Htodos2 & Hall).
  rewrite Htodos' in Htodos2. injection Htodos2 as <-.
  destruct (vuelta_linea st _ _ Hentrada) as [visto1 Hv1].
  cbn [menu]. rewrite Hv1, Hs1. change (opcion cwd "1") with (opcion_1 cwd).
  unfold opcion_1, mbind, sesion_bind, input, urandom, intentar, print.
  cbn [disco entrada azar creaciones pantalla]. rewrite Halta.
  cbn [disco entrada azar creaciones pantalla].
  match goal with |- context [vuelta cwd ?st1] =>
    destruct (vuelta_linea st1 op2 resto eq_refl) as [visto2 Hv2]; rewrite Hv2 end.
  rewrite Hs2. change (opcion cwd "2") with (opcion_2 cwd).
  unfold opcion_2, mbind, sesion_bind, llamar, reading, print.
  cbn [disco entrada azar creaciones pantalla]. rewrite Htodos'.
  destruct todos' as [|j todos'].
  { symmetry in Hperm. apply Permutation_nil_r in Hperm. by destruct todos. }
  cbn [disco entrada azar creaciones pantalla]. rewrite listar_pantalla by done.
  cbn [disco entrada azar creaciones pantalla].
  eexists. split_and!; [reflexivity|done..| |]; cbn [pantalla].
  - do 3 (apply elem_of_app; left). apply elem_of_app. right.
    by apply list_elem_of_singleton.
  - apply elem_of_app. right. apply list_elem_of_fmap. eexists. split; [done|].
    rewrite Hperm. apply elem_of_app. right. by apply list_elem_of_singleton.
Qed.

End Sessions.

(** * The claims on the concrete league *)

Module Ejemplos.
Import Ref Liga.

Lemma liga_ok : store_ok cwd liga.
Proof. apply store_okb_correct. vm_compute. reflexivity. Qed.

Lemma repetida_ok : store_ok cwd repetida.
Proof. apply store_okb_correct. vm_compute. reflexivity. Qed.

Lemma presente_liga (jugador_id : string) :
  presenteb cwd liga jugador_id = true → presente cwd liga jugador_id.
Proof. apply presenteb_correct, liga_ok. Qed.

Lemma presente_repetida (jugador_id : string) :
  presenteb cwd repetida jugador_id = true → presente cwd repetida jugador_id.
Proof. apply presenteb_correct, repetida_ok. Qed.

Example textos_de_float :
  (λ s, float_repr <$> parse_float s)
    <$> ["10"; " 2.5e3 "; "-0"; "0.1"; "1e16"; "1e-5"; "12345.678"; "nan"; "-1"; "abc"; ""]
  = [Some "10.0"; Some "2500.0"; Some "-0.0"; Some "0.1"; Some "1e+16"; Some "1e-05";
     Some "12345.678"; Some "nan"; Some "-1.0"; None; None].
Proof. vm_compute. reflexivity. Qed.

Example uuid_extremos :
  uuid_str (uuid4 0) = "00000000-0000-4000-8000-000000000000"
  ∧ uuid_str (uuid4 (2 ^ 128 - 1)) = "ffffffff-ffff-4fff-bfff-ffffffffffff".
Proof. split; vm_compute; reflexivity. Qed.

Example leer_liga :
  (λ j : dict, (j !! Some "nombre", j !! Some "_origen"))
    <$> default [] (match leer_todos_los_jugadores cwd None liga with
                    | Ok l => Some l | Raise _ => None end)
  = [(Some (VStr "Ana"), Some (VPath bulls));
     (Some (VStr "Beto"), Some (VPath bulls));
     (Some (VStr "Caro"),
      Some (VPath (base ++ ["oeste"; "lakers"; "players.csv"])))].
Proof. reflexivity. Qed.

(** C1 on the league: nothing before the first creation, the three records
    of [liga] with their files, and three records after three creations. *)
Lemma leer_todos_los_jugadores_exacto_liga :
  leer_todos_los_jugadores cwd (Some base) vacio = Ok []
  ∧ (∃ archivos_csv,
       leer_todos_los_jugadores cwd (Some base) liga
       = Ok (archivos_csv ≫= λ a, etiquetado a.1 <$> dict_reader a.2)
       ∧ NoDup archivos_csv.*1
       ∧ ∀ p rows, (p, rows) ∈ archivos_csv ↔
           (∃ q, p = base ++ q) ∧ fs_file liga p = Some rows
           ∧ basename p = CSV_FILENAME)
  ∧ (∃ todos,
       leer_todos_los_jugadores cwd None (altas cwd pedidos vacio).1 = Ok todos
       ∧ length todos = 3%nat).
Proof.
  split_and!.
  - apply (proj1 (leer_todos_los_jugadores_exacto cwd vacio base)). reflexivity.
  - apply (proj1 (proj2 (leer_todos_los_jugadores_exacto cwd liga base))).
    + apply wf_nodeb_correct. reflexivity.
    + reflexivity.
  - destruct (leer_todos_los_jugadores_exacto cwd vacio base) as (_ & _ & Haltas).
    apply (Haltas pedidos (altas cwd pedidos vacio).1
             (match (altas cwd pedidos vacio).2 with Ok l => l | Raise _ => [] end)).
    + apply wf_nodeb_correct. reflexivity.
    + repeat constructor.
    + reflexivity.
    + reflexivity.
Defined.

(** C5 on the league: nobody carries ["zz"]. *)
Lemma actualizar_jugador_no_encontrado_liga :
  actualizar_jugador cwd "zz" cambios liga
  = (liga, Raise (KeyError "Jugador no encontrado.")).
Proof.
  apply (actualizar_jugador_no_encontrado cwd liga "zz" cambios liga_ok).
  apply ausente_correct; reflexivity.
Defined.

(** C6 on the league: deleting ["zz"] finds nothing, and deleting ["a1"] a
    second time finds nothing either. *)
Lemma eliminar_jugador_no_encontrado_liga :
  eliminar_jugador cwd "zz" liga = (liga, Ok false)
  ∧ eliminar_jugador cwd "a1" (eliminar_jugador cwd "a1" liga).1
    = ((eliminar_jugador cwd "a1" liga).1, Ok false).
Proof.
  split.
  - apply (proj1 (eliminar_jugador_no_encontrado cwd liga "zz" liga_ok)).
    apply ausente_correct; reflexivity.
  - apply (proj2 (eliminar_jugador_no_encontrado cwd liga "a1" liga_ok)).
    + intros q1 q2 (d1 & r1 & Hf1 & _ & Hr1 & Hid1) (d2 & r2 & Hf2 & _ & Hr2 & Hid2).
      assert (Huno : ∀ q d r,
                fs_file liga (BASE_DIR cwd ++ q) = Some (CSV_HEADERS :: d) →
                r ∈ d → id_de r = "a1" → q = ["este"; "bulls"; "players.csv"]).
      { intros q d r Hf Hr Hid.
        assert ((BASE_DIR cwd ++ q, CSV_HEADERS :: d) ∈ archivos_bajo liga (BASE_DIR cwd))
          as Hin by (apply archivos_bajo_spec; [apply liga_ok|eauto]).
        vm_compute in Hin.
        repeat (apply elem_of_cons in Hin as [Heq|Hin]);
          [..|by apply elem_of_nil in Hin]; simplify_eq; try done;
          repeat (apply elem_of_cons in Hr as [->|Hr]);
          try (by apply elem_of_nil in Hr); done. }
      rewrite (Huno _ _ _ Hf1 Hr1 Hid1). by rewrite (Huno _ _ _ Hf2 Hr2 Hid2).
    + reflexivity.
Defined.

(** C3, as amended, on the file that holds ["a1"] twice: both rows go. *)
Lemma eliminar_jugador_presente_repetida :
  ∃ q data l1 j l2 fs',
    leer_todos_los_jugadores cwd None repetida = Ok (l1 ++ j :: l2)
    ∧ Forall (λ j', coincide "a1" j' = false) l1
    ∧ j !! Some "id" = Some (VStr "a1")
    ∧ j !! Some "_origen" = Some (VPath (BASE_DIR cwd ++ q))
    ∧ fs_file repetida (BASE_DIR cwd ++ q) = Some (CSV_HEADERS :: data)
    ∧ eliminar_jugador cwd "a1" repetida = (fs', Ok true)
    ∧ fs_file fs' (BASE_DIR cwd ++ q)
      = Some (CSV_HEADERS :: filter (λ r, id_de r ≠ "a1") data)
    ∧ (∀ p', p' ≠ BASE_DIR cwd ++ q → fs_file fs' p' = fs_file repetida p')
    ∧ (length (filter (λ r, id_de r ≠ "a1") data)
       + length (filter (λ r, id_de r = "a1") data) = length data)%nat
    ∧ (1 ≤ length (filter (λ r, id_de r = "a1") data))%nat.
Proof.
  apply (eliminar_jugador_presente cwd repetida "a1" repetida_ok).
  apply presente_repetida. reflexivity.
Defined.

(** C3, as stated, fails on that file: the deletion takes two rows out. *)
Lemma eliminar_jugador_quita_dos :
  presente cwd repetida "a1" ∧ ¬ elimina_una_fila cwd repetida "a1".
Proof.
  split; [apply presente_repetida; reflexivity|].
  intros (fs' & p & rows & rows' & Helim & Hrows & Hrows' & Hlen & Hotros).
  assert (Hfs' : fs' = (eliminar_jugador cwd "a1" repetida).1) by by rewrite Helim.
  assert (Hantes : fs_file repetida bulls
            = Some [CSV_HEADERS; ["a1"; "Ana"; "base"; "10.0"; "5.0"; "3.0"];
                    ["a1"; "Ana"; "base"; "12.0"; "5.0"; "3.0"]]) by reflexivity.
  assert (Hdespues : fs_file fs' bulls = Some [CSV_HEADERS])
    by (rewrite Hfs'; reflexivity).
  destruct (decide (p = bulls)) as [->|Hp].
  - rewrite Hantes in Hrows. rewrite Hdespues in Hrows'.
    injection Hrows as <-. injection Hrows' as <-. simpl in Hlen. lia.
  - rewrite (Hotros bulls), Hantes in Hdespues by done. done.
Qed.

(** C2, as amended, on the league: the points of ["b2"] change, the name
    stays, the key ["id"] of the changes is passed over. *)
Lemma actualizar_jugador_presente_liga :
  ∃ q d1 r d2 fila' fs',
    basename (BASE_DIR cwd ++ q) = CSV_FILENAME
    ∧ fs_file liga (BASE_DIR cwd ++ q) = Some (CSV_HEADERS :: d1 ++ r :: d2)
    ∧ id_de r = "b2"
    ∧ Forall (λ r', id_de r' ≠ "b2") d1
    ∧ actualizar_jugador cwd "b2" cambios liga = (fs', Ok fila')
    ∧ (∀ k v, k ∈ campos_editables → cambios !! Some k = Some v →
              fila' !! Some k = Some v)
    ∧ (∀ k, k ∈ campos_editables → cambios !! Some k = None →
            fila' !! Some k = dict_reader_row CSV_HEADERS r !! Some k
            ∧ is_Some (dict_reader_row CSV_HEADERS r !! Some k))
    ∧ (∀ k : option string, k ∉ Some <$> campos_editables →
         fila' !! k = dict_reader_row CSV_HEADERS r !! k)
    ∧ fila' !! Some "id" = Some (VStr "b2")
    ∧ id_de (celdas fila') = "b2"
    ∧ fs_file fs' (BASE_DIR cwd ++ q) = Some (CSV_HEADERS :: d1 ++ celdas fila' :: d2)
    ∧ (∀ p', p' ≠ BASE_DIR cwd ++ q → fs_file fs' p' = fs_file liga p').
Proof.
  apply (actualizar_jugador_presente cwd liga "b2" cambios liga_ok).
  apply presente_liga. reflexivity.
Defined.

Example actualizar_liga :
  fs_file (actualizar_jugador cwd "b2" cambios liga).1 bulls
  = Some [CSV_HEADERS; ["a1"; "Ana"; "base"; "10.0"; "5.0"; "3.0"];
          ["b2"; "Beto"; "pivot"; "25"; "9.0"; "1.0"]].
Proof. reflexivity. Qed.

(** C2, as stated, fails on the league: the key ["id"] is in the changes and
    is not applied. *)
Lemma actualizar_jugador_ignora_id :
  presente cwd liga "b2" ∧ ¬ aplica_cada_clave cwd liga "b2" cambios.
Proof.
  split; [apply presente_liga; reflexivity|].
  intros (fs' & fila' & Hact & Hclaves).
  assert (Hid : match (actualizar_jugador cwd "b2" cambios liga).2 with
                | Ok fila => fila !! Some "id"
                | Raise _ => None
                end = Some (VStr "b2")) by reflexivity.
  rewrite Hact in Hid. cbn [snd] in Hid.
  rewrite (Hclaves "id" (VStr "zz")) in Hid by reflexivity. done.
Qed.

(** C8 on the league: the identifier survives changes that name it. *)
Lemma actualizar_jugador_conserva_id_liga :
  let fs' := (actualizar_jugador cwd "b2" cambios liga).1 in
  let fila' := match (actualizar_jugador cwd "b2" cambios liga).2 with
               | Ok fila => fila
               | Raise _ => ∅
               end in
  fila' !! Some "id" = Some (VStr "b2")
  ∧ ∃ q d1 r d2,
      fs_file liga (BASE_DIR cwd ++ q) = Some (CSV_HEADERS :: d1 ++ r :: d2)
      ∧ fs_file fs' (BASE_DIR cwd ++ q) = Some (CSV_HEADERS :: d1 ++ celdas fila' :: d2)
      ∧ id_de r = "b2"
      ∧ id_de (celdas fila') = "b2"
      ∧ (∀ k : option string, k ∉ Some <$> campos_editables →
           fila' !! k = dict_reader_row CSV_HEADERS r !! k)
      ∧ (∀ p', p' ≠ BASE_DIR cwd ++ q → fs_file fs' p' = fs_file liga p').
Proof.
  intros fs' fila'.
  apply (actualizar_jugador_conserva_id cwd liga fs' "b2" cambios fila' liga_ok).
  reflexivity.
Defined.

(** C7 on the league: the first player of the bulls. *)
Lemma alta_jugador_valido_liga :
  let ruta := BASE_DIR cwd ++ ["este"; "bulls"; CSV_FILENAME] in
  let id := "00000000-0000-4000-8000-000000000001" in
  ∃ fs',
    alta_jugador cwd 1 "este" "bulls" ana vacio
    = (fs', Ok (dict_of_pairs
                  [(Some "id", VStr id); (Some "nombre", VStr "Ana");
                   (Some "posicion", VStr "base");
                   (Some "puntos", VFloat 10%float); (Some "rebotes", VFloat 5%float);
                   (Some "asistencias", VFloat 3%float)]))
    ∧ id ≠ "" ∧ String.length id = 36%nat
    ∧ fs_file fs' ruta
      = Some [CSV_HEADERS; [id; "Ana"; "base"; "10.0"; "5.0"; "3.0"]]
    ∧ (∀ p, p ≠ ruta → fs_file fs' p = fs_file vacio p)
    ∧ (∀ rnd' conferencia' equipo' jugador' fs0 fs0' otro,
         alta_jugador cwd rnd' conferencia' equipo' jugador' fs0 = (fs0', Ok otro) →
         otro !! Some "id" = Some (VStr id)
         ↔ ∀ i, bit_libre i → N.testbit rnd' i = N.testbit 1 i).
Proof.
  apply (alta_jugador_valido (H:=builtins) cwd vacio con_bulls 1 "este" "bulls" ana "  Ana " "Base"
           (VStr "10") (VInt 5) (VFloat (H:=builtins) 3%float) 10%float 5%float 3%float []);
    try reflexivity.
  - change ("Ana" ≠ ""). done.
  - change ("base" ∈ posiciones_validas). repeat constructor.
  - left. split; reflexivity.
Defined.

(** Three creations in a row, with the random bytes 1, 2 and 3, return three
    identifiers. *)
Example altas_liga :
  (λ nuevo : dict, nuevo !! Some "id")
    <$> default [] (match (altas cwd pedidos vacio).2 with
                    | Ok l => Some l | Raise _ => None end)
  = [Some (VStr "00000000-0000-4000-8000-000000000001");
     Some (VStr "00000000-0000-4000-8000-000000000002");
     Some (VStr "00000000-0000-4000-8000-000000000003")].
Proof. reflexivity. Qed.

Example alta_liga :
  fs_file (alta_jugador cwd 1 "este" "bulls" ana vacio).1 bulls
  = Some [CSV_HEADERS;
          ["00000000-0000-4000-8000-000000000001"; "Ana"; "base"; "10.0"; "5.0"; "3.0"]].
Proof. reflexivity. Qed.



(** C10, as amended, on the league: no [rebotes]; where the bulls had no
    file the header-only file is there, where they had one nothing changes. *)
Lemma alta_jugador_falta_estadistica_liga :
  let dir := BASE_DIR cwd ++ ["este"; "bulls"] in
  let ruta := BASE_DIR cwd ++ ["este"; "bulls"; CSV_FILENAME] in
  let stats := ["puntos"; "rebotes"; "asistencias"] in
  let caso := λ fs : node,
    validar_estadisticas incompleto stats = Ok ()
    ∧ ∃ falta fs2,
        falta ∈ stats ∧ incompleto !! Some falta = None
        ∧ (∀ previas siguientes, stats = previas ++ falta :: siguientes →
             Forall (λ s, is_Some (incompleto !! Some s)) previas)
        ∧ alta_jugador cwd 1 "este" "bulls" incompleto fs = (fs2, Raise (KeyError falta))
        ∧ fs_isdir fs2 dir = true
        ∧ (∀ p, p ≠ ruta → fs_file fs2 p = fs_file fs p)
        ∧ (fs_lookup fs ruta = None → fs_file fs2 ruta = Some [CSV_HEADERS] ∧ fs2 ≠ fs)
        ∧ (fs_lookup fs ruta ≠ None → fs2 = fs) in
  caso vacio ∧ caso liga.
Proof.
  intros dir ruta stats caso.
  assert (Hstats : ∀ s, s ∈ stats →
            incompleto !! Some s = None
            ∨ ∃ v x, incompleto !! Some s = Some v ∧ py_float v = Ok x
                     ∧ float_ge0 x = true).
  { intros s Hs. repeat (apply elem_of_cons in Hs as [->|Hs]).
    - right. exists (VStr "7"), (7%float : @float builtins). by repeat split.
    - by left.
    - right. exists (VStr "2"), (2%float : @float builtins). by repeat split.
    - by apply elem_of_nil in Hs. }
  assert (Hfalta : ∃ s, s ∈ stats ∧ incompleto !! Some s = None).
  { exists "rebotes". split; [repeat constructor|reflexivity]. }
  assert (Hnombre : str_strip "Dani" ≠ "") by (change ("Dani" ≠ ""); done).
  assert (Hposicion : str_lower "escolta" ∈ posiciones_validas).
  { change ("escolta" ∈ posiciones_validas). repeat constructor. }
  split.
  - apply (alta_jugador_falta_estadistica (H:=builtins) cwd vacio con_bulls 1 "este" "bulls"
             incompleto "Dani" "escolta"); done || reflexivity.
  - apply (alta_jugador_falta_estadistica (H:=builtins) cwd liga liga 1 "este" "bulls"
             incompleto "Dani" "escolta"); done || reflexivity.
Defined.

(** C10, as stated, fails where the team has its file: the name and the
    position are valid, [rebotes] is missing, and the [KeyError] leaves the
    filesystem as it was. *)
Lemma alta_jugador_falta_sin_escribir :
  validar_nombre (dict_get incompleto "nombre" (VStr "")) = true
  ∧ validar_posicion (dict_get incompleto "posicion" (VStr "")) = Ok true
  ∧ incompleto !! Some "rebotes" = None
  ∧ alta_jugador cwd 1 "este" "bulls" incompleto liga = (liga, Raise (KeyError "rebotes"))
  ∧ ¬ falla_tras_escribir cwd liga 1 "este" "bulls" incompleto.
Proof.
  assert (Halta : alta_jugador cwd 1 "este" "bulls" incompleto liga
                  = (liga, Raise (KeyError "rebotes"))) by reflexivity.
  split_and!.
  - reflexivity.
  - reflexivity.
  - reflexivity.
  - exact Halta.
  - intros (falta & fs2 & Halta' & Hne). rewrite Halta in Halta'.
    injection Halta' as <- _. by apply Hne.
Qed.

Example falta_rebotes :
  (alta_jugador cwd 1 "este" "bulls" incompleto vacio).2 = Raise (KeyError "rebotes").
Proof. reflexivity. Qed.

(** C9 on the league: points 10, 20 and 30 average 20. *)
Lemma estadisticas_globales_promedios_liga :
  estadisticas_globales [] = Ok {[Some "total" := VInt 0]}
  ∧ estadisticas_globales tres
    = Ok (dict_of_pairs
            [(Some "total_jugadores", VInt 3);
             (Some "promedio_puntos", VFloat 20%float);
             (Some "promedio_rebotes", VFloat 6%float);
             (Some "promedio_asistencias", VFloat 3.5%float)]).
Proof.
  destruct (estadisticas_globales_promedios (H:=builtins) tres
              [10; 20; 30]%float [5; 9; 4]%float [3; 1.5; 6]%float
              20%float 6%float 3.5%float) as [Hvacio Hpromedios].
  split; [exact Hvacio|].
  apply Hpromedios; try reflexivity; try done;
    repeat (constructor; [eexists; split; reflexivity|]); constructor.
Defined.

End Ejemplos.

(** * The further properties on concrete cases *)

Module Comprobaciones.
Import Ref Liga Casos.

Lemma larga_wf : wf_node larga.
Proof. apply wf_nodeb_correct. reflexivity. Qed.

(** The directory of the bulls in the empty hierarchy, and in the league
    below the file of notes. *)
Lemma asegurar_directorio_spec_liga :
  (∃ fs',
     asegurar_directorio cwd ["este"; "bulls"] vacio = (fs', Ok (base ++ ["este"; "bulls"]))
     ∧ fs_isdir fs' (base ++ ["este"; "bulls"]) = true
     ∧ (∀ p, fs_file fs' p = fs_file vacio p)
     ∧ asegurar_directorio cwd ["este"; "bulls"] fs' = (fs', Ok (base ++ ["este"; "bulls"])))
  ∧ asegurar_directorio cwd ["este"; "notas.txt"; "bulls"] liga
    = (liga, Raise NotADirectoryError)
  ∧ asegurar_directorio cwd ["este"; "notas.txt"] liga = (liga, Raise FileExistsError).
Proof.
  split_and!.
  - apply (proj1 (asegurar_directorio_spec cwd vacio ["este"; "bulls"]
                    ltac:(repeat constructor))).
    intros q _. destruct (fs_file vacio q) as [rows|] eqn:Hq; [|done].
    assert ((q, rows) ∈ archivos [] vacio) as Hin.
    { apply archivos_spec; [apply wf_nodeb_correct; reflexivity|]. by exists q. }
    vm_compute in Hin. by apply elem_of_nil in Hin.
  - apply (proj2 (asegurar_directorio_spec cwd liga
                    ["este"; "notas.txt"; "bulls"] ltac:(repeat constructor))
             (base ++ ["este"; "notas.txt"]) [["recordar"; "fichajes"]]).
    + by exists ["bulls"].
    + reflexivity.
  - apply (proj2 (asegurar_directorio_spec cwd liga
                    ["este"; "notas.txt"] ltac:(repeat constructor))
             (base ++ ["este"; "notas.txt"]) [["recordar"; "fichajes"]]).
    + by exists [].
    + reflexivity.
Defined.

(** The first file of the bulls, and the file the league already has. *)
Lemma inicializar_csv_si_necesario_spec_bulls :
  inicializar_csv_si_necesario (base ++ ["este"; "bulls"]) liga = (liga, Ok bulls)
  ∧ ∃ fs',
      inicializar_csv_si_necesario (base ++ ["este"; "bulls"]) con_bulls = (fs', Ok bulls)
      ∧ fs_file fs' bulls = Some [CSV_HEADERS]
      ∧ leer_csv fs' bulls = Ok []
      ∧ (∀ p, p ≠ bulls → fs_file fs' p = fs_file con_bulls p).
Proof.
  split.
  - apply (proj1 (inicializar_csv_si_necesario_spec (H:=builtins) liga
                    (base ++ ["este"; "bulls"]))).
    by eexists.
  - apply (proj1 (proj2 (inicializar_csv_si_necesario_spec (H:=builtins) con_bulls
                           (base ++ ["este"; "bulls"])))); reflexivity.
Defined.

(** Reading a file that is not there, a directory, and below the notes. *)
Lemma leer_csv_spec_liga :
  leer_csv vacio bulls = Ok []
  ∧ leer_csv liga (base ++ ["este"; "bulls"]) = Raise IsADirectoryError
  ∧ leer_csv liga (base ++ ["este"; "notas.txt"; "players.csv"]) = Raise NotADirectoryError.
Proof.
  split_and!.
  - apply (proj1 (proj2 (leer_csv_spec (H:=builtins) vacio bulls))); [reflexivity|].
    intros q _. destruct (fs_file vacio q) as [rows|] eqn:Hq; [|done].
    assert ((q, rows) ∈ archivos [] vacio) as Hin.
    { apply archivos_spec; [apply wf_nodeb_correct; reflexivity|]. by exists q. }
    vm_compute in Hin. by apply elem_of_nil in Hin.
  - apply (proj1 (proj2 (proj2 (leer_csv_spec (H:=builtins) liga
                                  (base ++ ["este"; "bulls"]))))).
    reflexivity.
  - apply (proj2 (proj2 (proj2 (leer_csv_spec (H:=builtins) liga
                                  (base ++ ["este"; "notas.txt"; "players.csv"]))))
             (base ++ ["este"; "notas.txt"]) [["recordar"; "fichajes"]]).
    + by exists ["players.csv"].
    + done.
    + reflexivity.
Defined.

Example visita_termina :
  (menu cwd 13 visita).2 = Some Salir ∧ entrada (menu cwd 13 visita).1 = ["1"].
Proof. split; vm_compute; reflexivity. Qed.

(** Writing the three records to the file of the bulls and reading it back. *)
Lemma escribir_csv_leer_csv_liga :
  ∃ fs',
    escribir_csv bulls tres liga = (fs', Ok ())
    ∧ fs_file fs' bulls = Some (CSV_HEADERS :: (celdas <$> tres))
    ∧ leer_csv fs' bulls = Ok (dict_reader_row CSV_HEADERS ∘ celdas <$> tres)
    ∧ (∀ (d : dict) k, k ∈ CSV_HEADERS →
         dict_reader_row CSV_HEADERS (celdas d) !! Some k
         = Some (VStr (csv_cell (dict_get d k (VStr "")))))
    ∧ (∀ p, p ≠ bulls → fs_file fs' p = fs_file liga p).
Proof.
  apply (escribir_csv_leer_csv (H:=builtins) liga bulls tres).
  - repeat constructor.
  - left. by eexists.
Defined.

(** Reading the file of the bulls and writing it back. *)
Lemma leer_csv_escribir_csv_liga :
  ∃ filas,
    leer_csv liga bulls = Ok filas
    ∧ length filas = 2%nat
    ∧ escribir_csv bulls filas liga = (liga, Ok ()).
Proof.
  apply (leer_csv_escribir_csv (H:=builtins) liga bulls
           [CSV_HEADERS; ["a1"; "Ana"; "base"; "10.0"; "5.0"; "3.0"];
            ["b2"; "Beto"; "pivot"; "20.0"; "9.0"; "1.0"]]).
  - reflexivity.
  - apply record_fileb_correct. reflexivity.
Defined.

(** Writing the records of the traversal back to the file of the bulls: the
    first one carries [_origen], and the file is left with the header alone. *)
Lemma escribir_csv_parcial_liga :
  let todos := match leer_todos_los_jugadores cwd None liga with
               | Ok l => l
               | Raise _ => []
               end in
  ∃ fs' msg,
    escribir_csv bulls todos liga = (fs', Raise (ValueError msg))
    ∧ fs_file fs' bulls = Some [CSV_HEADERS]
    ∧ leer_csv fs' bulls = Ok []
    ∧ (∀ p, p ≠ bulls → fs_file fs' p = fs_file liga p).
Proof.
  destruct (escribir_csv_parcial (H:=builtins) liga bulls
              [CSV_HEADERS; ["a1"; "Ana"; "base"; "10.0"; "5.0"; "3.0"];
               ["b2"; "Beto"; "pivot"; "20.0"; "9.0"; "1.0"]]
              []
              (etiquetado bulls
                 (dict_reader_row CSV_HEADERS ["a1"; "Ana"; "base"; "10.0"; "5.0"; "3.0"]))
              [etiquetado bulls
                 (dict_reader_row CSV_HEADERS ["b2"; "Beto"; "pivot"; "20.0"; "9.0"; "1.0"]);
               etiquetado (base ++ ["oeste"; "lakers"; "players.csv"])
                 (dict_reader_row CSV_HEADERS ["c3"; "Caro"; "alero"; "30.0"; "4.0"; "6.0"])])
    as [Hparcial _].
  - reflexivity.
  - constructor.
  - reflexivity.
  - exact Hparcial.
Defined.

(** A second player for the bulls of the league: four records afterwards. *)
Lemma alta_jugador_leer_todos_liga :
  let fs' := (alta_jugador cwd 1 "este" "bulls" beto liga).1 in
  let nuevo := match (alta_jugador cwd 1 "este" "bulls" beto liga).2 with
               | Ok d => d
               | Raise _ => ∅
               end in
  let guardado := etiquetado (BASE_DIR cwd ++ ["este"; "bulls"; CSV_FILENAME])
                    ((VStr ∘ value_str) <$> nuevo) in
  ∃ todos todos',
    leer_todos_los_jugadores cwd None liga = Ok todos
    ∧ leer_todos_los_jugadores cwd None fs' = Ok todos'
    ∧ todos' ≡ₚ todos ++ [guardado]
    ∧ nuevo !! Some "id" = Some (VStr (uuid_str (uuid4 1)))
    ∧ coincide (uuid_str (uuid4 1)) guardado = true.
Proof.
  intros fs' nuevo guardado.
  apply (alta_jugador_leer_todos (H:=builtins) cwd liga fs' 1 "este" "bulls" beto nuevo).
  - reflexivity.
  - reflexivity.
  - apply Ejemplos.liga_ok.
  - reflexivity.
Defined.

(** Deleting ["a1"] from the file that holds it twice: no record is left. *)
Lemma eliminar_jugador_leer_todos_repetida :
  let fs' := (eliminar_jugador cwd "a1" repetida).1 in
  ∃ ruta l1 j l2 todos',
    leer_todos_los_jugadores cwd None repetida = Ok (l1 ++ j :: l2)
    ∧ Forall (λ j' : dict, coincide "a1" j' = false) l1
    ∧ coincide "a1" j = true ∧ origen j = Ok ruta
    ∧ leer_todos_los_jugadores cwd None fs' = Ok todos'
    ∧ todos' ≡ₚ filter (λ j', viene_de ruta j' && coincide "a1" j' = false)
                  (l1 ++ j :: l2).
Proof.
  intros fs'.
  apply (eliminar_jugador_leer_todos (H:=builtins) cwd repetida fs' "a1").
  - apply Ejemplos.repetida_ok.
  - reflexivity.
Defined.

(** Updating ["b2"] in the league. *)
Lemma actualizar_jugador_leer_todos_liga :
  let fs' := (actualizar_jugador cwd "b2" cambios liga).1 in
  let fila' := match (actualizar_jugador cwd "b2" cambios liga).2 with
               | Ok d => d
               | Raise _ => ∅
               end in
  ∃ viejo nuevo otros todos todos',
    leer_todos_los_jugadores cwd None liga = Ok todos
    ∧ leer_todos_los_jugadores cwd None fs' = Ok todos'
    ∧ todos ≡ₚ viejo :: otros ∧ todos' ≡ₚ nuevo :: otros
    ∧ coincide "b2" viejo = true ∧ coincide "b2" nuevo = true
    ∧ nuevo !! Some "_origen" = viejo !! Some "_origen"
    ∧ (∀ k v, k ∈ CSV_HEADERS → fila' !! Some k = Some v →
              nuevo !! Some k = Some (VStr (csv_cell v))).
Proof.
  intros fs' fila'.
  apply (actualizar_jugador_leer_todos (H:=builtins) cwd liga fs' "b2" cambios fila').
  - apply Ejemplos.liga_ok.
  - reflexivity.
Defined.

(** Creating a player in the league and deleting it again. *)
Lemma alta_jugador_eliminar_jugador_liga :
  let ruta := BASE_DIR cwd ++ ["este"; "heat"; CSV_FILENAME] in
  let id := uuid_str (uuid4 9) in
  let fs' := (alta_jugador cwd 9 "este" "heat" caro liga).1 in
  presente cwd fs' id
  ∧ ∃ fs'',
      eliminar_jugador cwd id fs' = (fs'', Ok true)
      ∧ fs_file fs'' ruta = Some (default [CSV_HEADERS] (fs_file liga ruta))
      ∧ (∀ p, p ≠ ruta → fs_file fs'' p = fs_file liga p)
      ∧ ¬ presente cwd fs'' id.
Proof.
  intros ruta id fs'.
  apply (alta_jugador_eliminar_jugador (H:=builtins) cwd liga fs' 9 "este" "heat" caro
           (match (alta_jugador cwd 9 "este" "heat" caro liga).2 with
            | Ok d => d
            | Raise _ => ∅
            end)).
  - reflexivity.
  - reflexivity.
  - apply Ejemplos.liga_ok.
  - apply ausente_correct; reflexivity.
  - reflexivity.
Defined.

(** Changes that name the team only leave the league as it is. *)
Lemma actualizar_jugador_sin_cambios_liga :
  ∃ q data r,
    fs_file liga (BASE_DIR cwd ++ q) = Some (CSV_HEADERS :: data)
    ∧ r ∈ data ∧ id_de r = "b2"
    ∧ actualizar_jugador cwd "b2" otro_campo liga
      = (liga, Ok (dict_reader_row CSV_HEADERS r)).
Proof.
  apply (actualizar_jugador_sin_cambios (H:=builtins) cwd liga "b2" otro_campo).
  - apply Ejemplos.liga_ok.
  - apply Ejemplos.presente_liga. reflexivity.
  - intros k Hk. unfold campos_editables in Hk.
    repeat (apply elem_of_cons in Hk as [->|Hk]; [reflexivity|]).
    by apply elem_of_nil in Hk.
Defined.

(** The points of ["b2"] set to ["abc"]: no statistics any more. *)
Lemma actualizar_jugador_no_valida_liga :
  ∃ fs' fila' todos' msg,
    actualizar_jugador cwd "b2" puntos_malos liga = (fs', Ok fila')
    ∧ fila' !! Some "puntos" = Some (VStr "abc")
    ∧ leer_todos_los_jugadores cwd None fs' = Ok todos'
    ∧ estadisticas_globales todos' = Raise (ValueError msg).
Proof.
  apply (actualizar_jugador_no_valida (H:=builtins) cwd liga "b2" "puntos" "abc" puntos_malos).
  - apply Ejemplos.liga_ok.
  - apply Ejemplos.presente_liga. reflexivity.
  - repeat constructor.
  - reflexivity.
  - reflexivity.
Defined.

(** Five requests, two of which fail, from the empty hierarchy. *)
Lemma store_ok_invariante_vacio :
  let fs' := foldl (ejecutar cwd) vacio operaciones in
  store_ok cwd fs'
  ∧ ∃ todos,
      leer_todos_los_jugadores cwd None fs' = Ok todos
      ∧ Forall (λ j : dict,
                  (∀ k, k ∈ CSV_HEADERS → ∃ t, j !! Some k = Some (VStr t))
                  ∧ ∃ p, origen j = Ok p ∧ basename p = CSV_FILENAME
                         ∧ is_Some (fs_file fs' p)) todos.
Proof.
  apply (store_ok_invariante (H:=builtins) cwd vacio operaciones).
  - left. split; [apply wf_nodeb_correct|]; reflexivity.
  - repeat constructor.
Defined.

(** A creation that fails after the file was made, in the empty hierarchy. *)
Lemma alta_jugador_conserva_vacio :
  let ruta := BASE_DIR cwd ++ ["este"; "bulls"; CSV_FILENAME] in
  let fs' := (alta_jugador cwd 1 "este" "bulls" incompleto vacio).1 in
  (∀ p, p ≠ ruta → fs_file fs' p = fs_file vacio p)
  ∧ (fs_file fs' ruta = fs_file vacio ruta
     ∨ (fs_file vacio ruta = None ∧ fs_file fs' ruta = Some [CSV_HEADERS])).
Proof.
  intros ruta fs'.
  apply (alta_jugador_conserva (H:=builtins) cwd vacio fs' 1 "este" "bulls" incompleto
           (Raise (KeyError "rebotes"))).
  - reflexivity.
  - reflexivity.
  - apply store_okb_correct. reflexivity.
  - reflexivity.
Defined.

(** A creation for the bulls when their file holds a row of seven cells:
    two of the three players are lost. *)
Lemma alta_jugador_fila_larga_bulls :
  let ruta := BASE_DIR cwd ++ ["este"; "bulls"; CSV_FILENAME] in
  ∃ fs' msg,
    alta_jugador cwd 1 "este" "bulls" beto larga = (fs', Raise (ValueError msg))
    ∧ fs_file fs' ruta = Some [CSV_HEADERS; ["a1"; "Ana"; "base"; "10.0"; "5.0"; "3.0"]]
    ∧ (∀ p, p ≠ ruta → fs_file fs' p = fs_file larga p).
Proof.
  apply (alta_jugador_fila_larga (H:=builtins) cwd larga 1 "este" "bulls" beto
           (match nuevo_jugador 1 beto with Ok d => d | Raise _ => ∅ end)
           [["a1"; "Ana"; "base"; "10.0"; "5.0"; "3.0"]]
           ["b2"; "Beto"; "pivot"; "20.0"; "9.0"; "1.0"; "lesionado"]
           [["c3"; "Caro"; "alero"; "30.0"; "4.0"; "6.0"]]).
  - reflexivity.
  - reflexivity.
  - reflexivity.
  - repeat constructor.
  - simpl. lia.
  - reflexivity.
  - reflexivity.
  - reflexivity.
  - reflexivity.
Defined.

(** A position that is a number, and points of [10 ** 400]. *)
Lemma alta_jugador_otras_excepciones_vacio :
  alta_jugador cwd 1 "este" "bulls" posicion_entera vacio = (vacio, Raise AttributeError)
  ∧ alta_jugador cwd 1 "este" "bulls" puntos_enormes vacio = (vacio, Raise OverflowError).
Proof.
  split.
  - apply (proj1 (alta_jugador_otras_excepciones (H:=builtins) cwd vacio 1 "este" "bulls"
                    posicion_entera eq_refl) (VInt 5)); [reflexivity|done|done].
  - apply (proj2 (alta_jugador_otras_excepciones (H:=builtins) cwd vacio 1 "este" "bulls"
                    puntos_enormes eq_refl) [] "puntos" ["rebotes"; "asistencias"]
                 (10 ^ 400)%Z); try reflexivity.
    constructor.
Defined.


Example paseo_termina :
  (menu cwd 5 paseo).2 = Some Salir ∧ entrada (menu cwd 5 paseo).1 = ["1"].
Proof. split; reflexivity. Qed.

(** The slip ends the session at option 5, with ["0"] unread. *)
Lemma menu_actualizar_rompe_estadisticas_descuido :
  ∃ st' fila' msg,
    menu cwd 2 descuido = (st', Some (Excepcion (ValueError msg)))
    ∧ entrada st' = ["0"]
    ∧ Actualizado fila' ∈ pantalla st'
    ∧ fila' !! Some "puntos" = Some (VStr "abc")
    ∧ (actualizar_jugador cwd "b2" {[Some "puntos" := VStr "abc"]} (disco descuido)).1
      = disco st'.
Proof.
  apply (menu_actualizar_rompe_estadisticas (H:=builtins) cwd descuido
           " 3" "5 " "b2" "puntos" "abc" ["0"] 0).
  - apply Ejemplos.liga_ok.
  - apply Ejemplos.presente_liga. reflexivity.
  - repeat constructor.
  - reflexivity.
  - reflexivity.
  - reflexivity.
  - reflexivity.
Defined.

(** The misprint is reported as an update. *)
Lemma menu_campo_desconocido_errata :
  ∃ visto r,
    vuelta cwd errata
    = (Consola (disco errata) ["0"] (azar errata) (creaciones errata)
         (pantalla errata ++ visto ++ [Actualizado (dict_reader_row CSV_HEADERS r)]),
       Sigue ())
    ∧ id_de r = "b2" ∧ length r = 6%nat.
Proof.
  apply (menu_campo_desconocido (H:=builtins) cwd errata "3" "b2" "equipo" "lakers" ["0"]).
  - apply Ejemplos.liga_ok.
  - apply Ejemplos.presente_liga. reflexivity.
  - unfold campos_editables. intros Hk.
    repeat (apply elem_of_cons in Hk as [Hk|Hk]; [done|]). by apply elem_of_nil in Hk.
  - reflexivity.
  - reflexivity.
Defined.

(** The visit: Ana is created for the Chicago Bulls and then listed. *)
Lemma menu_alta_y_listado_visita :
  let ruta := BASE_DIR cwd ++ ["este"; "chicago_bulls"; CSV_FILENAME] in
  let fs' := (alta_jugador cwd 7 "este" "chicago_bulls"
                (dict_of_pairs
                   [(Some "nombre", VStr " Ana "); (Some "posicion", VStr "Base");
                    (Some "puntos", VStr "10"); (Some "rebotes", VStr "5");
                    (Some "asistencias", VStr "3")]) vacio).1 in
  let nuevo := dict_of_pairs
                 [(Some "id", VStr "00000000-0000-4000-8000-000000000007");
                  (Some "nombre", VStr "Ana"); (Some "posicion", VStr "base");
                  (Some "puntos", VFloat 10%float); (Some "rebotes", VFloat 5%float);
                  (Some "asistencias", VFloat 3%float)] in
  ∃ st',
    menu cwd 2 visita = (st', None)
    ∧ disco st' = fs'
    ∧ entrada st' = ["5"; "9"; "0"; "1"]
    ∧ creaciones st' = 1%nat
    ∧ Agregado nuevo ∈ pantalla st'
    ∧ ficha (etiquetado ruta ((VStr ∘ value_str) <$> nuevo)) ∈ pantalla st'.
Proof.
  intros ruta fs' nuevo.
  apply (menu_alta_y_listado (H:=builtins) cwd visita "1" " 2 " "Este" "Chicago Bulls"
           " Ana " "Base" "10" "5" "3" ["5"; "9"; "0"; "1"] fs' nuevo); try reflexivity.
  - apply store_okb_correct. reflexivity.
  - split; reflexivity.
  - split; reflexivity.
Defined.

Example ficha_de_ana :
  ficha (etiquetado bulls
           ((VStr ∘ value_str)
              <$> dict_of_pairs
                    [(Some "id", VStr "00000000-0000-4000-8000-000000000007");
                     (Some "nombre", VStr "Ana"); (Some "posicion", VStr "base");
                     (Some "puntos", VFloat (H:=builtins) 10%float);
                     (Some "rebotes", VFloat (H:=builtins) 5%float);
                     (Some "asistencias", VFloat (H:=builtins) 3%float)]))
  = Ficha (VStr "Ana") (VStr "base") (VStr "10.0") (VStr "5.0") (VStr "3.0").
Proof. reflexivity. Qed.

(** The statistics of the three records, tagged or not. *)
Lemma estadisticas_globales_solo_estadisticas_tres :
  estadisticas_globales (etiquetado bulls <$> tres) = estadisticas_globales tres.
Proof.
  apply (estadisticas_globales_solo_estadisticas (H:=builtins)).
  repeat (constructor;
          [intros c Hc; repeat (apply elem_of_cons in Hc as [->|Hc]; [reflexivity|]);
           by apply elem_of_nil in Hc|]).
  constructor.
Defined.

End Comprobaciones.
